(** * The Figma backup orchestrator ([src/core/figma-backup.js])

    A shallow embedding of [FigmaBackupSystem]: its run context
    ([this.results]), the stages of [run] and the summary generator.

    The collaborators of the orchestrator (configuration loader, service
    constructors, Figma client, Dropbox / Notion / Obsidian clients, file
    system, clock) are taken as an environment of oracles.  Every call to
    a collaborator is appended, with its outcome, to a trace; an oracle
    sees the trace so far, so two calls with equal arguments may answer
    differently.  A collaborator answers with a value or throws; it does
    not write into the objects it is handed.

    JavaScript exceptions are modelled by their [message]; a computation
    returns the state it reached together with either a value or the
    message of the error it threw, so that mutations made before a throw
    stay visible to the [catch] block, as in the source.

    The logger ([utils/logger]) is modelled by the list of entries it was
    asked to write, and its methods return.  The notification service
    catches its own delivery errors ([NotificationService.notify]), so its
    methods return as well; each call is recorded in the trace.  The
    spinner and the console output are left out. *)

From stdpp Require Import base strings list gmap pretty.
From Stdlib Require Import ZArith Lia.

Local Open Scope Z_scope.
Local Open Scope nat_scope.
Local Open Scope string_scope.
Local Open Scope list_scope.

(** ** Outcomes of awaited calls *)

Inductive outcome (A : Type) : Type :=
| Returned (a : A)
| Thrown (message : string).
Arguments Returned {A} a.
Arguments Thrown {A} message.

Definition returned {A} (o : outcome A) : bool :=
  match o with Returned _ => true | Thrown _ => false end.

(** ** JavaScript truthiness of the values the orchestrator tests *)

(** A property holding a string, or absent ([undefined] / [null]). *)
Definition truthy (v : option string) : bool :=
  match v with
  | Some s => negb (String.eqb s "")
  | None => false
  end.

(** [a || b] on such values. *)
Definition js_or {A} (is_true : option A -> bool) (a b : option A) : option A :=
  if is_true a then a else b.

Definition truthy_bool (v : option bool) : bool :=
  match v with Some b => b | None => false end.

(** ** Data model *)

(** Resolved value of [services.figma.downloadFromUrl], with the two
    fields the caller reads. The caller takes the length of
    [result.files] without a guard, so the client answers with an array. *)
Record DownloadResponse := mkDownloadResponse {
  files : list string;
  outputPath : option string
}.

Record DownloadOptions := mkDownloadOptions {
  outputDir : option string;
  createTimestampFolder : option bool
}.

(** Elements of [results.downloads]. *)
Record DownloadEntry := mkDownloadEntry {
  dl_url : string;
  dl_success : bool;
  dl_files : option (list string);
  dl_output_path : option string;
  dl_error : option string;
  dl_timestamp : Z
}.

(** Resolved value of [services.dropbox.syncBackupResults]. *)
Record UploadResponse := mkUploadResponse {
  ur_success : bool;
  ur_remoteFolder : option string;
  ur_error : option string
}.

(** Elements of [results.uploads]. *)
Record UploadEntry := mkUploadEntry {
  up_source : option string;
  up_success : bool;
  up_remoteFolder : option string;
  up_timestamp : Z;
  up_error : option string
}.

(** Resolved value of the Notion and Obsidian [syncBackupResults]. *)
Record SyncResponse := mkSyncResponse {
  sr_success : bool;
  sr_results : option (list string)
}.

(** Elements of [results.syncs]. *)
Record SyncEntry := mkSyncEntry {
  sync_type : string;
  sync_success : bool;
  sync_details : option string;
  sync_error : option string;
  sync_timestamp : Z
}.

(** Values stored in [summary.services]: the shape written by the
    [syncs.forEach] loop and the shape written for Dropbox. *)
Inductive ServiceStatus :=
| SyncStatus (success : bool) (details error : option string)
| UploadStatus (success : bool) (uploaded_count total_count : nat).

Record Summary := mkSummary {
  sum_execution_id : string;
  total_targets : nat;
  successful_downloads : nat;
  failed_downloads : nat;
  total_files : nat;
  sum_duration : string;
  duration_ms : option Z;
  services_status : gmap string ServiceStatus;
  (* in the source this field shares the array [results.errors]; it is
     read here at the time the summary is built *)
  sum_errors : list string
}.

(** [this.results]. [summary] is [None] for the initial empty object. *)
Record Results := mkResults {
  execution_id : string;
  start_time : Z;
  end_time : option Z;
  duration : option Z;
  success : bool;
  targets : list string;
  downloads : list DownloadEntry;
  uploads : list UploadEntry;
  syncs : list SyncEntry;
  errors : list string;
  summary : option Summary
}.

(** The part of the loaded configuration the orchestrator reads. The
    [*_enabled] flags stand for [config.x && config.x.enabled]. *)
Record Config := mkConfig {
  backup_targets : list string;
  backup_output_dir : option string;
  backup_outputDir : option string;
  backup_create_timestamp_folder : option bool;
  backup_createTimestampFolder : option bool;
  dropbox_enabled : bool;
  notion_enabled : bool;
  obsidian_enabled : bool
}.

(** Answer of a readiness probe, and the entry [{ service, ...answer }]. *)
Record Validation := mkValidation { valid : bool }.

Record ValidationEntry := mkValidationEntry {
  service : string;
  v_valid : bool
}.

(** Value returned by [validateServices]. *)
Record ValidationReport := mkValidationReport {
  vr_success : bool;
  vr_validations : option (list ValidationEntry);
  vr_error : option string
}.

Record SystemInfo := mkSystemInfo {
  node_version : string;
  platform : string;
  arch : string
}.

(** The object written by [saveExecutionReport]. *)
Record Report := mkReport {
  rep_results : Results;
  generated_at : Z;
  rep_system_info : SystemInfo
}.

(** ** Trace of calls to collaborators, with their outcomes *)

Inductive Event :=
| EvNow (t : Z)
| EvLoadConfig (out : outcome Config)
| EvNewService (name : string) (out : outcome unit)
| EvValidate (name : string) (out : outcome Validation)
| EvDownload (url : string) (opts : DownloadOptions) (out : outcome DownloadResponse)
| EvDropboxSync (batch : list DownloadEntry) (out : outcome UploadResponse)
| EvNotionSync (batch : list Results) (out : outcome SyncResponse)
| EvObsidianSync (batch : list Results) (out : outcome SyncResponse)
| EvEnsureDir (dir : string) (out : outcome unit)
| EvWriteJson (file : string) (report : Report) (out : outcome unit)
| EvNotifyStart (tgts : list string)
| EvNotifyComplete (dls : list DownloadEntry)
| EvNotifyError (message : string).

(** What the logger was asked to write: the method called, its message
    and its metadata. *)
Inductive LogLevel := LError | LWarn | LInfo | LSuccess | LStart | LFile.

Record LogEntry := mkLogEntry {
  level : LogLevel;
  log_message : string;
  log_meta : list (string * string)
}.

(** ** The environment: collaborators as oracles over the trace *)

Record Env := mkEnv {
  (* [uuidv4()], [Date.now()], [moment.duration(d).humanize()],
     [moment(t).format('YYYY-MM-DD_HH-mm-ss')] and [process] *)
  uuidv4 : string;
  clock : list Event -> Z;
  humanize : option Z -> string;
  format_timestamp : Z -> string;
  system_info : SystemInfo;
  (* [new ConfigManager().loadConfig()] *)
  loadConfig : list Event -> outcome Config;
  (* the constructors [FigmaApiWrapper], [DropboxSync], [NotionUpdater]
     and [ObsidianSync], by name *)
  new_service : list Event -> string -> outcome unit;
  (* [figma.validateToken], [dropbox.validateConnection],
     [notion.validateConnection] and [obsidian.validateVault], by the
     service name used in [validateServices] *)
  probe : list Event -> string -> outcome Validation;
  (* [figma.downloadFromUrl] and the three [syncBackupResults] *)
  downloadFromUrl :
    list Event -> string -> DownloadOptions -> outcome DownloadResponse;
  dropbox_syncBackupResults :
    list Event -> list DownloadEntry -> outcome UploadResponse;
  notion_syncBackupResults :
    list Event -> list Results -> outcome SyncResponse;
  obsidian_syncBackupResults :
    list Event -> list Results -> outcome SyncResponse;
  (* [fs.ensureDir] and [fs.writeJson] *)
  ensureDir : list Event -> string -> outcome unit;
  writeJson : list Event -> string -> Report -> outcome unit
}.

(** ** The object [this] and the observable world *)

(** Which entries of [this.services] are set. *)
Record Services := mkServices {
  figma : bool;
  dropbox : bool;
  notion : bool;
  obsidian : bool
}.

Record System := mkSystem {
  executionId : string;
  startTime : Z;
  config : option Config;
  logger : bool;
  notificationService : bool;
  services : Services;
  results : Results;
  written_log : list LogEntry;
  trace : list Event
}.

(** Field updates ([this.x = v], [this.results.x = v]). *)

Definition with_config (c : option Config) (s : System) : System :=
  mkSystem (executionId s) (startTime s) c (logger s) (notificationService s)
           (services s) (results s) (written_log s) (trace s).

Definition with_logger (b : bool) (s : System) : System :=
  mkSystem (executionId s) (startTime s) (config s) b (notificationService s)
           (services s) (results s) (written_log s) (trace s).

Definition with_notificationService (b : bool) (s : System) : System :=
  mkSystem (executionId s) (startTime s) (config s) (logger s) b
           (services s) (results s) (written_log s) (trace s).

Definition with_services (f : Services -> Services) (s : System) : System :=
  mkSystem (executionId s) (startTime s) (config s) (logger s)
           (notificationService s) (f (services s)) (results s)
           (written_log s) (trace s).

Definition with_results (f : Results -> Results) (s : System) : System :=
  mkSystem (executionId s) (startTime s) (config s) (logger s)
           (notificationService s) (services s) (f (results s))
           (written_log s) (trace s).

Definition add_log (e : LogEntry) (s : System) : System :=
  mkSystem (executionId s) (startTime s) (config s) (logger s)
           (notificationService s) (services s) (results s)
           (written_log s ++ [e]) (trace s).

Definition add_event (e : Event) (s : System) : System :=
  mkSystem (executionId s) (startTime s) (config s) (logger s)
           (notificationService s) (services s) (results s)
           (written_log s) (trace s ++ [e]).

Definition set_figma (sv : Services) : Services :=
  mkServices true (dropbox sv) (notion sv) (obsidian sv).
Definition set_dropbox (sv : Services) : Services :=
  mkServices (figma sv) true (notion sv) (obsidian sv).
Definition set_notion (sv : Services) : Services :=
  mkServices (figma sv) (dropbox sv) true (obsidian sv).
Definition set_obsidian (sv : Services) : Services :=
  mkServices (figma sv) (dropbox sv) (notion sv) true.

Definition set_end_time (v : option Z) (r : Results) : Results :=
  mkResults (execution_id r) (start_time r) v (duration r) (success r)
            (targets r) (downloads r) (uploads r) (syncs r) (errors r) (summary r).
Definition set_duration (v : option Z) (r : Results) : Results :=
  mkResults (execution_id r) (start_time r) (end_time r) v (success r)
            (targets r) (downloads r) (uploads r) (syncs r) (errors r) (summary r).
Definition set_success (v : bool) (r : Results) : Results :=
  mkResults (execution_id r) (start_time r) (end_time r) (duration r) v
            (targets r) (downloads r) (uploads r) (syncs r) (errors r) (summary r).
Definition set_targets (v : list string) (r : Results) : Results :=
  mkResults (execution_id r) (start_time r) (end_time r) (duration r) (success r)
            v (downloads r) (uploads r) (syncs r) (errors r) (summary r).
Definition set_downloads (v : list DownloadEntry) (r : Results) : Results :=
  mkResults (execution_id r) (start_time r) (end_time r) (duration r) (success r)
            (targets r) v (uploads r) (syncs r) (errors r) (summary r).
Definition set_uploads (v : list UploadEntry) (r : Results) : Results :=
  mkResults (execution_id r) (start_time r) (end_time r) (duration r) (success r)
            (targets r) (downloads r) v (syncs r) (errors r) (summary r).
Definition push_sync (e : SyncEntry) (r : Results) : Results :=
  mkResults (execution_id r) (start_time r) (end_time r) (duration r) (success r)
            (targets r) (downloads r) (uploads r) (syncs r ++ [e]) (errors r) (summary r).
Definition push_error (m : string) (r : Results) : Results :=
  mkResults (execution_id r) (start_time r) (end_time r) (duration r) (success r)
            (targets r) (downloads r) (uploads r) (syncs r) (errors r ++ [m]) (summary r).
Definition set_summary (v : option Summary) (r : Results) : Results :=
  mkResults (execution_id r) (start_time r) (end_time r) (duration r) (success r)
            (targets r) (downloads r) (uploads r) (syncs r) (errors r) v.

Definition with_services_status
    (f : gmap string ServiceStatus -> gmap string ServiceStatus)
    (m : Summary) : Summary :=
  mkSummary (sum_execution_id m) (total_targets m) (successful_downloads m)
            (failed_downloads m) (total_files m) (sum_duration m)
            (duration_ms m) (f (services_status m)) (sum_errors m).

(** ** Computations: state passing with exceptions *)

Definition M (A : Type) : Type := System -> System * outcome A.

Definition ret {A} (a : A) : M A := fun s => (s, Returned a).

Definition throw {A} (message : string) : M A := fun s => (s, Thrown message).

Definition bind {A B} (c : M A) (k : A -> M B) : M B :=
  fun s =>
    match c s with
    | (s', Returned a) => k a s'
    | (s', Thrown m) => (s', Thrown m)
    end.

(** [try { c } catch (error) { handler error.message }] *)
Definition try_catch {A} (c : M A) (handler : string -> M A) : M A :=
  fun s =>
    match c s with
    | (s', Returned a) => (s', Returned a)
    | (s', Thrown m) => handler m s'
    end.

Definition gets {A} (f : System -> A) : M A := fun s => (s, Returned (f s)).

Definition modify (f : System -> System) : M unit := fun s => (f s, Returned tt).

Declare Scope js_scope.
Delimit Scope js_scope with js.
Notation "x <- c1 ;; c2" := (bind c1 (fun x => c2))
  (at level 100, c1 at next level, right associativity) : js_scope.
Notation "c1 ;; c2" := (bind c1 (fun _ => c2))
  (at level 100, right associativity) : js_scope.
Local Open Scope js_scope.

(** ** The orchestrator *)

Section Orchestrator.

Variable W : Env.

(** An awaited call to a collaborator: the oracle answers from the trace
    so far, and the call is recorded with its outcome. *)
Definition call {A} (oracle : list Event -> outcome A)
    (record : outcome A -> Event) : M A :=
  fun s => let out := oracle (trace s) in (add_event (record out) s, out).

(** [Date.now()], [new Date()] and [moment()]. *)
Definition now : M Z :=
  fun s => let t := clock W (trace s) in (add_event (EvNow t) s, Returned t).

(** A method of [this.logger]. Inside the stages [this.logger] is the
    logger built by [initialize]; see [run] for the one place that can be
    reached while it is still [null]. *)
Definition log (lv : LogLevel) (message : string)
    (meta : list (string * string)) : M unit :=
  modify (add_log (mkLogEntry lv message meta)).

(** A method of [this.notificationService]. The service catches its own
    delivery errors ([NotificationService.notify]), so the call returns. *)
Definition notification (e : Event) : M unit := modify (add_event e).

Definition modify_results (f : Results -> Results) : M unit :=
  modify (with_results f).

(** Reading a property of [null]. *)
Definition null_deref (prop : string) : string :=
  "Cannot read properties of null (reading '" +:+ prop +:+ "')".

(** [this.config], dereferenced. *)
Definition the_config (prop : string) : M Config :=
  fun s =>
    match config s with
    | Some c => (s, Returned c)
    | None => (s, Thrown (null_deref prop))
    end.

(** [new FigmaBackupSystem()] *)
Definition new_FigmaBackupSystem : System :=
  let id := uuidv4 W in
  let t := clock W [] in
  {| executionId := id;
     startTime := t;
     config := None;
     logger := false;
     notificationService := false;
     services := mkServices false false false false;
     results :=
       {| execution_id := id; start_time := t; end_time := None;
          duration := None; success := false; targets := [];
          downloads := []; uploads := []; syncs := []; errors := [];
          summary := None |};
     written_log := [];
     trace := [EvNow t] |}.

(** [initializeServices] *)
Definition initializeServices : M unit :=
  try_catch
    (cfg <- the_config "figma" ;;
     call (fun tr => new_service W tr "FigmaApiWrapper")
          (EvNewService "FigmaApiWrapper") ;;
     modify (with_services set_figma) ;;
     (if dropbox_enabled cfg then
        call (fun tr => new_service W tr "DropboxSync")
             (EvNewService "DropboxSync") ;;
        modify (with_services set_dropbox)
      else ret tt) ;;
     (if notion_enabled cfg then
        call (fun tr => new_service W tr "NotionUpdater")
             (EvNewService "NotionUpdater") ;;
        modify (with_services set_notion)
      else ret tt) ;;
     (if obsidian_enabled cfg then
        call (fun tr => new_service W tr "ObsidianSync")
             (EvNewService "ObsidianSync") ;;
        modify (with_services set_obsidian)
      else ret tt) ;;
     log LInfo "🔧 所有服務已初始化" [])
    (fun message => throw ("服務初始化失敗: " +:+ message)).

(** [initialize] *)
Definition initialize : M bool :=
  try_catch
    (cfg <- call (loadConfig W) EvLoadConfig ;;
     modify (with_config (Some cfg)) ;;
     modify (with_logger true) ;;
     modify (with_notificationService true) ;;
     initializeServices ;;
     id <- gets executionId ;;
     log LStart "Figma 自動化備份系統初始化完成"
         [("executionId", id); ("configPath", "./backup-config.json")] ;;
     ret true)
    (fun message => throw message).

(** [validateServices] *)
Definition probe_service (name : string) : M Validation :=
  call (fun tr => probe W tr name) (EvValidate name).

Definition validateServices : M ValidationReport :=
  try_catch
    (figmaValidation <- probe_service "Figma" ;;
     let validations := [mkValidationEntry "Figma" (valid figmaValidation)] in
     sv <- gets services ;;
     validations <-
       (if dropbox sv then
          dropboxValidation <- probe_service "Dropbox" ;;
          ret (validations ++ [mkValidationEntry "Dropbox" (valid dropboxValidation)])
        else ret validations) ;;
     validations <-
       (if notion sv then
          notionValidation <- probe_service "Notion" ;;
          ret (validations ++ [mkValidationEntry "Notion" (valid notionValidation)])
        else ret validations) ;;
     validations <-
       (if obsidian sv then
          obsidianValidation <- probe_service "Obsidian" ;;
          ret (validations ++ [mkValidationEntry "Obsidian" (valid obsidianValidation)])
        else ret validations) ;;
     let allValid := forallb v_valid validations in
     (if allValid then log LSuccess "所有服務驗證通過" []
      else
        let failedServices :=
          map service (List.filter (fun v => negb (v_valid v)) validations) in
        log LWarn ("部分服務驗證失敗: " +:+ String.concat ", " failedServices) []) ;;
     ret (mkValidationReport allValid (Some validations) None))
    (fun message =>
       log LError "服務驗證過程中發生錯誤" [("error", message)] ;;
       ret (mkValidationReport false None (Some message))).

(** [downloadFigmaFiles]: the body of the [for] loop, then the loop over
    the remaining urls with the local array [downloads]. *)
Definition download_options (cfg : Config) : DownloadOptions :=
  {| outputDir := js_or truthy (backup_output_dir cfg) (backup_outputDir cfg);
     createTimestampFolder :=
       js_or truthy_bool (backup_create_timestamp_folder cfg)
             (backup_createTimestampFolder cfg) |}.

(** After [downloads.push] the [try] block only reports progress (spinner
    and logger). *)
Definition download_one (url : string) (downloads : list DownloadEntry)
    : M (list DownloadEntry) :=
  try_catch
    (cfg <- the_config "backup" ;;
     result <-
       call (fun tr => downloadFromUrl W tr url (download_options cfg))
            (EvDownload url (download_options cfg)) ;;
     t <- now ;;
     let downloads :=
       downloads ++
         [mkDownloadEntry url true (Some (files result)) (outputPath result) None t] in
     log LSuccess ("下載完成: " +:+ url)
         [("filesCount", pretty (length (files result)))] ;;
     ret downloads)
    (fun message =>
       t <- now ;;
       let downloads :=
         downloads ++ [mkDownloadEntry url false None None (Some message) t] in
       log LError ("下載失敗: " +:+ url) [("error", message)] ;;
       ret downloads).

Fixpoint download_loop (urls : list string) (downloads : list DownloadEntry)
    : M (list DownloadEntry) :=
  match urls with
  | [] => ret downloads
  | url :: rest =>
      downloads <- download_one url downloads ;;
      download_loop rest downloads
  end.

Definition downloadFigmaFiles (urls : list string) : M (list DownloadEntry) :=
  log LInfo ("開始下載 " +:+ pretty (length urls) +:+ " 個 Figma 目標") [] ;;
  download_loop urls [].

(** [uploadToDropbox]: the [for ... of] loop with the local array
    [uploads], inside the [try] of the method. *)
Definition uploadable (download : DownloadEntry) : bool :=
  dl_success download && truthy (dl_output_path download).

Fixpoint upload_loop (figmaDownloads : list DownloadEntry)
    (uploads : list UploadEntry) : M (list UploadEntry) :=
  match figmaDownloads with
  | [] => ret uploads
  | download :: rest =>
      if uploadable download then
        result <-
          call (fun tr => dropbox_syncBackupResults W tr [download])
               (EvDropboxSync [download]) ;;
        t <- now ;;
        upload_loop rest
          (uploads ++
             [mkUploadEntry (dl_output_path download) (ur_success result)
                            (ur_remoteFolder result) t (ur_error result)])
      else upload_loop rest uploads
  end.

Definition uploadToDropbox (figmaDownloads : list DownloadEntry)
    : M (list UploadEntry) :=
  try_catch
    (upload_loop figmaDownloads [])
    (fun message =>
       log LError "Dropbox 上傳失敗" [("error", message)] ;;
       t <- now ;;
       ret [mkUploadEntry None false None t (Some message)]).

(** [syncResult.results?.length || 0] *)
Definition results_count (r : SyncResponse) : nat :=
  match sr_results r with
  | Some l => length l
  | None => 0
  end.

(** [updateNotionDatabase] *)
Definition updateNotionDatabase (res : Results) : M SyncEntry :=
  try_catch
    (syncResult <-
       call (fun tr => notion_syncBackupResults W tr [res]) (EvNotionSync [res]) ;;
     t <- now ;;
     ret (mkSyncEntry "notion" (sr_success syncResult)
            (Some ("更新了 " +:+ pretty (results_count syncResult) +:+ " 筆記錄"))
            None t))
    (fun message =>
       log LError "Notion 更新失敗" [("error", message)] ;;
       t <- now ;;
       ret (mkSyncEntry "notion" false None (Some message) t)).

(** [syncObsidianVault] *)
Definition syncObsidianVault (res : Results) : M SyncEntry :=
  try_catch
    (syncResult <-
       call (fun tr => obsidian_syncBackupResults W tr [res]) (EvObsidianSync [res]) ;;
     t <- now ;;
     ret (mkSyncEntry "obsidian" (sr_success syncResult)
            (Some ("同步了 " +:+ pretty (results_count syncResult) +:+ " 個檔案"))
            None t))
    (fun message =>
       log LError "Obsidian 同步失敗" [("error", message)] ;;
       t <- now ;;
       ret (mkSyncEntry "obsidian" false None (Some message) t)).

(** [generateSummary] *)
Definition files_count (d : DownloadEntry) : nat :=
  match dl_files d with
  | Some l => length l
  | None => 0
  end.

Definition record_sync (m : Summary) (sync : SyncEntry) : Summary :=
  with_services_status
    (insert (sync_type sync)
       (SyncStatus (sync_success sync) (sync_details sync) (sync_error sync)))
    m.

Definition generateSummary : M Summary :=
  id <- gets executionId ;;
  r <- gets results ;;
  let summary :=
    {| sum_execution_id := id;
       total_targets := length (targets r);
       successful_downloads := length (List.filter dl_success (downloads r));
       failed_downloads :=
         length (List.filter (fun d => negb (dl_success d)) (downloads r));
       total_files := foldl (fun sum d => sum + files_count d) 0 (downloads r);
       sum_duration := humanize W (duration r);
       duration_ms := duration r;
       services_status := ∅;
       sum_errors := errors r |} in
  let summary := foldl record_sync summary (syncs r) in
  let summary :=
    if Nat.ltb 0 (length (uploads r)) then
      with_services_status
        (insert "dropbox"
           (UploadStatus (existsb up_success (uploads r))
              (length (List.filter up_success (uploads r)))
              (length (uploads r))))
        summary
    else summary in
  ret summary.

(** [saveExecutionReport] *)
Definition saveExecutionReport : M string :=
  try_catch
    (let reportsDir := "./reports" in
     call (fun tr => ensureDir W tr reportsDir) (EvEnsureDir reportsDir) ;;
     t <- now ;;
     let reportPath :=
       "reports/backup-report-" +:+ format_timestamp W t +:+ ".json" in
     r <- gets results ;;
     g <- now ;;
     let report :=
       {| rep_results := r; generated_at := g; rep_system_info := system_info W |} in
     call (fun tr => writeJson W tr reportPath report)
          (EvWriteJson reportPath report) ;;
     id <- gets executionId ;;
     log LFile ("SAVE " +:+ reportPath +:+ " - SUCCESS")
         [("operation", "SAVE"); ("filePath", reportPath);
          ("type", "execution_report"); ("executionId", id)] ;;
     ret reportPath)
    (fun message =>
       log LError "儲存執行報告失敗" [("error", message)] ;;
       throw message).

(** [displayResults] only prints to the console. *)
Definition displayResults : M unit := ret tt.

(** The [catch] block of [run]. It can be entered before [initialize] has
    built the logger and the notification service, when the fields still
    hold [null]. *)
Definition run_catch (message : string) : M Results :=
  modify_results (set_success false) ;;
  modify_results (push_error message) ;;
  lg <- gets logger ;;
  (if lg then log LError "備份執行失敗" [("error", message)]
   else throw (null_deref "error")) ;;
  ns <- gets notificationService ;;
  (if ns then notification (EvNotifyError message)
   else throw (null_deref "notifyBackupError")) ;;
  throw message.

(** [run]. The body of its [try] block is written as five consecutive
    blocks: initialization and the validation gate, ... *)
Definition validation_gate : M unit :=
  initialize ;;
  cfg <- the_config "backup" ;;
  notification (EvNotifyStart (backup_targets cfg)) ;;
  validation <- validateServices ;;
  (if vr_success validation then ret tt
   else throw "服務驗證失敗，無法繼續執行備份").

(** ... the downloads, ... *)
Definition download_stage : M unit :=
  cfg <- the_config "backup" ;;
  modify_results (set_targets (backup_targets cfg)) ;;
  ds <- downloadFigmaFiles (backup_targets cfg) ;;
  modify_results (set_downloads ds).

(** ... the destinations, one guarded statement each, ... *)
Definition dropbox_step : M unit :=
  sv <- gets services ;;
  if dropbox sv then
    r <- gets results ;;
    ups <- uploadToDropbox (downloads r) ;;
    modify_results (set_uploads ups)
  else ret tt.

Definition notion_step : M unit :=
  sv <- gets services ;;
  if notion sv then
    r <- gets results ;;
    entry <- updateNotionDatabase r ;;
    modify_results (push_sync entry)
  else ret tt.

Definition obsidian_step : M unit :=
  sv <- gets services ;;
  if obsidian sv then
    r <- gets results ;;
    entry <- syncObsidianVault r ;;
    modify_results (push_sync entry)
  else ret tt.

Definition sync_stage : M unit :=
  dropbox_step ;;
  notion_step ;;
  obsidian_step.

(** ... the completion of the run context, ... *)
Definition aggregate : M unit :=
  t <- now ;;
  modify_results (set_end_time (Some t)) ;;
  modify_results (fun r => set_duration (Some (t - start_time r)%Z) r) ;;
  modify_results (fun r => set_success (existsb dl_success (downloads r)) r) ;;
  summary <- generateSummary ;;
  modify_results (set_summary (Some summary)).

(** ... and the report, the display and the completion notice. *)
Definition report_and_return : M Results :=
  saveExecutionReport ;;
  displayResults ;;
  r <- gets results ;;
  notification (EvNotifyComplete (downloads r)) ;;
  gets results.

Definition run : M Results :=
  try_catch
    (validation_gate ;;
     download_stage ;;
     sync_stage ;;
     aggregate ;;
     report_and_return)
    run_catch.

(** A whole execution: [new FigmaBackupSystem().run()]. *)
Definition execute : System * outcome Results := run new_FigmaBackupSystem.

End Orchestrator.

(** ** Reading the trace *)

(** The calls made to each collaborator, oldest first. *)
Definition download_calls (tr : list Event)
    : list (string * outcome DownloadResponse) :=
  omap (fun e => match e with EvDownload u _ o => Some (u, o) | _ => None end) tr.

Definition dropbox_calls (tr : list Event)
    : list (list DownloadEntry * outcome UploadResponse) :=
  omap (fun e => match e with EvDropboxSync b o => Some (b, o) | _ => None end) tr.

Definition notion_calls (tr : list Event)
    : list (list Results * outcome SyncResponse) :=
  omap (fun e => match e with EvNotionSync b o => Some (b, o) | _ => None end) tr.

Definition obsidian_calls (tr : list Event)
    : list (list Results * outcome SyncResponse) :=
  omap (fun e => match e with EvObsidianSync b o => Some (b, o) | _ => None end) tr.

Definition probe_calls (tr : list Event) : list (string * outcome Validation) :=
  omap (fun e => match e with EvValidate n o => Some (n, o) | _ => None end) tr.

(** Messages of the errors thrown by the file system while the report was
    being persisted, and the reports that were written. *)
Definition persistence_failures (tr : list Event) : list string :=
  omap (fun e =>
          match e with
          | EvEnsureDir _ (Thrown m) => Some m
          | EvWriteJson _ _ (Thrown m) => Some m
          | _ => None
          end) tr.

Definition reports_written (tr : list Event) : list Report :=
  omap (fun e =>
          match e with
          | EvWriteJson _ rep (Returned _) => Some rep
          | _ => None
          end) tr.


(** The download entry recorded for a call to the Figma client. *)
Definition recorded_as (d : DownloadEntry)
    (c : string * outcome DownloadResponse) : Prop :=
  dl_url d = fst c /\
  match snd c with
  | Returned r =>
      dl_success d = true /\ dl_files d = Some (files r) /\
      dl_output_path d = outputPath r /\ dl_error d = None
  | Thrown m =>
      dl_success d = false /\ dl_files d = None /\
      dl_output_path d = None /\ dl_error d = Some m
  end.

(** The upload entry recorded for a call to the Dropbox client that
    returned, and the sync entry recorded for a call to Notion or Obsidian. *)
Definition uploaded_as (u : UploadEntry)
    (c : list DownloadEntry * outcome UploadResponse) : Prop :=
  exists d r,
    c = ([d], Returned r) /\
    up_source u = dl_output_path d /\ up_success u = ur_success r /\
    up_remoteFolder u = ur_remoteFolder r /\ up_error u = ur_error r.

Definition synced_as (kind : string) (e : SyncEntry)
    (o : outcome SyncResponse) : Prop :=
  sync_type e = kind /\
  match o with
  | Returned r =>
      sync_success e = sr_success r /\ sync_error e = None /\
      is_Some (sync_details e)
  | Thrown m =>
      sync_success e = false /\ sync_error e = Some m /\
      sync_details e = None
  end.

(** [syncs.push] of each entry in turn. *)
Definition push_syncs (es : list SyncEntry) (r : Results) : Results :=
  foldl (fun r e => push_sync e r) r es.

(** The entry [uploadToDropbox] answers with when a call threw. *)
Definition upload_failure (m : string) (t : Z) : UploadEntry :=
  mkUploadEntry None false None t (Some m).

(** ** Properties of computations *)

(** [c] leaves the observation [f] of the state unchanged. *)
Definition preserves {X A} (f : System -> X) (c : M A) : Prop :=
  forall s, f (fst (c s)) = f s.

(** The fields of [this] that only [initialize] assigns. *)
Definition wiring (s : System) : option Config * bool * bool * Services :=
  (config s, logger s, notificationService s, services s).

(** Names of the probed capabilities that answered [valid = false], and
    whether some probe threw. *)
Definition failed_probes (calls : list (string * outcome Validation))
    : list string :=
  omap (fun c =>
          match snd c with
          | Returned v => if valid v then None else Some (fst c)
          | Thrown _ => None
          end) calls.

Definition probe_threw (calls : list (string * outcome Validation)) : bool :=
  existsb (fun c => negb (returned (snd c))) calls.

Definition gate_message : string := "服務驗證失敗，無法繼續執行備份".


(** The collaborator an event was exchanged with. *)
Inductive Origin :=
| Clock | Loader | Constructors | Probes | Source
| Storage | Database | Vault | FileSystem | Notices.

Definition origin (e : Event) : Origin :=
  match e with
  | EvNow _ => Clock
  | EvLoadConfig _ => Loader
  | EvNewService _ _ => Constructors
  | EvValidate _ _ => Probes
  | EvDownload _ _ _ => Source
  | EvDropboxSync _ _ => Storage
  | EvNotionSync _ _ => Database
  | EvObsidianSync _ _ => Vault
  | EvEnsureDir _ _ | EvWriteJson _ _ _ => FileSystem
  | EvNotifyStart _ | EvNotifyComplete _ | EvNotifyError _ => Notices
  end.

(** [c] only appends to the trace, and only events exchanged with the
    collaborators selected by [allowed]. *)
Definition emits {A} (allowed : Origin -> bool) (c : M A) : Prop :=
  forall s, exists new,
    trace (fst (c s)) = trace s ++ new /\
    Forall (fun e => allowed (origin e) = true) new.

Definition during_download (o : Origin) : bool :=
  match o with Source | Clock => true | _ => false end.
Definition during_upload (o : Origin) : bool :=
  match o with Storage | Clock => true | _ => false end.
Definition during_sync (o : Origin) : bool :=
  match o with Storage | Database | Vault | Clock => true | _ => false end.
Definition during_aggregation (o : Origin) : bool :=
  match o with Clock => true | _ => false end.

(** ** Concrete environments *)

Module Scenarios.

(** An environment whose collaborators answer from their arguments only;
    the clock reads the number of calls made so far. *)
Definition world (cfg : outcome Config)
    (probes : string -> outcome Validation)
    (download : string -> outcome DownloadResponse)
    (to_dropbox : list DownloadEntry -> outcome UploadResponse)
    (to_notion to_obsidian : outcome SyncResponse)
    (write : outcome unit) : Env :=
  {| uuidv4 := "3f2b8c1e-0d4a-4f6e-9b7a-5c1d2e3f4a5b";
     clock := fun tr => Z.of_nat (length tr);
     humanize := fun _ => "a few seconds";
     format_timestamp := fun t => pretty t;
     system_info := mkSystemInfo "v18.17.0" "linux" "x64";
     loadConfig := fun _ => cfg;
     new_service := fun _ _ => Returned tt;
     probe := fun _ => probes;
     downloadFromUrl := fun _ url _ => download url;
     dropbox_syncBackupResults := fun _ => to_dropbox;
     notion_syncBackupResults := fun _ _ => to_notion;
     obsidian_syncBackupResults := fun _ _ => to_obsidian;
     ensureDir := fun _ _ => Returned tt;
     writeJson := fun _ _ _ => write |}.

Definition config_of (tgts : list string) (db nt ob : bool) : Config :=
  {| backup_targets := tgts;
     backup_output_dir := Some "./figma-backups";
     backup_outputDir := Some "./figma-backups";
     backup_create_timestamp_folder := Some true;
     backup_createTimestampFolder := Some true;
     dropbox_enabled := db;
     notion_enabled := nt;
     obsidian_enabled := ob |}.

Definition all_ready (name : string) : outcome Validation :=
  Returned (mkValidation true).

(** Target ["A"] downloads three files, every other target is not found. *)
Definition only_A (url : string) : outcome DownloadResponse :=
  if String.eqb url "A" then
    Returned (mkDownloadResponse ["a1.fig"; "a2.fig"; "a3.fig"] (Some "./figma-backups/A"))
  else Thrown "not found".

Definition dropbox_ok (batch : list DownloadEntry) : outcome UploadResponse :=
  Returned (mkUploadResponse true (Some "/figma-backups") None).

Definition sync_ok : outcome SyncResponse :=
  Returned (mkSyncResponse true (Some ["page-1"])).

Definition sync_fails : outcome SyncResponse := Thrown "database unreachable".

(** Every target downloads one file; target ["B"] comes without an output
    location. *)
Definition all_found (url : string) : outcome DownloadResponse :=
  Returned
    (mkDownloadResponse [url +:+ ".fig"]
       (if String.eqb url "B" then None else Some ("./figma-backups/" +:+ url))).

(** Dropbox refuses the download of target ["B"]. *)
Definition dropbox_refuses_B (batch : list DownloadEntry)
    : outcome UploadResponse :=
  if existsb (fun d => String.eqb (dl_url d) "B") batch then Thrown "quota exceeded"
  else Returned (mkUploadResponse true (Some "/figma-backups") None).

(** Every target downloads one file to its own folder. *)
Definition all_stored (url : string) : outcome DownloadResponse :=
  Returned (mkDownloadResponse [url +:+ ".fig"] (Some ("./figma-backups/" +:+ url))).

(** Targets A and B, A downloads and B does not; Dropbox and Notion
    succeed, Obsidian throws. *)
Definition partial_run : Env :=
  world (Returned (config_of ["A"; "B"] true true true)) all_ready only_A
        dropbox_ok sync_ok sync_fails (Returned tt).


(** Dropbox is enabled and its probe answers [valid = false]. *)
Definition dropbox_not_ready : Env :=
  world (Returned (config_of ["A"; "B"] true true false))
        (fun name => Returned (mkValidation (negb (String.eqb name "Dropbox"))))
        only_A dropbox_ok sync_ok sync_ok (Returned tt).

(** No target downloads; Dropbox and Notion are enabled. *)
Definition nothing_downloaded : Env :=
  world (Returned (config_of ["B"; "C"] true true false)) all_ready only_A
        dropbox_ok sync_ok sync_ok (Returned tt).

(** Three targets download; the upload of the second one throws. *)
Definition upload_interrupted : Env :=
  world (Returned (config_of ["A"; "B"; "C"] true false false)) all_ready
        all_stored dropbox_refuses_B sync_ok sync_ok (Returned tt).

(** Three targets download, the second one without an output location. *)
Definition output_path_missing : Env :=
  world (Returned (config_of ["A"; "B"; "C"] true false false)) all_ready
        all_found dropbox_ok sync_ok sync_ok (Returned tt).

(** A system that has been initialized for [cfg], with its downloads
    recorded. *)
Definition initialized (W : Env) (cfg : Config) (ds : list DownloadEntry)
    : System :=
  with_results (set_downloads ds)
    (with_results (set_targets (backup_targets cfg))
       (with_services (fun _ => mkServices true (dropbox_enabled cfg)
                                  (notion_enabled cfg) (obsidian_enabled cfg))
          (with_notificationService true
             (with_logger true
                (with_config (Some cfg) (new_FigmaBackupSystem W)))))).

Definition entry_ok (url : string) (path : option string) : DownloadEntry :=
  mkDownloadEntry url true (Some [url +:+ ".fig"]) path None 0.

Definition entry_failed (url : string) : DownloadEntry :=
  mkDownloadEntry url false None None (Some "not found") 0.

(** The events a computation added to the trace of [s]. *)
Definition added {A} (c : M A) (s : System) : list Event :=
  drop (length (trace s)) (trace (fst (c s))).

Definition three_stored : list DownloadEntry :=
  [entry_ok "A" (Some "./figma-backups/A");
   entry_ok "B" (Some "./figma-backups/B");
   entry_ok "C" (Some "./figma-backups/C")].

Definition three_found : list DownloadEntry :=
  [entry_ok "A" (Some "./figma-backups/A");
   entry_ok "B" None;
   entry_ok "C" (Some "./figma-backups/C")].

Definition one_of_two : list DownloadEntry :=
  [entry_ok "A" (Some "./figma-backups/A"); entry_failed "B"].

End Scenarios.

(** Further environments. *)
Module Cases.

Import Scenarios.

(** The configuration cannot be loaded. *)
Definition config_unreadable : Env :=
  world (Thrown "載入配置檔案失敗: Unexpected end of JSON input") all_ready
        only_A dropbox_ok sync_ok sync_ok (Returned tt).



(** The probe of Notion throws; the one of Dropbox, made before it,
    answers [valid = false]. *)
Definition notion_unreachable : Env :=
  world (Returned (config_of ["A"; "B"] true true true))
        (fun name =>
           if String.eqb name "Notion" then Thrown "socket hang up"
           else Returned (mkValidation (negb (String.eqb name "Dropbox"))))
        only_A dropbox_ok sync_ok sync_ok (Returned tt).

(** Only Notion is enabled. *)
Definition notion_only : Env :=
  world (Returned (config_of ["A"; "B"] false true false)) all_ready only_A
        dropbox_ok sync_ok sync_ok (Returned tt).

Definition all_enabled : Config := config_of ["A"; "B"] true true true.

(** A system whose services were constructed for [cfg], before any
    download. *)
Definition constructed (W : Env) (cfg : Config) : System :=
  with_services (fun _ => mkServices true (dropbox_enabled cfg)
                            (notion_enabled cfg) (obsidian_enabled cfg))
    (with_notificationService true
       (with_logger true (with_config (Some cfg) (new_FigmaBackupSystem W)))).


(** The state after the sync stage of [partial_run]. *)
Definition synced : System :=
  fst (sync_stage partial_run (initialized partial_run all_enabled one_of_two)).

End Cases.

(** * The rest of the orchestrator: further readings of the trace *)

(** The probes [validateServices] makes when none of them throws. *)
Definition expected_probes (sv : Services) : list string :=
  "Figma" ::
  (if dropbox sv then ["Dropbox"] else []) ++
  (if notion sv then ["Notion"] else []) ++
  (if obsidian sv then ["Obsidian"] else []).

(** The constructors [initializeServices] calls when none of them throws. *)
Definition expected_constructors (cfg : Config) : list string :=
  "FigmaApiWrapper" ::
  (if dropbox_enabled cfg then ["DropboxSync"] else []) ++
  (if notion_enabled cfg then ["NotionUpdater"] else []) ++
  (if obsidian_enabled cfg then ["ObsidianSync"] else []).

(** The message of the first call that threw. *)
Fixpoint first_thrown {A B} (calls : list (A * outcome B)) : option string :=
  match calls with
  | [] => None
  | (_, Thrown m) :: _ => Some m
  | (_, Returned _) :: rest => first_thrown rest
  end.

(** The entries [validations.push] makes for the probes that returned. *)
Definition validations_of (calls : list (string * outcome Validation))
    : list ValidationEntry :=
  omap (fun c =>
          match snd c with
          | Returned v => Some (mkValidationEntry (fst c) (valid v))
          | Thrown _ => None
          end) calls.

Definition constructor_calls (tr : list Event) : list (string * outcome unit) :=
  omap (fun e => match e with EvNewService n o => Some (n, o) | _ => None end) tr.

Definition load_calls (tr : list Event) : list (outcome Config) :=
  omap (fun e => match e with EvLoadConfig o => Some o | _ => None end) tr.

(** The calls made to the notification service. *)
Definition notices (tr : list Event) : list Event :=
  List.filter (fun e => match origin e with Notices => true | _ => false end) tr.

(** [main]: the exit code handed to [process.exit]. *)
Definition main (W : Env) : System * nat :=
  match execute W with
  | (s, Returned _) => (s, 0)
  | (s, Thrown _) => (s, 1)
  end.

(** The collaborators of [saveExecutionReport], and those of the blocks of
    [run] that follow the validation gate. *)
Definition during_persist (o : Origin) : bool :=
  match o with FileSystem | Clock => true | _ => false end.

Definition during_work (o : Origin) : bool :=
  match o with
  | Source | Storage | Database | Vault | FileSystem | Clock => true
  | _ => false
  end.

(** The three destinations, with the configuration flag, the constructor
    and the readiness probe of each. *)
Inductive Destination := Dropbox | Notion | Obsidian.

Definition destination_enabled (cfg : Config) (d : Destination) : bool :=
  match d with
  | Dropbox => dropbox_enabled cfg
  | Notion => notion_enabled cfg
  | Obsidian => obsidian_enabled cfg
  end.

Definition constructor_of (d : Destination) : string :=
  match d with
  | Dropbox => "DropboxSync"
  | Notion => "NotionUpdater"
  | Obsidian => "ObsidianSync"
  end.

Definition probe_of (d : Destination) : string :=
  match d with
  | Dropbox => "Dropbox"
  | Notion => "Notion"
  | Obsidian => "Obsidian"
  end.

Definition service_of (sv : Services) (d : Destination) : bool :=
  match d with
  | Dropbox => dropbox sv
  | Notion => notion sv
  | Obsidian => obsidian sv
  end.

(** The event is a call to the constructor, to the probe or to the client
    of destination [d]. *)
Definition touches (d : Destination) (e : Event) : bool :=
  match e with
  | EvNewService n _ => String.eqb n (constructor_of d)
  | EvValidate n _ => String.eqb n (probe_of d)
  | EvDropboxSync _ _ => match d with Dropbox => true | _ => false end
  | EvNotionSync _ _ => match d with Notion => true | _ => false end
  | EvObsidianSync _ _ => match d with Obsidian => true | _ => false end
  | _ => false
  end.

(** The entries of the run context that report on destination [d]. *)
Definition entries_of (d : Destination) (r : Results) : nat :=
  match d with
  | Dropbox => length (uploads r)
  | Notion =>
      length (List.filter (fun e => String.eqb (sync_type e) "notion") (syncs r))
  | Obsidian =>
      length (List.filter (fun e => String.eqb (sync_type e) "obsidian") (syncs r))
  end.

(** The four lists of the run context, and the calls to the Figma client,
    to the destinations and to the file system. *)
Definition lists_of (r : Results)
    : list string * list DownloadEntry * list UploadEntry * list SyncEntry :=
  (targets r, downloads r, uploads r, syncs r).

Definition work_calls (tr : list Event) : list Event :=
  List.filter
    (fun e =>
       match origin e with
       | Source | Storage | Database | Vault | FileSystem => true
       | _ => false
       end) tr.

(** The status [generateSummary] writes for a sync entry, and the files a
    call to the Figma client delivered. *)
Definition status_of (e : SyncEntry) : ServiceStatus :=
  SyncStatus (sync_success e) (sync_details e) (sync_error e).


(** The position of a call in the order of the statements of [run]; the
    clock is read throughout. *)
Definition stage (e : Event) : option nat :=
  match e with
  | EvNow _ => None
  | EvLoadConfig _ => Some 0
  | EvNewService _ _ => Some 1
  | EvNotifyStart _ => Some 2
  | EvValidate _ _ => Some 3
  | EvDownload _ _ _ => Some 4
  | EvDropboxSync _ _ => Some 5
  | EvNotionSync _ _ => Some 6
  | EvObsidianSync _ _ => Some 7
  | EvEnsureDir _ _ | EvWriteJson _ _ _ => Some 8
  | EvNotifyComplete _ | EvNotifyError _ => Some 9
  end.

Fixpoint in_order (l : list nat) : bool :=
  match l with
  | a :: (b :: _) as rest => Nat.leb a b && in_order rest
  | _ => true
  end.

(** [l] is in order, between [lo] and [hi]. *)
Definition ordered (lo hi : nat) (l : list nat) : Prop :=
  in_order l = true /\ Forall (fun x => lo <= x <= hi) l.

(** The notification that closes a run. *)
Definition closing_notice (ready : bool) (o : outcome Results) : list Event :=
  match o with
  | Returned r => [EvNotifyComplete (downloads r)]
  | Thrown m => if ready then [EvNotifyError m] else []
  end.

(** Calls made in the order of [expected], none after one that threw. *)
Definition stops_at_first_throw {B} (expected : list string)
    (calls : list (string * outcome B)) : Prop :=
  map fst calls = take (length calls) expected /\
  match first_thrown calls with
  | Some m =>
      (exists n, last calls = Some (n, Thrown m)) /\
      first_thrown (take (length calls - 1) calls) = None
  | None => map fst calls = expected
  end.

(** * The notification service ([NotificationService]) *)

(** ** Options objects

    What a caller gave for a switch of an options object: no such key,
    [false], another falsy value ([null], [undefined], [0], the empty
    string), or a truthy value. *)
Inductive Given := Missing | GivenFalse | OtherFalsy | GivenTruthy.

(** [options.x !== false] *)
Definition not_false (g : Given) : bool :=
  match g with GivenFalse => false | _ => true end.

(** [{ x: computed, ...options }]: the spread copies the caller's own
    value over the computed one whenever the key is there.  The switches
    are only ever tested, so [this.options] keeps their truthiness. *)
Definition spread (computed : bool) (g : Given) : bool :=
  match g with
  | Missing => computed
  | GivenTruthy => true
  | GivenFalse | OtherFalsy => false
  end.

(** The same for an option holding a string, with the default of
    [options.x || fallback]. *)
Definition spread_string (fallback : string) (g : option string) : string :=
  let computed := if truthy g then default "" g else fallback in
  match g with
  | Some given => given
  | None => computed
  end.

(** The switch was left out or given a truthy value. *)
Definition on (g : Given) : bool :=
  match g with Missing | GivenTruthy => true | _ => false end.

(** Reading a property of [undefined]. *)
Definition undefined_deref (prop : string) : string :=
  "Cannot read properties of undefined (reading '" +:+ prop +:+ "')".

Module NotificationService.

Record GivenOptions := mkGivenOptions {
  given_enabled : Given;
  given_sound : Given;
  given_onStart : Given;
  given_onComplete : Given;
  given_onError : Given;
  given_appName : option string
}.

Record Options := mkOptions {
  enabled : bool;
  sound : bool;
  onStart : bool;
  onComplete : bool;
  onError : bool;
  appName : string
}.

(** [constructor] *)
Definition new_NotificationService (options : GivenOptions) : Options :=
  {| enabled := spread (not_false (given_enabled options)) (given_enabled options);
     sound := spread (not_false (given_sound options)) (given_sound options);
     onStart := spread (not_false (given_onStart options)) (given_onStart options);
     onComplete :=
       spread (not_false (given_onComplete options)) (given_onComplete options);
     onError := spread (not_false (given_onError options)) (given_onError options);
     appName := spread_string "Figma Backup" (given_appName options) |}.

(** The types of notification the methods of the service pass to
    [notify], with [this.sounds] and the icons of [getIcon]. *)
Inductive Kind := Success | Error | Warning | Info.

Definition sounds (type : Kind) : string :=
  match type with
  | Success => "Glass"
  | Error => "Sosumi"
  | Warning => "Funk"
  | Info => "Blow"
  end.

Definition getIcon (type : Kind) : string :=
  match type with
  | Success => "✅"
  | Error => "❌"
  | Warning => "⚠️"
  | Info => "ℹ️"
  end.

(** [notificationOptions]; [sound] is [None] for [false]. *)
Record Notification := mkNotification {
  n_title : string;
  n_message : string;
  n_icon : string;
  n_sound : option string;
  n_timeout : nat;
  n_appName : string
}.

(** What the service does to its host, oldest first. *)
Inductive Effect :=
| Exec (command : string) (o : outcome unit)
| Notifier (n : Notification) (o : outcome unit)
| ConsoleLog (line : string)
| ConsoleError (message : string).

(** The host: [process.platform], [execSync] and [notifier.notify]. *)
Record Host := mkHost {
  platform : string;
  execSync : list Effect -> string -> outcome unit;
  notifier_notify : list Effect -> Notification -> outcome unit
}.

Definition quote : string := String (Ascii.ascii_of_nat 34) "".
Definition newline : string := String (Ascii.ascii_of_nat 10) "".

Section Service.

Variable H : Host.

(** The AppleScript of [sendMacNotification]. *)
Definition script (options : Notification) : string :=
  newline +:+ "        display notification " +:+ quote +:+ n_message options
    +:+ quote +:+ " ¬" +:+
  newline +:+ "        with title " +:+ quote +:+ n_title options
    +:+ quote +:+ " ¬" +:+
  newline +:+ "        " +:+
    match n_sound options with
    | Some name => "sound name " +:+ quote +:+ name +:+ quote
    | None => ""
    end +:+
  newline +:+ "      ".

(** [sendMacNotification] *)
Definition sendMacNotification (options : Notification) (tr : list Effect)
    : list Effect * outcome unit :=
  let command := "osascript -e '" +:+ script options +:+ "'" in
  match execSync H tr command with
  | Returned _ => (tr ++ [Exec command (Returned tt)], Returned tt)
  | Thrown m =>
      let tr := tr ++ [Exec command (Thrown m)] in
      let o := notifier_notify H tr options in
      (tr ++ [Notifier options o], o)
  end.

(** [logNotification]; the colour is left out of the line. *)
Definition logNotification (title message : string) (type : Kind)
    (tr : list Effect) : list Effect :=
  tr ++ [ConsoleLog (getIcon type +:+ " " +:+ title +:+ ": " +:+ message)].

(** [notify]; [timeout] is the only option its callers pass. *)
Definition notify (this : Options) (title message : string) (type : Kind)
    (timeout : option nat) (tr : list Effect) : list Effect * outcome unit :=
  if negb (enabled this) then (tr, Returned tt)
  else
    let notificationOptions :=
      {| n_title := title;
         n_message := message;
         n_icon := getIcon type;
         n_sound := if sound this then Some (sounds type) else None;
         n_timeout :=
           (let computed :=
              match timeout with
              | Some t => if Nat.eqb t 0 then 5000 else t
              | None => 5000
              end in
            match timeout with
            | Some t => t
            | None => computed
            end);
         n_appName := appName this |} in
    let sent :=
      if String.eqb (platform H) "darwin" then
        sendMacNotification notificationOptions tr
      else
        let o := notifier_notify H tr notificationOptions in
        (tr ++ [Notifier notificationOptions o], o) in
    match sent with
    | (tr, Returned _) => (logNotification title message type tr, Returned tt)
    | (tr, Thrown m) => (tr ++ [ConsoleError m], Returned tt)
    end.

(** [notifyBackupStart]; [targets] is [None] when it is not an array. *)
Definition notifyBackupStart (this : Options) (targets : option (list string))
    (tr : list Effect) : list Effect * outcome unit :=
  if negb (onStart this) then (tr, Returned tt)
  else
    let targetCount :=
      match targets with
      | Some l => length l
      | None => 1
      end in
    notify this "🚀 Figma 備份開始"
      ("開始備份 " +:+ pretty targetCount +:+ " 個目標") Info None tr.

(** [notifyBackupComplete], on the download entries [run] passes. *)
Definition notifyBackupComplete (this : Options) (results : list DownloadEntry)
    (tr : list Effect) : list Effect * outcome unit :=
  if negb (onComplete this) then (tr, Returned tt)
  else
    let successCount := length (List.filter dl_success results) in
    let totalCount := length results in
    if Nat.eqb successCount totalCount then
      notify this "🎉 備份完成"
        ("成功備份 " +:+ pretty successCount +:+ " 個目標") Success None tr
    else
      notify this "⚠️ 備份部分完成"
        ("成功 " +:+ pretty successCount +:+ "/" +:+ pretty totalCount +:+ " 個目標")
        Warning None tr.

(** [notifyBackupError], on the message of the error. *)
Definition notifyBackupError (this : Options) (error_message context : string)
    (tr : list Effect) : list Effect * outcome unit :=
  if negb (onError this) then (tr, Returned tt)
  else
    notify this "❌ 備份失敗"
      ((if truthy (Some context) then context +:+ ": " else "") +:+ error_message)
      Error None tr.

End Service.

(** The calls to [execSync] and to [notifier.notify], and the kind of the
    notification a console line reports. *)
Definition execs (tr : list Effect) : list (string * outcome unit) :=
  omap (fun e => match e with Exec c o => Some (c, o) | _ => None end) tr.

Definition notifier_calls (tr : list Effect) : list (Notification * outcome unit) :=
  omap (fun e => match e with Notifier n o => Some (n, o) | _ => None end) tr.

(** A Linux host on which delivery fails, and a macOS host without
    [osascript]. *)
Definition linux_broken : Host :=
  {| platform := "linux";
     execSync := fun _ _ => Returned tt;
     notifier_notify := fun _ _ => Thrown "notify-send must be installed" |}.

Definition mac_without_osascript : Host :=
  {| platform := "darwin";
     execSync := fun _ _ => Thrown "Command failed: osascript";
     notifier_notify := fun _ _ => Returned tt |}.

Definition defaults : GivenOptions :=
  mkGivenOptions Missing GivenTruthy GivenTruthy GivenTruthy GivenTruthy None.

End NotificationService.

(** * The configuration manager ([ConfigManager]) *)

Module ConfigManager.

(** ** Loading and updating

    [loadConfig], [createDefaultConfig] and [updateConfig] are embedded over
    any type of configuration values: [mergeConfigs] and [validateConfig]
    are the two pure methods they call, each answering with a value or a
    thrown [TypeError]; a configuration that may be [null] is an [option].
    The file system answers from the calls made so far. *)

Inductive FsEvent {Config Update : Type} :=
| PathExists (answer : bool)
| ReadJson (o : outcome Update)
| WriteJson (written : option Config) (o : outcome unit).
Arguments FsEvent : clear implicits.

Record Fs {Config Update : Type} := mkFs {
  pathExists : list (FsEvent Config Update) -> bool;
  readJson : list (FsEvent Config Update) -> outcome Update;
  writeJson : list (FsEvent Config Update) -> option Config -> outcome unit
}.
Arguments Fs : clear implicits.

(** [this.config] and the calls made to the file system. *)
Record Manager {Config Update : Type} := mkManager {
  config : option Config;
  fs_trace : list (FsEvent Config Update)
}.
Arguments Manager : clear implicits.
Arguments mkManager {Config Update}.

Section Manager.

Context {Config Update : Type}.

(** [this.defaultConfig], the two pure methods, and [fs]. *)
Variable defaultConfig : Config.
Variable mergeConfigs : option Config -> Update -> outcome (option Config).
Variable validateConfig : option Config -> outcome (list string).
Variable fs : Fs Config Update.

Definition record (e : FsEvent Config Update) (s : Manager Config Update)
    : Manager Config Update :=
  mkManager (config s) (fs_trace s ++ [e]).

Definition set_config (c : option Config) (s : Manager Config Update)
    : Manager Config Update :=
  mkManager c (fs_trace s).

(** [createDefaultConfig] *)
Definition createDefaultConfig (s : Manager Config Update)
    : Manager Config Update * outcome unit :=
  let o := writeJson fs (fs_trace s) (Some defaultConfig) in
  let s := record (WriteJson (Some defaultConfig) o) s in
  match o with
  | Returned _ => (s, Returned tt)
  | Thrown m => (s, Thrown ("建立預設配置檔案失敗: " +:+ m))
  end.

(** The [try] block of [loadConfig] ... *)
Definition loadConfig_body (s : Manager Config Update)
    : Manager Config Update * outcome (option Config) :=
  let found := pathExists fs (fs_trace s) in
  let s := record (PathExists found) s in
  if negb found then
    match createDefaultConfig s with
    | (s, Returned _) => (s, Returned (Some defaultConfig))
    | (s, Thrown m) => (s, Thrown m)
    end
  else
    let read := readJson fs (fs_trace s) in
    let s := record (ReadJson read) s in
    match read with
    | Thrown m => (s, Thrown m)
    | Returned configData =>
        match mergeConfigs (Some defaultConfig) configData with
        | Thrown m => (s, Thrown m)
        | Returned merged =>
            let s := set_config merged s in
            match validateConfig (config s) with
            | Thrown m => (s, Thrown m)
            | Returned [] => (s, Returned (config s))
            | Returned errors =>
                (s, Thrown ("配置驗證失敗: " +:+ String.concat ", " errors))
            end
        end
    end.

(** ... and [loadConfig] with its [catch]. *)
Definition loadConfig (s : Manager Config Update)
    : Manager Config Update * outcome (option Config) :=
  match loadConfig_body s with
  | (s, Returned c) => (s, Returned c)
  | (s, Thrown m) => (s, Thrown ("載入配置檔案失敗: " +:+ m))
  end.

(** [updateConfig], in the same two parts. *)
Definition updateConfig_body (updates : Update) (s : Manager Config Update)
    : Manager Config Update * outcome (option Config) :=
  let loaded :=
    match config s with
    | Some _ => (s, Returned tt)
    | None =>
        match loadConfig s with
        | (s, Returned _) => (s, Returned tt)
        | (s, Thrown m) => (s, Thrown m)
        end
    end in
  match loaded with
  | (s, Thrown m) => (s, Thrown m)
  | (s, Returned _) =>
      match mergeConfigs (config s) updates with
      | Thrown m => (s, Thrown m)
      | Returned merged =>
          let s := set_config merged s in
          match validateConfig (config s) with
          | Thrown m => (s, Thrown m)
          | Returned [] =>
              let o := writeJson fs (fs_trace s) (config s) in
              let s := record (WriteJson (config s) o) s in
              match o with
              | Returned _ => (s, Returned (config s))
              | Thrown m => (s, Thrown m)
              end
          | Returned errors =>
              (s, Thrown ("配置驗證失敗: " +:+ String.concat ", " errors))
          end
      end
  end.

Definition updateConfig (updates : Update) (s : Manager Config Update)
    : Manager Config Update * outcome (option Config) :=
  match updateConfig_body updates s with
  | (s, Returned c) => (s, Returned c)
  | (s, Thrown m) => (s, Thrown ("更新配置失敗: " +:+ m))
  end.

(** The configurations handed to [fs.writeJson]. *)
Definition write_attempts (tr : list (FsEvent Config Update))
    : list (option Config) :=
  omap (fun e => match e with WriteJson c _ => Some c | _ => None end) tr.

End Manager.

(** ** Validation

    [validateConfig] and [getDefaultConfig], on configurations whose
    values have the types of the default configuration: strings, booleans,
    integers and a list of targets.  A property that [validateConfig]
    tests may also be missing or [null]: it is an [option]. *)

Record Figma := mkFigma {
  figma_token : option string;
  figma_email : string;
  figma_password : string
}.

Record Backup := mkBackup {
  mode : string;
  targets : option (list string);
  outputDir : option string;
  createTimestampFolder : bool;
  autoOpenFolder : bool;
  output_dir : option string;
  create_timestamp_folder : bool
}.

Record Dropbox := mkDropbox {
  dropbox_token : string;
  app_folder : string;
  dropbox_on : bool
}.

Record Notion := mkNotion {
  notion_token : string;
  database_id : string;
  notion_on : bool
}.

Record Obsidian := mkObsidian {
  vault_path : string;
  obsidian_on : bool
}.

Record Advanced := mkAdvanced {
  concurrency : option Z;
  retryAttempts : Z;
  timeout : option Z;
  validateBackup : bool;
  logLevel : string
}.

Record Notifications := mkNotifications {
  onStart : bool;
  onComplete : bool;
  onError : bool;
  sound : bool
}.

Record Configuration := mkConfiguration {
  figma : Figma;
  backup : Backup;
  dropbox : Dropbox;
  notion : Notion;
  obsidian : Obsidian;
  advanced : option Advanced;
  notifications : Notifications
}.

(** [getDefaultConfig] *)
Definition getDefaultConfig : Configuration :=
  {| figma := {| figma_token := Some ""; figma_email := ""; figma_password := "" |};
     backup :=
       {| mode := "project";
          targets := Some [];
          outputDir := Some "./figma-backups";
          createTimestampFolder := true;
          autoOpenFolder := true;
          output_dir := Some "./figma-backups";
          create_timestamp_folder := true |};
     dropbox :=
       {| dropbox_token := ""; app_folder := "/figma-backups"; dropbox_on := false |};
     notion := {| notion_token := ""; database_id := ""; notion_on := false |};
     obsidian := {| vault_path := ""; obsidian_on := false |};
     advanced :=
       Some {| concurrency := Some 3%Z;
               retryAttempts := 3%Z;
               timeout := Some 30000%Z;
               validateBackup := true;
               logLevel := "info" |};
     notifications :=
       {| onStart := true; onComplete := true; onError := true; sound := true |} |}.

(** The truthiness of an integer property that may be missing. *)
Definition truthy_number (v : option Z) : bool :=
  match v with
  | Some z => negb (Z.eqb z 0)
  | None => false
  end.

(** [validateConfig]: the [errors] array. *)
Definition validateConfig (config : Configuration) : list string :=
  let errors := [] in
  let errors :=
    if negb (truthy (figma_token (figma config)))
    then errors ++ ["Figma token 為必填項目"] else errors in
  let errors :=
    if match targets (backup config) with
       | None => true
       | Some l => Nat.eqb (length l) 0
       end
    then errors ++ ["至少需要一個備份目標"] else errors in
  let errors :=
    if negb (truthy (outputDir (backup config))) &&
       negb (truthy (output_dir (backup config)))
    then errors ++ ["輸出目錄為必填項目"] else errors in
  let errors :=
    match advanced config with
    | Some a =>
        if truthy_number (concurrency a) then
          match concurrency a with
          | Some z =>
              if Z.ltb z 1 || Z.ltb 10 z
              then errors ++ ["並發數量必須在 1-10 之間"] else errors
          | None => errors
          end
        else errors
    | None => errors
    end in
  let errors :=
    match advanced config with
    | Some a =>
        if truthy_number (timeout a) then
          match timeout a with
          | Some z =>
              if Z.ltb z 5000 then errors ++ ["超時時間不能少於 5 秒"] else errors
          | None => errors
          end
        else errors
    | None => errors
    end in
  errors.

(** [validateConfig] as the manager calls it: on [null] the first
    property access throws. *)
Definition validate (config : option Configuration) : outcome (list string) :=
  match config with
  | Some c => Returned (validateConfig c)
  | None => Thrown (null_deref "figma")
  end.

(** A fresh manager, a disk without configuration file, and a file that
    sets a token. *)
Definition fresh {Update} : Manager Configuration Update := mkManager None [].

Definition empty_disk {Update} : Fs Configuration Update :=
  {| pathExists := fun _ => false;
     readJson := fun _ => Thrown "ENOENT: no such file or directory";
     writeJson := fun _ _ => Returned tt |}.

Definition with_token (token : string) (c : Configuration) : Configuration :=
  mkConfiguration
    (mkFigma (Some token) (figma_email (figma c)) (figma_password (figma c)))
    (backup c) (dropbox c) (notion c) (obsidian c) (advanced c) (notifications c).

(** A merge that sets the token the file gives. *)
Definition merge_token (base : option Configuration) (token : string)
    : outcome (option Configuration) :=
  Returned (with_token token <$> base).

Definition disk_with (token : string) : Fs Configuration string :=
  {| pathExists := fun _ => true;
     readJson := fun _ => Returned token;
     writeJson := fun _ _ => Returned tt |}.

(** ** Merging

    [mergeConfigs] on a loaded configuration and an object read from a
    file, both made of JSON values. The loop looks one level deep: it
    tells a top-level value of the user's object that is a plain object or
    [null] ([typeof] answers ['object'] for both) from an array, a string,
    a number or a boolean, and never looks inside the values of a
    section, which stay of an open type [V]: JSON values, two of them equal
    when [JSON.stringify] writes them the same, so that
    [JSON.parse(JSON.stringify(_))] copies a configuration as it is. The
    key ["__proto__"] of a user's object is left out: assigning it changes
    the prototype of the merged object instead of adding a property. *)

Section Merging.

Context {V : Type}.

(** What an object spread takes from a value that is no plain object: the
    elements of an array and the characters of a string under their
    indices, nothing from a number or a boolean. *)
Variable own_properties : V -> gmap string V.

(** A top-level value of the user's object, as the loop tells them apart. *)
Inductive UserValue :=
| UObject (props : gmap string V)
| UNull
| UOther (v : V).

(** A top-level value of a configuration. *)
Inductive SectionValue :=
| SObject (props : gmap string V)
| SOther (v : V).

(** [{ ...merged[key] }], where [merged[key]] may be [undefined]. *)
Definition properties (section : option SectionValue) : gmap string V :=
  match section with
  | Some (SObject props) => props
  | Some (SOther v) => own_properties v
  | None => ∅
  end.

(** The body of the loop; in [{ ...a, ...b }] the properties of [b] win. *)
Definition assign (key : string) (value : UserValue)
    (merged : gmap string SectionValue) : gmap string SectionValue :=
  match value with
  | UObject props =>
      <[key := SObject (props ∪ properties (merged !! key))]> merged
  | UNull => <[key := SObject (properties (merged !! key))]> merged
  | UOther v => <[key := SOther v]> merged
  end.

Definition mergeConfigs (defaultConfig : gmap string SectionValue)
    (userConfig : gmap string UserValue) : gmap string SectionValue :=
  map_fold assign defaultConfig userConfig.

(** What the loop leaves under one key: the section of the configuration
    and the value the user's object has there, if any. *)
Definition merged_value (section : option SectionValue)
    (value : option UserValue) : option SectionValue :=
  match value with
  | None => section
  | Some (UObject props) => Some (SObject (props ∪ properties section))
  | Some UNull => Some (SObject (properties section))
  | Some (UOther v) => Some (SOther v)
  end.

End Merging.

Arguments UserValue : clear implicits.
Arguments SectionValue : clear implicits.

(** A configuration with one section, and a file that sets its token and
    one more key. *)
Definition one_section : gmap string (SectionValue string) :=
  {[ "figma" := SObject {[ "token" := ""; "email" := "" ]} ]}.

Definition file_object : gmap string (UserValue string) :=
  {[ "figma" := UObject {[ "token" := "figd_4xK" ]};
     "backup" := UNull ]}.

End ConfigManager.

(** * The logger ([Logger]) *)

Module Logger.

Record GivenOptions := mkGivenOptions {
  given_level : option string;
  given_logDir : option string;
  given_enableConsole : Given;
  given_enableFile : Given;
  given_maxFiles : option nat;
  given_maxSize : option string
}.

Record Options := mkOptions {
  level : string;
  logDir : string;
  enableConsole : bool;
  enableFile : bool;
  maxFiles : nat;
  maxSize : string
}.

(** The transports handed to [winston.createLogger]. *)
Inductive Transport :=
| Console (level : string)
| File (filename level maxsize : string) (maxFiles : nat).

(** A line handed to winston: its level, message and meta data. *)
Record Line := mkLine {
  line_level : string;
  line_message : string;
  line_meta : list (string * string)
}.

(** [this.winston], with the lines it was given, oldest first. *)
Record Winston := mkWinston {
  winston_level : string;
  transports : list Transport;
  exitOnError : bool;
  lines : list Line
}.

(** A logger: [this.options], [this.winston] ([None] while it is
    [undefined]), whether [setupLogger] is suspended at its [await], and
    what was printed to the console. *)
Record State := mkState {
  options : Options;
  winston : option Winston;
  awaiting_dir : bool;
  console : list string
}.

Section Logger.

(** [path.join] *)
Variable path_join : string -> string -> string.

(** [setupLogger], after [await fs.ensureDir] or without it. *)
Definition setupLogger_rest (this : State) : State :=
  let transports := [] in
  let transports :=
    if enableConsole (options this)
    then transports ++ [Console (level (options this))]
    else transports in
  let transports :=
    if enableFile (options this)
    then
      transports ++
        [File (path_join (logDir (options this)) "app.log") (level (options this))
              (maxSize (options this)) (maxFiles (options this));
         File (path_join (logDir (options this)) "error.log") "error"
              (maxSize (options this)) (maxFiles (options this))]
    else transports in
  mkState (options this)
          (Some (mkWinston (level (options this)) transports false []))
          false (console this).

(** [setupLogger] as the constructor calls it, without [await]: the body
    runs up to its first [await], and the constructor returns. *)
Definition setupLogger (this : State) : State :=
  if enableFile (options this)
  then mkState (options this) (winston this) true (console this)
  else setupLogger_rest this.

(** [constructor] *)
Definition new_Logger (given : GivenOptions) : State :=
  let options :=
    {| level := spread_string "info" (given_level given);
       logDir := spread_string "./logs" (given_logDir given);
       enableConsole :=
         spread (not_false (given_enableConsole given)) (given_enableConsole given);
       enableFile :=
         spread (not_false (given_enableFile given)) (given_enableFile given);
       maxFiles :=
         (let computed :=
            match given_maxFiles given with
            | Some n => if Nat.eqb n 0 then 5 else n
            | None => 5
            end in
          match given_maxFiles given with
          | Some n => n
          | None => computed
          end);
       maxSize := spread_string "10m" (given_maxSize given) |} in
  setupLogger (mkState options None false []).

(** The continuation of [setupLogger], run by the event loop once
    [fs.ensureDir] has settled: on an error the promise of [setupLogger],
    which nobody holds, is rejected. *)
Definition ensureDir_settled (o : outcome unit) (this : State) : State :=
  if awaiting_dir this then
    match o with
    | Returned _ => setupLogger_rest this
    | Thrown _ => mkState (options this) (winston this) false (console this)
    end
  else this.

(** [this.winston.<method>(message, meta)] *)
Definition to_winston (method : string) (message : string)
    (meta : list (string * string)) (this : State) : State * outcome unit :=
  match winston this with
  | None => (this, Thrown (undefined_deref method))
  | Some w =>
      (mkState (options this)
         (Some (mkWinston (winston_level w) (transports w) (exitOnError w)
                  (lines w ++ [mkLine method message meta])))
         (awaiting_dir this) (console this),
       Returned tt)
  end.

(** [console.log] of a line with its label, when the console is enabled;
    the time and the colours are left out. *)
Definition to_console (label message : string) (this : State) : State :=
  if enableConsole (options this)
  then mkState (options this) (winston this) (awaiting_dir this)
               (console this ++ [label +:+ " " +:+ message])
  else this.

(** The methods. *)
Definition error message meta := to_winston "error" message meta.
Definition warn message meta := to_winston "warn" message meta.
Definition info message meta := to_winston "info" message meta.
Definition debug message meta := to_winston "debug" message meta.
Definition verbose message meta := to_winston "verbose" message meta.

Definition success (message : string) (meta : list (string * string))
    (this : State) : State * outcome unit :=
  to_winston "info" ("SUCCESS: " +:+ message) meta
    (to_console "✅ SUCCESS" message this).

Definition start (message : string) (meta : list (string * string))
    (this : State) : State * outcome unit :=
  to_winston "info" ("START: " +:+ message) meta
    (to_console "🚀 START" message this).

Definition complete (message : string) (meta : list (string * string))
    (this : State) : State * outcome unit :=
  to_winston "info" ("COMPLETE: " +:+ message) meta
    (to_console "🎉 COMPLETE" message this).

Definition fileOperation (operation filePath : string) (succeeded : bool)
    (meta : list (string * string)) (this : State) : State * outcome unit :=
  let icon := if succeeded then "📁" else "❌" in
  let status := if succeeded then "SUCCESS" else "FAILED" in
  let message := operation +:+ " " +:+ filePath +:+ " - " +:+ status in
  let this := to_console (icon +:+ " FILE") message this in
  to_winston (if succeeded then "info" else "error") ("FILE: " +:+ message)
    ([("operation", operation); ("filePath", filePath)] ++ meta) this.

(** A call to one of these methods. *)
Inductive Call :=
| CallError (message : string) (meta : list (string * string))
| CallWarn (message : string) (meta : list (string * string))
| CallInfo (message : string) (meta : list (string * string))
| CallDebug (message : string) (meta : list (string * string))
| CallVerbose (message : string) (meta : list (string * string))
| CallSuccess (message : string) (meta : list (string * string))
| CallStart (message : string) (meta : list (string * string))
| CallComplete (message : string) (meta : list (string * string))
| CallFileOperation (operation filePath : string) (succeeded : bool)
    (meta : list (string * string)).

Definition invoke (c : Call) : State -> State * outcome unit :=
  match c with
  | CallError m meta => error m meta
  | CallWarn m meta => warn m meta
  | CallInfo m meta => info m meta
  | CallDebug m meta => debug m meta
  | CallVerbose m meta => verbose m meta
  | CallSuccess m meta => success m meta
  | CallStart m meta => start m meta
  | CallComplete m meta => complete m meta
  | CallFileOperation op f ok meta => fileOperation op f ok meta
  end.

(** Calls made one after the other, each caught by its caller: the
    outcomes, and the logger they leave. *)
Fixpoint invoke_all (calls : list Call) (this : State)
    : State * list (outcome unit) :=
  match calls with
  | [] => (this, [])
  | c :: rest =>
      let '(this, o) := invoke c this in
      let '(this, os) := invoke_all rest this in
      (this, o :: os)
  end.

End Logger.

(** The options [initialize] passes, and options without file logging. *)
Definition as_initialized : GivenOptions :=
  mkGivenOptions (Some "info") (Some "./logs") Missing Missing None None.

Definition console_only : GivenOptions :=
  mkGivenOptions None None Missing GivenFalse None None.

Definition join_with_slash (dir name : string) : string := dir +:+ "/" +:+ name.

End Logger.

(** * Reasoning rules *)

Section Rules.

Context {X : Type} (f : System -> X).

Lemma preserves_ret {A} (a : A) : preserves f (ret a).
Proof. intros s. reflexivity. Qed.

Lemma preserves_throw {A} m : preserves f (@throw A m).
Proof. intros s. reflexivity. Qed.

Lemma preserves_gets {A} (g : System -> A) : preserves f (gets g).
Proof. intros s. reflexivity. Qed.

Lemma preserves_bind {A B} (c : M A) (k : A -> M B) :
  preserves f c -> (forall a, preserves f (k a)) -> preserves f (bind c k).
Proof.
  intros Hc Hk s. unfold bind. specialize (Hc s).
  destruct (c s) as [s' [a|m]]; simpl in *; [|exact Hc].
  rewrite Hk. exact Hc.
Qed.

Lemma preserves_try_catch {A} (c : M A) (h : string -> M A) :
  preserves f c -> (forall m, preserves f (h m)) -> preserves f (try_catch c h).
Proof.
  intros Hc Hh s. unfold try_catch. specialize (Hc s).
  destruct (c s) as [s' [a|m]]; simpl in *; [exact Hc|].
  rewrite Hh. exact Hc.
Qed.

Lemma preserves_if {A} (b : bool) (c1 c2 : M A) :
  preserves f c1 -> preserves f c2 -> preserves f (if b then c1 else c2).
Proof. destruct b; auto. Qed.

Lemma preserves_modify (g : System -> System) :
  (forall s, f (g s) = f s) -> preserves f (modify g).
Proof. intros Hg s. apply Hg. Qed.

Lemma preserves_call {A} (oracle : list Event -> outcome A) record :
  (forall s o, f (add_event (record o) s) = f s) ->
  preserves f (call oracle record).
Proof. intros Hg s. apply Hg. Qed.

Lemma preserves_now W :
  (forall s t, f (add_event (EvNow t) s) = f s) -> preserves f (now W).
Proof. intros Hg s. apply Hg. Qed.

Lemma preserves_the_config prop : preserves f (the_config prop).
Proof. intros s. unfold the_config. destruct (config s); reflexivity. Qed.

Lemma preserves_run {A} (c : M A) s s' o :
  preserves f c -> c s = (s', o) -> f s' = f s.
Proof. intros Hc E. specialize (Hc s). rewrite E in Hc. exact Hc. Qed.

End Rules.

Section Emits.

Variable allowed : Origin -> bool.

Lemma emits_ret {A} (a : A) : emits allowed (ret a).
Proof. intros s. exists []. simpl. by rewrite app_nil_r. Qed.

Lemma emits_throw {A} m : emits allowed (@throw A m).
Proof. intros s. exists []. simpl. by rewrite app_nil_r. Qed.

Lemma emits_gets {A} (g : System -> A) : emits allowed (gets g).
Proof. intros s. exists []. simpl. by rewrite app_nil_r. Qed.

Lemma emits_modify g :
  (forall s, trace (g s) = trace s) -> emits allowed (modify g).
Proof. intros Hg s. exists []. simpl. by rewrite Hg, app_nil_r. Qed.

Lemma emits_event e :
  allowed (origin e) = true -> emits allowed (modify (add_event e)).
Proof. intros He s. exists [e]. simpl. split; [done|]. by constructor. Qed.

Lemma emits_call {A} (oracle : list Event -> outcome A) record :
  (forall o, allowed (origin (record o)) = true) ->
  emits allowed (call oracle record).
Proof. intros He s. eexists [_]. simpl. split; [done|]. by constructor. Qed.

Lemma emits_now W : allowed Clock = true -> emits allowed (now W).
Proof. intros He s. eexists [_]. simpl. split; [done|]. by constructor. Qed.

Lemma emits_the_config prop : emits allowed (the_config prop).
Proof.
  intros s. exists []. unfold the_config.
  destruct (config s); simpl; by rewrite app_nil_r.
Qed.

Lemma emits_bind {A B} (c : M A) (k : A -> M B) :
  emits allowed c -> (forall a, emits allowed (k a)) -> emits allowed (bind c k).
Proof.
  intros Hc Hk s. unfold bind. destruct (Hc s) as (n1 & H1 & F1).
  destruct (c s) as [s' [a|m]]; simpl in *; [|eauto].
  destruct (Hk a s') as (n2 & H2 & F2). exists (n1 ++ n2).
  split; [by rewrite H2, H1, app_assoc | by apply Forall_app].
Qed.

Lemma emits_try_catch {A} (c : M A) (h : string -> M A) :
  emits allowed c -> (forall m, emits allowed (h m)) ->
  emits allowed (try_catch c h).
Proof.
  intros Hc Hh s. unfold try_catch. destruct (Hc s) as (n1 & H1 & F1).
  destruct (c s) as [s' [a|m]]; simpl in *; [eauto|].
  destruct (Hh m s') as (n2 & H2 & F2). exists (n1 ++ n2).
  split; [by rewrite H2, H1, app_assoc | by apply Forall_app].
Qed.

Lemma emits_if {A} (b : bool) (c1 c2 : M A) :
  emits allowed c1 -> emits allowed c2 -> emits allowed (if b then c1 else c2).
Proof. destruct b; auto. Qed.

Lemma emits_run {A} (c : M A) s s' o :
  emits allowed c -> c s = (s', o) ->
  exists new, trace s' = trace s ++ new /\
              Forall (fun e => allowed (origin e) = true) new.
Proof. intros Hc E. specialize (Hc s). by rewrite E in Hc. Qed.

End Emits.

Lemma emits_weaken {A} (p q : Origin -> bool) (c : M A) :
  (forall o, p o = true -> q o = true) -> emits p c -> emits q c.
Proof.
  intros Hpq Hc s. destruct (Hc s) as (new & E & F). exists new.
  split; [done|]. eapply Forall_impl; [exact F|]. intros e. apply Hpq.
Qed.

(** A projection of the trace is blind to the events of other origins. *)
Lemma omap_blind {B} (g : Event -> option B) (allowed : Origin -> bool) new :
  (forall e, allowed (origin e) = true -> g e = None) ->
  Forall (fun e => allowed (origin e) = true) new ->
  omap g new = [].
Proof.
  intros Hg. induction 1 as [|e l He _ IH]; [done|].
  simpl. by rewrite (Hg e He).
Qed.

(** Structural steps shared by the frame proofs below. *)
Ltac frame_step :=
  first
    [ apply preserves_bind; [|intros ?]
    | apply preserves_try_catch; [|intros ?]
    | apply preserves_if
    | apply preserves_ret
    | apply preserves_throw
    | apply preserves_gets
    | apply preserves_the_config
    | apply preserves_modify; intros ?; reflexivity
    | apply preserves_call; intros ? ?; reflexivity
    | apply preserves_now; intros ? ?; reflexivity ].

Ltac frame := repeat frame_step.

Ltac emit_step :=
  first
    [ apply emits_bind; [|intros ?]
    | apply emits_try_catch; [|intros ?]
    | apply emits_if
    | apply emits_ret
    | apply emits_throw
    | apply emits_gets
    | apply emits_the_config
    | apply emits_call; intros ?; reflexivity
    | apply emits_now; reflexivity
    | apply emits_event; reflexivity
    | apply emits_modify; intros ?; reflexivity ].

Ltac emit := repeat emit_step.

(** * Frame properties of the stages *)

Section Frames.

Variable W : Env.

Lemma validation_gate_results : preserves results (validation_gate W).
Proof. unfold validation_gate. frame. Qed.

Lemma download_loop_frame {X} (f : System -> X) urls :
  (forall s e, f (add_event e s) = f s) ->
  (forall s e, f (add_log e s) = f s) ->
  forall downloads, preserves f (download_loop W urls downloads).
Proof.
  intros He Hl. induction urls as [|url rest IH]; intros downloads; simpl.
  - apply preserves_ret.
  - apply preserves_bind; [|intros ?; apply IH].
    unfold download_one, log.
    repeat first
      [ frame_step
      | apply preserves_modify; intros ?; apply Hl
      | apply preserves_call; intros ? ?; apply He
      | apply preserves_now; intros ? ?; apply He ].
Qed.

Lemma upload_loop_frame {X} (f : System -> X) ds :
  (forall s e, f (add_event e s) = f s) ->
  forall uploads, preserves f (upload_loop W ds uploads).
Proof.
  intros He. induction ds as [|d rest IH]; intros uploads; simpl.
  - apply preserves_ret.
  - destruct (uploadable d); [|apply IH].
    apply preserves_bind; [apply preserves_call; intros ? ?; apply He|].
    intros ?. apply preserves_bind; [apply preserves_now; intros ? ?; apply He|].
    intros ?. apply IH.
Qed.

Lemma uploadToDropbox_frame {X} (f : System -> X) ds :
  (forall s e, f (add_event e s) = f s) ->
  (forall s e, f (add_log e s) = f s) ->
  preserves f (uploadToDropbox W ds).
Proof.
  intros He Hl. unfold uploadToDropbox.
  apply preserves_try_catch; [by apply upload_loop_frame|].
  intros ?. unfold log.
  repeat first
    [ frame_step
    | apply preserves_modify; intros ?; apply Hl
    | apply preserves_now; intros ? ?; apply He ].
Qed.

Lemma saveExecutionReport_frame {X} (f : System -> X) :
  (forall s e, f (add_event e s) = f s) ->
  (forall s e, f (add_log e s) = f s) ->
  preserves f (saveExecutionReport W).
Proof.
  intros He Hl. unfold saveExecutionReport, log.
  repeat first
    [ frame_step
    | apply preserves_modify; intros ?; apply Hl
    | apply preserves_call; intros ? ?; apply He
    | apply preserves_now; intros ? ?; apply He ].
Qed.

(** Which collaborators each block of [run] talks to. *)




Lemma download_loop_emits urls :
  forall downloads, emits during_download (download_loop W urls downloads).
Proof.
  induction urls as [|url rest IH]; intros downloads; simpl; [emit|].
  apply emits_bind; [|intros ?; apply IH]. unfold download_one. emit.
Qed.

Lemma download_stage_emits : emits during_download (download_stage W).
Proof.
  unfold download_stage, downloadFigmaFiles. emit. apply download_loop_emits.
Qed.

Lemma upload_loop_emits ds :
  forall uploads, emits during_upload (upload_loop W ds uploads).
Proof.
  induction ds as [|d rest IH]; intros uploads; simpl; [emit|].
  destruct (uploadable d); [|apply IH].
  emit. apply IH.
Qed.

Lemma uploadToDropbox_emits ds : emits during_upload (uploadToDropbox W ds).
Proof. unfold uploadToDropbox. emit. apply upload_loop_emits. Qed.

Lemma sync_stage_emits : emits during_sync (sync_stage W).
Proof.
  unfold sync_stage. emit.
  eapply emits_weaken; [|apply upload_loop_emits]. by intros [].
Qed.

Lemma aggregate_emits : emits during_aggregation (aggregate W).
Proof. unfold aggregate. emit. Qed.


End Frames.


(** * The blocks of [run] *)

Section Blocks.

Variable W : Env.

Lemma initializeServices_wiring :
  preserves (fun s => (config s, logger s, notificationService s))
            (initializeServices W).
Proof. unfold initializeServices. frame. Qed.

Lemma initialize_ready s s1 b :
  initialize W s = (s1, Returned b) ->
  logger s1 = true /\ notificationService s1 = true /\
  exists cfg, config s1 = Some cfg.
Proof.
  unfold initialize, try_catch, bind at 1, call.
  destruct (loadConfig W (trace s)) as [cfg|m]; simpl; [|discriminate].
  unfold bind at 1. simpl. unfold bind at 1. simpl. unfold bind at 1. simpl.
  unfold bind at 1.
  match goal with
  | |- context [initializeServices W ?s0] =>
      pose proof (initializeServices_wiring s0) as Hw;
      destruct (initializeServices W s0) as [s2 [[]|m]]
  end; simpl in *; [|discriminate].
  intros E. injection E as <- _. simpl.
  injection Hw as -> -> ->. eauto.
Qed.

Lemma validateServices_wiring : preserves wiring (validateServices W).
Proof. unfold validateServices. frame. Qed.

Lemma validation_gate_ready s s1 u :
  validation_gate W s = (s1, Returned u) ->
  logger s1 = true /\ notificationService s1 = true /\
  exists cfg, config s1 = Some cfg.
Proof.
  unfold validation_gate, bind at 1.
  destruct (initialize W s) as [si [b|m]] eqn:Ei; [|discriminate].
  destruct (initialize_ready _ _ _ Ei) as (Hl & Hn & cfg & Hc).
  unfold bind at 1, the_config. rewrite Hc.
  unfold bind at 1. simpl. unfold bind at 1.
  match goal with
  | |- context [validateServices W ?s0] =>
      pose proof (validateServices_wiring s0) as Hw;
      destruct (validateServices W s0) as [s2 [v|m]]
  end; simpl in *; [|discriminate].
  unfold wiring in Hw. simpl in Hw. rewrite Hl, Hn, Hc in Hw.
  destruct (vr_success v); simpl; [|discriminate].
  intros E. injection E as <-. injection Hw as -> -> -> _. eauto.
Qed.


Lemma bind_returned {A B} (c : M A) (k : A -> M B) s s1 a :
  c s = (s1, Returned a) -> bind c k s = k a s1.
Proof. intros E. unfold bind. by rewrite E. Qed.

Lemma bind_thrown {A B} (c : M A) (k : A -> M B) s s1 m :
  c s = (s1, Thrown m) -> bind c k s = (s1, Thrown m).
Proof. intros E. unfold bind. by rewrite E. Qed.

(** The [catch] block of [run], once the logger and the notification
    service exist. *)
Lemma run_catch_ready m s :
  logger s = true -> notificationService s = true ->
  run_catch m s =
    (add_event (EvNotifyError m)
       (add_log (mkLogEntry LError "備份執行失敗" [("error", m)])
          (with_results (fun r => push_error m (set_success false r)) s)),
     Thrown m).
Proof.
  intros Hl Hn. unfold run_catch, bind, modify_results, modify, gets, log,
    notification, throw.
  cbn. rewrite Hl. cbn. rewrite Hn. reflexivity.
Qed.

(** One iteration of the download loop: one call, one entry. *)
Lemma download_one_spec url downloads s cfg :
  config s = Some cfg ->
  exists s' d o t,
    download_one W url downloads s = (s', Returned (downloads ++ [d])) /\
    trace s' = trace s ++ [EvDownload url (download_options cfg) o; EvNow t] /\
    recorded_as d (url, o) /\
    wiring s' = wiring s /\ results s' = results s.
Proof.
  intros Hc. unfold download_one, try_catch, bind at 1, the_config.
  rewrite Hc. unfold bind at 1, call. cbv zeta.
  destruct (downloadFromUrl W (trace s) url (download_options cfg)) as [r|m] eqn:E.
  - eexists _, _, (Returned r), _. split; [reflexivity|].
    split; [cbn; by rewrite <- app_assoc|]. by cbn.
  - eexists _, _, (Thrown m), _. split; [reflexivity|].
    split; [cbn; by rewrite <- app_assoc|]. by cbn.
Qed.

Lemma download_loop_spec urls : forall downloads s cfg,
  config s = Some cfg ->
  exists s' ds new,
    download_loop W urls downloads s = (s', Returned (downloads ++ ds)) /\
    trace s' = trace s ++ new /\
    Forall2 recorded_as ds (download_calls new) /\
    map fst (download_calls new) = urls /\
    wiring s' = wiring s /\ results s' = results s.
Proof.
  induction urls as [|url rest IH]; intros downloads s cfg Hc; simpl.
  - exists s, [], []. rewrite !app_nil_r. by repeat split; try constructor.
  - destruct (download_one_spec url downloads s cfg Hc)
      as (s1 & d & o & t & E1 & T1 & R1 & W1 & Q1).
    assert (Hc1 : config s1 = Some cfg).
    { unfold wiring in W1. injection W1 as -> _ _ _. exact Hc. }
    destruct (IH (downloads ++ [d]) s1 cfg Hc1)
      as (s2 & ds & new & E2 & T2 & R2 & U2 & W2 & Q2).
    exists s2, (d :: ds), ([EvDownload url (download_options cfg) o; EvNow t] ++ new).
    rewrite (bind_returned _ _ _ _ _ E1), E2.
    split; [by rewrite <- app_assoc|].
    split; [by rewrite T2, T1, <- app_assoc|].
    split; [by constructor|].
    split; [cbn; f_equal; exact U2|].
    split; congruence.
Qed.

Lemma recorded_urls ds calls :
  Forall2 recorded_as ds calls -> map dl_url ds = map fst calls.
Proof.
  induction 1 as [|d c ds calls [Hu _] _ IH]; [done|].
  cbn. by rewrite Hu, IH.
Qed.

Lemma download_stage_spec s cfg :
  config s = Some cfg ->
  exists s' ds new,
    download_stage W s = (s', Returned tt) /\
    trace s' = trace s ++ new /\
    Forall2 recorded_as ds (download_calls new) /\
    map dl_url ds = backup_targets cfg /\
    wiring s' = wiring s /\
    results s' = set_downloads ds (set_targets (backup_targets cfg) (results s)).
Proof.
  intros Hc. unfold download_stage, bind at 1, the_config. rewrite Hc.
  unfold bind at 1, modify_results, modify. cbv beta iota.
  unfold bind at 1, downloadFigmaFiles, bind at 1, log, modify. cbv beta iota.
  match goal with
  | |- context [download_loop W ?u ?a ?s0] =>
      destruct (download_loop_spec u a s0 cfg Hc)
        as (s1 & ds & new & E & T & R & U & W1 & Q)
  end.
  rewrite E. cbn in *. eexists _, ds, new.
  split; [reflexivity|]. split; [exact T|]. split; [exact R|].
  split; [by rewrite (recorded_urls _ _ R)|].
  split; [exact W1|]. cbn. by rewrite Q.
Qed.

(** The upload loop: either every uploadable download was sent and one
    entry per call was accumulated, or the calls stopped at the first one
    that threw. *)
Lemma upload_loop_spec ds : forall uploads s s' o,
  upload_loop W ds uploads s = (s', o) ->
  exists new,
    trace s' = trace s ++ new /\
    match o with
    | Returned ups =>
        exists entries,
          ups = uploads ++ entries /\
          Forall2 uploaded_as entries (dropbox_calls new) /\
          map fst (dropbox_calls new) =
            map (fun d => [d]) (List.filter uploadable ds)
    | Thrown m =>
        exists pre d post done,
          List.filter uploadable ds = pre ++ d :: post /\
          dropbox_calls new = done ++ [([d], Thrown m)] /\
          map fst done = map (fun d => [d]) pre /\
          Forall (fun c => returned (snd c) = true) done
    end.
Proof.
  induction ds as [|d rest IH]; intros uploads s s' o; simpl.
  - intros [= <- <-]. exists []. rewrite app_nil_r. split; [done|].
    exists []. rewrite app_nil_r. by repeat split; try constructor.
  - destruct (uploadable d) eqn:Hd; [|apply IH].
    unfold bind at 1, call. cbv zeta.
    destruct (dropbox_syncBackupResults W (trace s) [d]) as [r|m].
    + unfold bind at 1, now. cbv zeta. intros E.
      apply IH in E as (new & T & H). cbn in T.
      eexists ([_; _] ++ new). split; [by rewrite T, <- !app_assoc|].
      destruct o as [ups|m].
      * destruct H as (entries & -> & F & U).
        eexists (_ :: entries). split; [by rewrite <- app_assoc|].
        split; [|cbn; f_equal; exact U].
        cbn. constructor; [|exact F]. by eexists d, r.
      * destruct H as (pre & x & post & done & Hf & Hc & Hm & Hr).
        exists (d :: pre), x, post, (([d], Returned r) :: done).
        split; [by rewrite Hf|].
        split; [unfold dropbox_calls in *; cbn; by rewrite Hc|].
        split; [cbn; by rewrite Hm|]. by constructor.
    + intros [= <- <-]. eexists [_]. split; [reflexivity|].
      by exists [], d, (List.filter uploadable rest), [].
Qed.

Lemma uploadToDropbox_spec ds s s' o :
  uploadToDropbox W ds s = (s', o) ->
  exists new ups,
    o = Returned ups /\
    trace s' = trace s ++ new /\
    Forall (fun e => during_upload (origin e) = true) new /\
    wiring s' = wiring s /\ results s' = results s /\
    ((Forall2 uploaded_as ups (dropbox_calls new) /\
      map fst (dropbox_calls new) =
        map (fun d => [d]) (List.filter uploadable ds))
     \/
     (exists m t pre d post done,
        ups = [upload_failure m t] /\
        List.filter uploadable ds = pre ++ d :: post /\
        dropbox_calls new = done ++ [([d], Thrown m)] /\
        map fst done = map (fun d => [d]) pre /\
        Forall (fun c => returned (snd c) = true) done)).
Proof.
  intros E.
  pose proof (emits_run _ _ _ _ _ (uploadToDropbox_emits W ds) E)
    as (new & T & F).
  pose proof (preserves_run wiring _ _ _ _
                (uploadToDropbox_frame W wiring ds (fun _ _ => eq_refl)
                   (fun _ _ => eq_refl)) E) as Hw.
  pose proof (preserves_run results _ _ _ _
                (uploadToDropbox_frame W results ds (fun _ _ => eq_refl)
                   (fun _ _ => eq_refl)) E) as Hr.
  exists new. revert E. unfold uploadToDropbox, try_catch.
  destruct (upload_loop W ds [] s) as [s1 [ups|m]] eqn:E1;
    apply upload_loop_spec in E1 as (new1 & T1 & H1).
  - intros [= <- <-]. exists ups. rewrite T1 in T.
    apply app_inv_head in T as ->.
    destruct H1 as (entries & -> & F2 & U). cbn. eauto 10.
  - unfold bind at 1, log, modify. cbv beta iota.
    unfold bind at 1, now, ret. cbv zeta beta iota. intros [= <- <-].
    eexists. split; [reflexivity|]. cbn in T. rewrite T1, <- app_assoc in T.
    apply app_inv_head in T as <-.
    destruct H1 as (pre & d & post & done & Hf & Hc & Hm & Hd).
    split; [cbn; by rewrite T1, <- app_assoc|].
    do 3 (split; [done|]). right.
    eexists m, _, pre, d, post, done. split; [reflexivity|].
    split; [done|]. split; [|done].
    unfold dropbox_calls in *. rewrite omap_app, Hc. cbn. by rewrite app_nil_r.
Qed.

(** The Notion and Obsidian stages: one call with the run context, one
    entry, whatever the call does. *)
Lemma updateNotionDatabase_spec r s :
  exists s' e o t,
    updateNotionDatabase W r s = (s', Returned e) /\
    trace s' = trace s ++ [EvNotionSync [r] o; EvNow t] /\
    synced_as "notion" e o /\
    wiring s' = wiring s /\ results s' = results s.
Proof.
  unfold updateNotionDatabase, try_catch, bind at 1, call. cbv zeta.
  destruct (notion_syncBackupResults W (trace s) [r]) as [sr|m].
  - eexists _, _, (Returned sr), _. split; [reflexivity|].
    split; [cbn; by rewrite <- app_assoc|]. by cbn.
  - eexists _, _, (Thrown m), _. split; [reflexivity|].
    split; [cbn; by rewrite <- app_assoc|]. by cbn.
Qed.

Lemma syncObsidianVault_spec r s :
  exists s' e o t,
    syncObsidianVault W r s = (s', Returned e) /\
    trace s' = trace s ++ [EvObsidianSync [r] o; EvNow t] /\
    synced_as "obsidian" e o /\
    wiring s' = wiring s /\ results s' = results s.
Proof.
  unfold syncObsidianVault, try_catch, bind at 1, call. cbv zeta.
  destruct (obsidian_syncBackupResults W (trace s) [r]) as [sr|m].
  - eexists _, _, (Returned sr), _. split; [reflexivity|].
    split; [cbn; by rewrite <- app_assoc|]. by cbn.
  - eexists _, _, (Thrown m), _. split; [reflexivity|].
    split; [cbn; by rewrite <- app_assoc|]. by cbn.
Qed.

(** The three guarded statements of the sync stage. *)
Lemma dropbox_step_spec s :
  exists s' new,
    dropbox_step W s = (s', Returned tt) /\
    wiring s' = wiring s /\
    trace s' = trace s ++ new /\
    if dropbox (services s) then
      exists s_d ups,
        uploadToDropbox W (downloads (results s)) s = (s_d, Returned ups) /\
        trace s_d = trace s ++ new /\
        results s' = set_uploads ups (results s)
    else new = [] /\ s' = s.
Proof.
  unfold dropbox_step, bind at 1, gets at 1. cbv beta iota.
  destruct (dropbox (services s)).
  - unfold bind at 1, gets at 1. cbv beta iota. unfold bind at 1.
    destruct (uploadToDropbox W (downloads (results s)) s) as [s_d o] eqn:E.
    destruct (uploadToDropbox_spec _ _ _ _ E)
      as (new & ups & -> & T & _ & Hw & Hr & _).
    eexists _, new. split; [reflexivity|]. split; [exact Hw|].
    split; [exact T|]. exists s_d, ups. cbn. by rewrite Hr.
  - exists s, []. by rewrite app_nil_r.
Qed.

Lemma notion_step_spec s :
  exists s' new,
    notion_step W s = (s', Returned tt) /\
    wiring s' = wiring s /\
    trace s' = trace s ++ new /\
    if notion (services s) then
      exists e o t,
        new = [EvNotionSync [results s] o; EvNow t] /\
        synced_as "notion" e o /\
        results s' = push_sync e (results s)
    else new = [] /\ s' = s.
Proof.
  unfold notion_step, bind at 1, gets at 1. cbv beta iota.
  destruct (notion (services s)).
  - unfold bind at 1, gets at 1. cbv beta iota. unfold bind at 1.
    destruct (updateNotionDatabase_spec (results s) s)
      as (s1 & e & o & t & -> & T & Hs & Hw & Hr).
    eexists _, _. split; [reflexivity|]. split; [exact Hw|].
    split; [exact T|]. exists e, o, t. cbn. by rewrite Hr.
  - exists s, []. by rewrite app_nil_r.
Qed.

Lemma obsidian_step_spec s :
  exists s' new,
    obsidian_step W s = (s', Returned tt) /\
    wiring s' = wiring s /\
    trace s' = trace s ++ new /\
    if obsidian (services s) then
      exists e o t,
        new = [EvObsidianSync [results s] o; EvNow t] /\
        synced_as "obsidian" e o /\
        results s' = push_sync e (results s)
    else new = [] /\ s' = s.
Proof.
  unfold obsidian_step, bind at 1, gets at 1. cbv beta iota.
  destruct (obsidian (services s)).
  - unfold bind at 1, gets at 1. cbv beta iota. unfold bind at 1.
    destruct (syncObsidianVault_spec (results s) s)
      as (s1 & e & o & t & -> & T & Hs & Hw & Hr).
    eexists _, _. split; [reflexivity|]. split; [exact Hw|].
    split; [exact T|]. exists e, o, t. cbn. by rewrite Hr.
  - exists s, []. by rewrite app_nil_r.
Qed.

(** The sync stage never throws; it runs the three statements in turn. *)
Lemma sync_stage_steps s :
  exists s1 s2 s3,
    dropbox_step W s = (s1, Returned tt) /\
    notion_step W s1 = (s2, Returned tt) /\
    obsidian_step W s2 = (s3, Returned tt) /\
    sync_stage W s = (s3, Returned tt).
Proof.
  destruct (dropbox_step_spec s) as (s1 & ? & E1 & _).
  destruct (notion_step_spec s1) as (s2 & ? & E2 & _).
  destruct (obsidian_step_spec s2) as (s3 & ? & E3 & _).
  exists s1, s2, s3. unfold sync_stage.
  by rewrite (bind_returned _ _ _ _ _ E1), (bind_returned _ _ _ _ _ E2).
Qed.

(** Completion of the run context. *)
Lemma aggregate_spec s :
  exists s' t sm r,
    aggregate W s = (s', Returned tt) /\
    trace s' = trace s ++ [EvNow t] /\
    wiring s' = wiring s /\
    r = set_success (existsb dl_success (downloads (results s)))
          (set_duration (Some (t - start_time (results s))%Z)
             (set_end_time (Some t) (results s))) /\
    snd (generateSummary W (with_results (fun _ => r) s)) = Returned sm /\
    results s' = set_summary (Some sm) r.
Proof.
  eexists _, _, _, _. split; [reflexivity|]. by cbn.
Qed.

(** Persisting the report. *)
Lemma saveExecutionReport_spec s :
  exists s' o new,
    saveExecutionReport W s = (s', o) /\
    trace s' = trace s ++ new /\
    wiring s' = wiring s /\ results s' = results s /\
    match o with
    | Returned _ =>
        persistence_failures new = [] /\
        exists rep, reports_written new = [rep] /\ rep_results rep = results s
    | Thrown m =>
        persistence_failures new = [m] /\ reports_written new = []
    end.
Proof.
  unfold saveExecutionReport, try_catch, bind at 1, call. cbv zeta.
  destruct (ensureDir W (trace s) "./reports") as [[]|m1].
  - unfold bind at 1, now. cbv zeta. unfold bind at 1, gets at 1.
    cbv beta iota. unfold bind at 1. cbv zeta beta iota. unfold bind at 1.
    match goal with
    | |- context [writeJson W ?t ?f ?r] => destruct (writeJson W t f r) as [[]|m2]
    end.
    + eexists _, _, [_; _; _; _]. split; [reflexivity|].
      split; [cbn; by rewrite <- !app_assoc|]. cbn. eauto 10.
    + eexists _, _, [_; _; _; _]. split; [reflexivity|].
      split; [cbn; by rewrite <- !app_assoc|]. by cbn.
  - eexists _, _, [_]. split; [reflexivity|]. by cbn.
Qed.

Lemma report_and_return_spec s s' o :
  saveExecutionReport W s = (s', o) ->
  report_and_return W s =
    match o with
    | Returned _ =>
        (add_event (EvNotifyComplete (downloads (results s'))) s',
         Returned (results s'))
    | Thrown m => (s', Thrown m)
    end.
Proof.
  intros E. unfold report_and_return, bind at 1. rewrite E.
  by destruct o.
Qed.


Lemma run_catch_results m s :
  results (fst (run_catch m s)) = push_error m (set_success false (results s)).
Proof.
  unfold run_catch, bind, modify_results, modify, gets, log, notification, throw.
  cbn. destruct (logger s); cbn; [|done].
  by destruct (notificationService s).
Qed.

(** The paths through [run]. *)
Lemma execute_cases :
  let s0 := new_FigmaBackupSystem W in
  (exists s1 m,
     validation_gate W s0 = (s1, Thrown m) /\
     execute W = run_catch m s1)
  \/
  (exists s1 s2 s3 s4 s5 o,
     validation_gate W s0 = (s1, Returned tt) /\
     download_stage W s1 = (s2, Returned tt) /\
     sync_stage W s2 = (s3, Returned tt) /\
     aggregate W s3 = (s4, Returned tt) /\
     saveExecutionReport W s4 = (s5, o) /\
     logger s5 = true /\ notificationService s5 = true /\
     execute W =
       match o with
       | Returned _ =>
           (add_event (EvNotifyComplete (downloads (results s5))) s5,
            Returned (results s5))
       | Thrown m => run_catch m s5
       end).
Proof.
  intros s0. unfold execute, run, try_catch. fold s0.
  destruct (validation_gate W s0) as [s1 [[]|m]] eqn:E1.
  2: { left. exists s1, m. split; [done|].
       by rewrite (bind_thrown _ _ _ _ _ E1). }
  right. rewrite (bind_returned _ _ _ _ _ E1).
  destruct (validation_gate_ready _ _ _ E1) as (Hl & Hn & cfg & Hc).
  destruct (download_stage_spec s1 cfg Hc) as (s2 & ds & n2 & E2 & _ & _ & _ & W2 & _).
  destruct (sync_stage_steps s2) as (sa & sb & s3 & Ea & Eb & Ec & E3).
  destruct (dropbox_step_spec s2) as (sa' & ? & Ea' & Wa & _).
  destruct (notion_step_spec sa) as (sb' & ? & Eb' & Wb & _).
  destruct (obsidian_step_spec sb) as (sc' & ? & Ec' & Wc & _).
  rewrite Ea in Ea'. rewrite Eb in Eb'. rewrite Ec in Ec'.
  injection Ea' as <-. injection Eb' as <-. injection Ec' as <-.
  destruct (aggregate_spec s3) as (s4 & t & sm & r & E4 & _ & W4 & _).
  destruct (saveExecutionReport_spec s4) as (s5 & o & n5 & E5 & _ & W5 & _).
  assert (Hw : wiring s5 = wiring s1) by congruence.
  unfold wiring in Hw. injection Hw as _ Hl5 Hn5 _.
  exists s1, s2, s3, s4, s5, o.
  rewrite (bind_returned _ _ _ _ _ E2), (bind_returned _ _ _ _ _ E3),
    (bind_returned _ _ _ _ _ E4), (report_and_return_spec _ _ _ E5).
  do 5 (split; [done|]). split; [congruence|]. split; [congruence|].
  by destruct o.
Qed.




End Blocks.







(** * The claims *)

Section Claims.

Variable W : Env.









(** C8 — the summary generator returns without changing the state (no
    call is recorded, the run context is untouched); two calls in a row
    return the same summary; and the summary depends on the execution id
    and the run context only. *)
Theorem generateSummary_pure s s2 :
  executionId s2 = executionId s ->
  results s2 = results s ->
  exists sm,
    generateSummary W s = (s, Returned sm) /\
    (sm1 <- generateSummary W ;; sm2 <- generateSummary W ;; ret (sm1, sm2)) s =
      (s, Returned (sm, sm)) /\
    generateSummary W s2 = (s2, Returned sm).
Proof.
  intros Hid Hres. unfold bind, generateSummary, gets, ret. cbn.
  rewrite Hid, Hres. eexists. by repeat split.
Qed.

(** ** Report persistence *)











(** ** The validation gate *)






(** ** The sync stage *)

Lemma push_syncs_fields es : forall r,
  syncs (push_syncs es r) = syncs r ++ es /\
  downloads (push_syncs es r) = downloads r /\
  uploads (push_syncs es r) = uploads r /\
  targets (push_syncs es r) = targets r.
Proof.
  induction es as [|e l IH]; intros r.
  - cbn. by rewrite app_nil_r.
  - change (push_syncs (e :: l) r) with (push_syncs l (push_sync e r)).
    destruct (IH (push_sync e r)) as (-> & -> & -> & ->). cbn.
    by rewrite <- app_assoc.
Qed.

(** The whole stage, from its three statements. [r1] is the run context
    Notion is given, [push_syncs n_entries r1] the one Obsidian is given. *)
Lemma sync_stage_spec s :
  exists s' new_d new_n new_o r1 n_entries o_entries,
    sync_stage W s = (s', Returned tt) /\
    trace s' = trace s ++ new_d ++ new_n ++ new_o /\
    results s' = push_syncs o_entries (push_syncs n_entries r1) /\
    (if dropbox (services s) then
       exists s_d ups,
         uploadToDropbox W (downloads (results s)) s = (s_d, Returned ups) /\
         trace s_d = trace s ++ new_d /\
         r1 = set_uploads ups (results s)
     else new_d = [] /\ r1 = results s) /\
    (if notion (services s) then
       exists e o t,
         n_entries = [e] /\ new_n = [EvNotionSync [r1] o; EvNow t] /\
         synced_as "notion" e o
     else n_entries = [] /\ new_n = []) /\
    (if obsidian (services s) then
       exists e o t,
         o_entries = [e] /\
         new_o = [EvObsidianSync [push_syncs n_entries r1] o; EvNow t] /\
         synced_as "obsidian" e o
     else o_entries = [] /\ new_o = []).
Proof.
  destruct (sync_stage_steps W s) as (s1 & s2 & s3 & E1 & E2 & E3 & E).
  destruct (dropbox_step_spec W s) as (s1' & new_d & E1' & W1 & T1 & H1).
  rewrite E1 in E1'. injection E1' as <-.
  destruct (notion_step_spec W s1) as (s2' & new_n & E2' & W2 & T2 & H2).
  rewrite E2 in E2'. injection E2' as <-.
  destruct (obsidian_step_spec W s2) as (s3' & new_o & E3' & W3 & T3 & H3).
  rewrite E3 in E3'. injection E3' as <-.
  assert (Hn : notion (services s1) = notion (services s)).
  { unfold wiring in W1. by injection W1 as _ _ _ ->. }
  assert (Ho : obsidian (services s2) = obsidian (services s)).
  { unfold wiring in W1, W2. injection W2 as _ _ _ ->. by injection W1 as _ _ _ ->. }
  rewrite Hn in H2. rewrite Ho in H3.
  assert (HT : trace s3 = trace s ++ new_d ++ new_n ++ new_o)
    by (by rewrite T3, T2, T1, <- !app_assoc).
  assert (HD : if dropbox (services s) then
                 exists s_d ups,
                   uploadToDropbox W (downloads (results s)) s = (s_d, Returned ups) /\
                   trace s_d = trace s ++ new_d /\
                   results s1 = set_uploads ups (results s)
               else new_d = [] /\ results s1 = results s).
  { destruct (dropbox (services s)); [exact H1|]. by destruct H1 as (-> & ->). }
  clear H1.
  destruct (notion (services s)), (obsidian (services s)).
  - destruct H2 as (e1 & o1 & t1 & -> & S1 & Q2).
    destruct H3 as (e2 & o2 & t2 & -> & S2 & Q3).
    eexists s3, new_d, _, _, (results s1), [e1], [e2].
    do 2 (split; [done|]). split; [by rewrite Q3, Q2|].
    split; [done|]. split; [by exists e1, o1, t1|].
    exists e2, o2, t2. by rewrite Q2.
  - destruct H2 as (e1 & o1 & t1 & -> & S1 & Q2).
    destruct H3 as (-> & ->).
    eexists s2, new_d, _, _, (results s1), [e1], [].
    do 2 (split; [done|]). split; [by rewrite Q2|].
    split; [done|]. split; [by exists e1, o1, t1|done].
  - destruct H2 as (-> & ->).
    destruct H3 as (e2 & o2 & t2 & -> & S2 & Q3).
    eexists s3, new_d, _, _, (results s1), [], [e2].
    do 2 (split; [done|]). split; [by rewrite Q3|].
    split; [done|]. split; [done|]. by exists e2, o2, t2.
  - destruct H2 as (-> & ->). destruct H3 as (-> & ->).
    by exists s1, new_d, [], [], (results s1), [], [].
Qed.

(** The same, read off the events the stage added to the trace. *)
Lemma sync_stage_view s s' o new :
  sync_stage W s = (s', o) ->
  trace s' = trace s ++ new ->
  o = Returned tt /\
  exists r1 n_entries o_entries,
    results s' = push_syncs o_entries (push_syncs n_entries r1) /\
    (if dropbox (services s) then
       exists s_d ups new_d,
         uploadToDropbox W (downloads (results s)) s = (s_d, Returned ups) /\
         trace s_d = trace s ++ new_d /\
         dropbox_calls new = dropbox_calls new_d /\
         r1 = set_uploads ups (results s)
     else dropbox_calls new = [] /\ r1 = results s) /\
    (if notion (services s) then
       exists e o,
         n_entries = [e] /\ notion_calls new = [([r1], o)] /\
         synced_as "notion" e o
     else n_entries = [] /\ notion_calls new = []) /\
    (if obsidian (services s) then
       exists e o,
         o_entries = [e] /\
         obsidian_calls new = [([push_syncs n_entries r1], o)] /\
         synced_as "obsidian" e o
     else o_entries = [] /\ obsidian_calls new = []).
Proof.
  intros E T.
  destruct (sync_stage_spec s)
    as (s1 & new_d & new_n & new_o & r1 & n_entries & o_entries
        & E' & T' & Q & HD & HN & HO).
  rewrite E in E'. injection E' as <- ->. split; [done|].
  rewrite T in T'. apply app_inv_head in T' as ->.
  assert (Hd : notion_calls new_d = [] /\ obsidian_calls new_d = []).
  { destruct (dropbox (services s)); [|by destruct HD as (-> & _)].
    destruct HD as (s_d & ups & Eu & Tu & _).
    destruct (uploadToDropbox_spec W _ _ _ _ Eu) as (new' & ? & _ & Tu' & F & _).
    rewrite Tu in Tu'. apply app_inv_head in Tu' as <-.
    split; eapply omap_blind; try exact F; by intros []. }
  destruct Hd as (Hdn & Hdo).
  assert (Hn : dropbox_calls new_n = [] /\ obsidian_calls new_n = []).
  { destruct (notion (services s)); [|by destruct HN as (_ & ->)].
    by destruct HN as (? & ? & ? & _ & -> & _). }
  destruct Hn as (Hnd & Hno).
  assert (Ho : dropbox_calls new_o = [] /\ notion_calls new_o = []).
  { destruct (obsidian (services s)); [|by destruct HO as (_ & ->)].
    by destruct HO as (? & ? & ? & _ & -> & _). }
  destruct Ho as (Hod & Hon).
  exists r1, n_entries, o_entries. split; [exact Q|].
  unfold dropbox_calls, notion_calls, obsidian_calls in *.
  rewrite !omap_app, Hdn, Hdo, Hnd, Hno, Hod, Hon, !app_nil_r. cbn [app].
  split.
  { destruct (dropbox (services s)).
    - destruct HD as (s_d & ups & Eu & Tu & ->). by exists s_d, ups, new_d.
    - by destruct HD as (-> & ->). }
  split.
  { destruct (notion (services s)).
    - destruct HN as (e & o & t & -> & -> & Hs). by exists e, o.
    - by destruct HN as (-> & ->). }
  destruct (obsidian (services s)).
  - destruct HO as (e & o & t & -> & -> & Hs). by exists e, o.
  - by destruct HO as (-> & ->).
Qed.


Lemma uploaded_as_returned ups calls :
  Forall2 uploaded_as ups calls ->
  Forall (fun c => returned (snd c) = true) calls.
Proof.
  induction 1 as [|u c us cs (d & r & -> & _) _ IH]; constructor; done.
Qed.

Lemma thrown_not_returned {A B} (calls : list (A * outcome B)) b m :
  Forall (fun c => returned (snd c) = true) calls ->
  In (b, Thrown m) calls -> False.
Proof.
  intros F Hin. rewrite Forall_forall in F.
  apply list_elem_of_In in Hin. by specialize (F _ Hin).
Qed.


Lemma take_prefix {A} (pre : list A) d post :
  take (S (length pre)) (pre ++ d :: post) = pre ++ [d].
Proof. induction pre as [|x pre IH]; cbn; [done|]. by rewrite IH. Qed.

(** C6 (as amended) — the sync stage never throws.  It appends to the
    syncs of the run context one entry per enabled destination among
    Notion and Obsidian, in this order; each of the two is called exactly
    once when enabled, with a one-element batch holding the run context
    itself, whose downloads are all the recorded downloads, failed ones
    included.  Dropbox, when enabled, gets no entry in the syncs; it is
    called once per download that succeeded and has an output path, in
    order, each time with that download alone: either every such download
    is sent, every call returns and the uploads of the run context hold
    one entry per call, or the calls stop at the first one that throws.
    A destination that is not enabled is not called. *)
Theorem sync_stage_fanout s s' o new :
  sync_stage W s = (s', o) ->
  trace s' = trace s ++ new ->
  o = Returned tt /\
  exists entries r1 r2 n,
    syncs (results s') = syncs (results s) ++ entries /\
    map sync_type entries =
      (if notion (services s) then ["notion"] else []) ++
      (if obsidian (services s) then ["obsidian"] else []) /\
    map fst (notion_calls new) =
      (if notion (services s) then [[r1]] else []) /\
    map fst (obsidian_calls new) =
      (if obsidian (services s) then [[r2]] else []) /\
    downloads r1 = downloads (results s) /\
    downloads r2 = downloads (results s) /\
    if dropbox (services s) then
      map fst (dropbox_calls new) =
        map (fun d => [d])
            (take n (List.filter uploadable (downloads (results s)))) /\
      ((n = length (List.filter uploadable (downloads (results s))) /\
        Forall2 uploaded_as (uploads (results s')) (dropbox_calls new))
       \/
       (exists done b m,
          dropbox_calls new = done ++ [(b, Thrown m)] /\
          Forall (fun c => returned (snd c) = true) done))
    else
      dropbox_calls new = [] /\ uploads (results s') = uploads (results s).
Proof.
  intros E T.
  destruct (sync_stage_view s s' o new E T)
    as (-> & r1 & n_entries & o_entries & Q & HD & HN & HO).
  split; [done|].
  destruct (push_syncs_fields o_entries (push_syncs n_entries r1))
    as (Qs & _ & Qu & _).
  destruct (push_syncs_fields n_entries r1) as (Qs1 & Qd1 & Qu1 & _).
  rewrite <- Q in Qs, Qu. rewrite Qs1 in Qs. rewrite Qu1 in Qu.
  assert (Hr1 : downloads r1 = downloads (results s) /\
                syncs r1 = syncs (results s)).
  { destruct (dropbox (services s)).
    - by destruct HD as (? & ? & ? & _ & _ & _ & ->).
    - by destruct HD as (_ & ->). }
  destruct Hr1 as (Hr1d & Hr1s). rewrite Hr1s in Qs.
  assert (Hdb : exists n,
            if dropbox (services s) then
              map fst (dropbox_calls new) =
                map (fun d => [d])
                    (take n (List.filter uploadable (downloads (results s)))) /\
              ((n = length (List.filter uploadable (downloads (results s))) /\
                Forall2 uploaded_as (uploads (results s')) (dropbox_calls new))
               \/
               (exists done b m,
                  dropbox_calls new = done ++ [(b, Thrown m)] /\
                  Forall (fun c => returned (snd c) = true) done))
            else
              dropbox_calls new = [] /\
              uploads (results s') = uploads (results s)).
  { destruct (dropbox (services s)).
    2: { exists 0. destruct HD as (-> & ->). by split. }
    destruct HD as (s_d & ups & new_d & Eu & Tu & Hc & ->).
    rewrite Hc, Qu. cbn [uploads set_uploads].
    destruct (uploadToDropbox_spec W _ _ _ _ Eu)
      as (new' & ups' & [= <-] & Tu' & _ & _ & _ & H).
    rewrite Tu in Tu'. apply app_inv_head in Tu' as <-.
    destruct H as [(F & U)|(m' & t & pre & d & post & done & -> & Hf & Hcalls & Hm & Hdone)].
    - exists (length (List.filter uploadable (downloads (results s)))).
      rewrite firstn_all. split; [done|]. by left.
    - exists (S (length pre)). rewrite Hf, take_prefix, Hcalls.
      split; [by rewrite !map_app, Hm|]. right. by exists done, [d], m'. }
  destruct Hdb as (n & Hdb).
  exists (n_entries ++ o_entries), r1, (push_syncs n_entries r1), n.
  split; [by rewrite Qs, app_assoc|].
  split.
  { rewrite map_app. f_equal.
    - destruct (notion (services s)).
      + destruct HN as (e & ? & -> & _ & Hk & _). cbn. by rewrite Hk.
      + by destruct HN as (-> & _).
    - destruct (obsidian (services s)).
      + destruct HO as (e & ? & -> & _ & Hk & _). cbn. by rewrite Hk.
      + by destruct HO as (-> & _). }
  split.
  { destruct (notion (services s)).
    - by destruct HN as (? & ? & _ & -> & _).
    - by destruct HN as (_ & ->). }
  split.
  { destruct (obsidian (services s)).
    - by destruct HO as (? & ? & _ & -> & _).
    - by destruct HO as (_ & ->). }
  split; [done|]. split; [by rewrite Qd1|]. exact Hdb.
Qed.

Lemma uploadable_succeeded (ds : list DownloadEntry) :
  length (List.filter uploadable ds) <= length (List.filter dl_success ds) /\
  forall d, In d ds -> dl_success d = true -> uploadable d = false ->
    length (List.filter uploadable ds) < length (List.filter dl_success ds).
Proof.
  induction ds as [|x ds (IH1 & IH2)]; [cbn; split; [lia|by intros ? []]|].
  cbn [List.filter].
  assert (Hx : uploadable x = true -> dl_success x = true).
  { unfold uploadable. by intros (? & _)%andb_prop. }
  destruct (uploadable x) eqn:Hu, (dl_success x) eqn:Hs; cbn [length].
  - split; [lia|]. intros d [<-|Hin] Hsd Hud; [congruence|].
    specialize (IH2 d Hin Hsd Hud). lia.
  - by specialize (Hx eq_refl).
  - split; [lia|]. intros. lia.
  - split; [lia|]. intros d [<-|Hin] Hsd Hud; [congruence|]. eauto.
Qed.

Lemma uploaded_sources ups calls : forall l,
  Forall2 uploaded_as ups calls ->
  map fst calls = map (fun d => [d]) l ->
  map up_source ups = map dl_output_path l.
Proof.
  intros l F. revert l.
  induction F as [|u c us cs (d & r & -> & Hs & _) _ IH]; intros [|x l] Hm;
    try discriminate; [done|].
  cbn in Hm. injection Hm as <- Hm. cbn. by rewrite Hs, (IH l Hm).
Qed.

(** C9 — when a call to the Dropbox client throws, [uploadToDropbox]
    returns the single failed entry carrying the message of the error:
    the calls made before it had all returned, one per earlier uploadable
    download, yet none of their entries is kept; and the throwing call is
    the last one made, so the uploadable downloads after it are never
    sent. *)
Theorem uploadToDropbox_not_atomic ds s s' o new b m :
  uploadToDropbox W ds s = (s', o) ->
  trace s' = trace s ++ new ->
  In (b, Thrown m) (dropbox_calls new) ->
  exists t pre d post done,
    o = Returned [upload_failure m t] /\
    b = [d] /\
    List.filter uploadable ds = pre ++ d :: post /\
    dropbox_calls new = done ++ [([d], Thrown m)] /\
    map fst done = map (fun x => [x]) pre /\
    Forall (fun c => returned (snd c) = true) done.
Proof.
  intros E T Hin.
  destruct (uploadToDropbox_spec W _ _ _ _ E)
    as (new' & ups & -> & T' & _ & _ & _ & H).
  rewrite T in T'. apply app_inv_head in T' as <-.
  destruct H as [(F & _)|(m' & t & pre & d & post & done & -> & Hf & Hcalls & Hm & Hdone)].
  - destruct (thrown_not_returned _ _ _ (uploaded_as_returned _ _ F) Hin).
  - rewrite Hcalls in Hin. apply in_app_or in Hin as [Hin|[[= <- <-]|[]]].
    + destruct (thrown_not_returned _ _ _ Hdone Hin).
    + by exists t, pre, d, post, done.
Qed.

(** C10 — a download entry that succeeded but has no output path, or an
    empty one, is never part of a batch sent to Dropbox and is not among
    the downloads an upload entry is made for; the uploads returned are
    one per uploadable download, or the single failure entry, so they are
    fewer than the successful downloads. *)
Theorem upload_skips_missing_output_path ds s s' o new d :
  uploadToDropbox W ds s = (s', o) ->
  trace s' = trace s ++ new ->
  In d ds ->
  dl_success d = true ->
  truthy (dl_output_path d) = false ->
  exists ups,
    o = Returned ups /\
    (forall b out, In (b, out) (dropbox_calls new) -> ~ In d b) /\
    ~ In d (List.filter uploadable ds) /\
    (map up_source ups = map dl_output_path (List.filter uploadable ds) \/
     exists m t, ups = [upload_failure m t]) /\
    length ups <= length (List.filter uploadable ds) /\
    length ups < length (List.filter dl_success ds).
Proof.
  intros E T Hin Hs Hp.
  assert (Hu : uploadable d = false) by (unfold uploadable; by rewrite Hs, Hp).
  assert (Hnot : ~ In d (List.filter uploadable ds)).
  { intros H. apply filter_In in H as (_ & H). congruence. }
  destruct (uploadable_succeeded ds) as (_ & Hlt). specialize (Hlt d Hin Hs Hu).
  destruct (uploadToDropbox_spec W _ _ _ _ E)
    as (new' & ups & -> & T' & _ & _ & _ & H).
  rewrite T in T'. apply app_inv_head in T' as <-.
  exists ups. split; [done|].
  assert (Hsent : exists l,
            map fst (dropbox_calls new) = map (fun x => [x]) l /\
            incl l (List.filter uploadable ds) /\
            length ups <= length l /\
            (map up_source ups = map dl_output_path (List.filter uploadable ds) \/
             exists m t, ups = [upload_failure m t])).
  { destruct H as [(F & U)|(m' & t & pre & x & post & done & -> & Hf & Hcalls & Hm & Hdone)].
    - exists (List.filter uploadable ds). split; [done|].
      split; [apply incl_refl|].
      pose proof (uploaded_sources _ _ _ F U) as Hsrc.
      split; [|by left].
      apply (f_equal length) in Hsrc. rewrite !length_map in Hsrc. lia.
    - exists (pre ++ [x]). rewrite Hcalls, !map_app, Hm. split; [done|].
      split; [rewrite Hf; intros y Hy; apply in_app_or in Hy as [Hy|[<-|[]]];
              apply in_or_app; [by left|right; by left]|].
      split; [rewrite length_app; cbn; lia|]. right. by exists m', t. }
  destruct Hsent as (l & Hcalls & Hincl & Hlen & Hsrc).
  assert (Hle : length l <= length (List.filter uploadable ds)).
  { apply (f_equal length) in Hcalls. rewrite !length_map in Hcalls.
    destruct H as [(F & U)|(m' & t & pre & x & post & done & -> & Hf & Hc & Hm & Hdone)].
    - apply (f_equal length) in U. rewrite !length_map in U. lia.
    - rewrite Hc, length_app in Hcalls. cbn in Hcalls.
      apply (f_equal length) in Hm. rewrite !length_map in Hm.
      rewrite Hf, length_app. cbn. lia. }
  split.
  { intros b out Hb Hd.
    assert (Hb' : In b (map fst (dropbox_calls new))).
    { apply in_map_iff. by exists (b, out). }
    rewrite Hcalls in Hb'. apply in_map_iff in Hb' as (y & <- & Hy).
    destruct Hd as [->|[]]. by apply Hnot, Hincl. }
  split; [done|]. split; [done|]. lia.
Qed.

End Claims.







(** * The claims on concrete runs *)

Section Runs.

Import Scenarios.

(** Targets A and B, A downloads three files and B is not found: the run
    returns, marked successful, with one entry per target. *)
Example partial_run_outcome :
  match snd (execute partial_run) with
  | Returned r =>
      success r = true /\
      map dl_url (downloads r) = ["A"; "B"] /\
      map dl_success (downloads r) = [true; false] /\
      map dl_error (downloads r) = [None; Some "not found"] /\
      map sync_type (syncs r) = ["notion"; "obsidian"] /\
      map sync_success (syncs r) = [true; false] /\
      (total_files <$> summary r) = Some 3 /\
      (successful_downloads <$> summary r) = Some 1 /\
      (failed_downloads <$> summary r) = Some 1 /\
      ((fun m => services_status m !! "dropbox") <$> summary r) =
        Some (Some (UploadStatus true 1 1))
  | Thrown _ => False
  end.
Proof. by vm_compute. Qed.









(** C6, as stated, fails: no download succeeded, Dropbox and Notion are
    enabled; Dropbox is never called, a single entry is appended to the
    syncs, and the batch given to Notion holds the run context with the two
    failed downloads. *)
Lemma destinations_not_given_successful_batch :
  dropbox (services (fst (execute nothing_downloaded))) = true /\
  notion (services (fst (execute nothing_downloaded))) = true /\
  existsb dl_success (downloads (results (fst (execute nothing_downloaded)))) = false /\
  dropbox_calls (trace (fst (execute nothing_downloaded))) = [] /\
  length (syncs (results (fst (execute nothing_downloaded)))) = 1 /\
  map (fun c => map (fun r => map dl_success (downloads r)) (fst c))
      (notion_calls (trace (fst (execute nothing_downloaded)))) =
    [[[false; false]]].
Proof. by vm_compute. Qed.

Lemma sync_stage_fanout_witness :
  sync_stage partial_run
    (initialized partial_run (config_of ["A"; "B"] true true true) one_of_two) =
    (fst (sync_stage partial_run
            (initialized partial_run (config_of ["A"; "B"] true true true) one_of_two)),
     Returned tt) /\
  map fst
    (dropbox_calls
       (added (sync_stage partial_run)
          (initialized partial_run (config_of ["A"; "B"] true true true) one_of_two))) =
    [[entry_ok "A" (Some "./figma-backups/A")]] /\
  map sync_type
    (syncs (results
       (fst (sync_stage partial_run
               (initialized partial_run (config_of ["A"; "B"] true true true)
                  one_of_two))))) = ["notion"; "obsidian"].
Proof.
  split; [by vm_compute|].
  destruct (sync_stage_fanout partial_run
              (initialized partial_run (config_of ["A"; "B"] true true true) one_of_two)
              (fst (sync_stage partial_run
                      (initialized partial_run (config_of ["A"; "B"] true true true)
                         one_of_two)))
              (Returned tt)
              (added (sync_stage partial_run)
                 (initialized partial_run (config_of ["A"; "B"] true true true)
                    one_of_two)))
    as (_ & entries & r1 & r2 & n & Hs & Ht & _); [by vm_compute..|].
  split; [by vm_compute|]. rewrite Hs, map_app, Ht. reflexivity.
Defined.


Lemma generateSummary_pure_witness :
  exists sm,
    generateSummary partial_run
      (initialized partial_run (config_of ["A"; "B"] true true true) one_of_two) =
      (initialized partial_run (config_of ["A"; "B"] true true true) one_of_two,
       Returned sm) /\
    generateSummary partial_run
      (add_event (EvNotifyError "late")
         (initialized partial_run (config_of ["A"; "B"] true true true) one_of_two)) =
      (add_event (EvNotifyError "late")
         (initialized partial_run (config_of ["A"; "B"] true true true) one_of_two),
       Returned sm).
Proof.
  destruct (generateSummary_pure partial_run
              (initialized partial_run (config_of ["A"; "B"] true true true) one_of_two)
              (add_event (EvNotifyError "late")
                 (initialized partial_run (config_of ["A"; "B"] true true true)
                    one_of_two)))
    as (sm & H1 & _ & H2); [by vm_compute..|].
  by exists sm.
Defined.

Lemma uploadToDropbox_not_atomic_witness :
  In ([entry_ok "B" (Some "./figma-backups/B")], Thrown "quota exceeded")
     (dropbox_calls
        (added (uploadToDropbox upload_interrupted three_stored)
           (initialized upload_interrupted
              (config_of ["A"; "B"; "C"] true false false) three_stored))) /\
  exists t pre d post done,
    snd (uploadToDropbox upload_interrupted three_stored
           (initialized upload_interrupted
              (config_of ["A"; "B"; "C"] true false false) three_stored)) =
      Returned [upload_failure "quota exceeded" t] /\
    [entry_ok "B" (Some "./figma-backups/B")] = [d] /\
    List.filter uploadable three_stored = pre ++ d :: post /\
    dropbox_calls
      (added (uploadToDropbox upload_interrupted three_stored)
         (initialized upload_interrupted
            (config_of ["A"; "B"; "C"] true false false) three_stored)) =
      done ++ [([d], Thrown "quota exceeded")] /\
    map fst done = map (fun x => [x]) pre /\
    Forall (fun c => returned (snd c) = true) done.
Proof.
  split; [vm_compute; right; by left|].
  apply (uploadToDropbox_not_atomic upload_interrupted three_stored
           (initialized upload_interrupted
              (config_of ["A"; "B"; "C"] true false false) three_stored)
           (fst (uploadToDropbox upload_interrupted three_stored
                   (initialized upload_interrupted
                      (config_of ["A"; "B"; "C"] true false false) three_stored)))).
  - by destruct (uploadToDropbox upload_interrupted three_stored _).
  - by vm_compute.
  - vm_compute. right. by left.
Defined.

Lemma upload_skips_missing_output_path_witness :
  In (entry_ok "B" None) three_found /\
  dl_success (entry_ok "B" None) = true /\
  truthy (dl_output_path (entry_ok "B" None)) = false /\
  exists ups,
    snd (uploadToDropbox output_path_missing three_found
           (initialized output_path_missing
              (config_of ["A"; "B"; "C"] true false false) three_found)) =
      Returned ups /\
    length ups < length (List.filter dl_success three_found).
Proof.
  split; [right; by left|]. split; [done|]. split; [done|].
  destruct (upload_skips_missing_output_path output_path_missing three_found
              (initialized output_path_missing
                 (config_of ["A"; "B"; "C"] true false false) three_found)
              (fst (uploadToDropbox output_path_missing three_found
                      (initialized output_path_missing
                         (config_of ["A"; "B"; "C"] true false false) three_found)))
              (snd (uploadToDropbox output_path_missing three_found
                      (initialized output_path_missing
                         (config_of ["A"; "B"; "C"] true false false) three_found)))
              (added (uploadToDropbox output_path_missing three_found)
                 (initialized output_path_missing
                    (config_of ["A"; "B"; "C"] true false false) three_found))
              (entry_ok "B" None))
    as (ups & Ho & _ & _ & _ & _ & Hlt).
  - by destruct (uploadToDropbox output_path_missing three_found _).
  - by vm_compute.
  - right. by left.
  - done.
  - done.
  - by exists ups.
Defined.

End Runs.

(** * Further properties of the orchestrator *)

Section Probing.

Variable W : Env.

(** Everything [validateServices] does, read off the probes it made. *)
Lemma validateServices_full s :
  exists s' v new,
    validateServices W s = (s', Returned v) /\
    trace s' = trace s ++ new /\
    new = map (fun c => EvValidate (fst c) (snd c)) (probe_calls new) /\
    stops_at_first_throw (expected_probes (services s)) (probe_calls new) /\
    wiring s' = wiring s /\ results s' = results s /\
    match first_thrown (probe_calls new) with
    | Some m =>
        v = mkValidationReport false None (Some m) /\
        written_log s' =
          written_log s ++
            [mkLogEntry LError "服務驗證過程中發生錯誤" [("error", m)]]
    | None =>
        v = mkValidationReport
              (forallb v_valid (validations_of (probe_calls new)))
              (Some (validations_of (probe_calls new))) None /\
        written_log s' =
          written_log s ++
            [if forallb v_valid (validations_of (probe_calls new))
             then mkLogEntry LSuccess "所有服務驗證通過" []
             else mkLogEntry LWarn
                    ("部分服務驗證失敗: " +:+
                       String.concat ", " (failed_probes (probe_calls new))) []]
    end.
Proof.
  unfold validateServices, try_catch, bind, probe_service, call, gets, ret,
    log, modify, expected_probes, stops_at_first_throw.
  cbv zeta.
  destruct (probe W (trace s) "Figma") as [[v1]|m1]; cbn [trace add_event services].
  2: { do 3 eexists. split; [reflexivity|]. split; [reflexivity|]. cbn.
       repeat split; eauto. }
  destruct (dropbox (services s)), (notion (services s)), (obsidian (services s));
    cbn [trace add_event services];
    repeat match goal with
    | |- context [probe W ?t ?n] =>
        destruct (probe W t n) as [[[]]|?]; cbn [trace add_event services]
    end;
    destruct v1;
    (do 3 eexists; split; [reflexivity|]; split;
     [cbn [trace add_event add_log]; rewrite <- ?app_assoc; reflexivity|];
     cbn; repeat split; eauto).
Qed.

End Probing.

Section Initializing.

Variable W : Env.

(** Everything [initializeServices] does, read off the constructors it
    called. *)
Lemma initializeServices_full s cfg :
  config s = Some cfg ->
  exists s' o new,
    initializeServices W s = (s', o) /\
    trace s' = trace s ++ new /\
    new = map (fun c => EvNewService (fst c) (snd c)) (constructor_calls new) /\
    stops_at_first_throw (expected_constructors cfg) (constructor_calls new) /\
    (config s', logger s', notificationService s') =
      (config s, logger s, notificationService s) /\
    results s' = results s /\
    match first_thrown (constructor_calls new) with
    | Some m =>
        o = Thrown ("服務初始化失敗: " +:+ m) /\
        written_log s' = written_log s
    | None =>
        o = Returned tt /\
        figma (services s') = true /\
        dropbox (services s') =
          (if dropbox_enabled cfg then true else dropbox (services s)) /\
        notion (services s') =
          (if notion_enabled cfg then true else notion (services s)) /\
        obsidian (services s') =
          (if obsidian_enabled cfg then true else obsidian (services s)) /\
        written_log s' =
          written_log s ++ [mkLogEntry LInfo "🔧 所有服務已初始化" []]
    end.
Proof.
  intros Hc.
  unfold initializeServices, try_catch, bind, the_config, call, gets, ret,
    log, modify, throw, expected_constructors, stops_at_first_throw.
  rewrite Hc. cbv zeta.
  destruct (new_service W (trace s) "FigmaApiWrapper") as [[]|m1];
    cbn [trace add_event with_services services].
  2: { do 3 eexists. split; [reflexivity|]. split; [reflexivity|]. cbn.
       rewrite Hc. repeat split; eauto. }
  destruct (dropbox_enabled cfg), (notion_enabled cfg), (obsidian_enabled cfg);
    cbn [trace add_event with_services services];
    repeat match goal with
    | |- context [new_service W ?t ?n] =>
        destruct (new_service W t n) as [[]|?];
        cbn [trace add_event with_services services]
    end;
    (do 3 eexists; split; [reflexivity|]; split;
     [cbn [trace add_event add_log with_services];
      rewrite <- ?app_assoc; reflexivity|];
     cbn; rewrite Hc; repeat split; eauto).
Qed.

(** [initialize], from the answer of the configuration loader on. *)
Lemma initialize_full s :
  exists s' o new,
    initialize W s = (s', o) /\
    trace s' = trace s ++ new /\
    results s' = results s /\
    match loadConfig W (trace s) with
    | Thrown m =>
        o = Thrown m /\ new = [EvLoadConfig (Thrown m)] /\
        wiring s' = wiring s /\ written_log s' = written_log s
    | Returned cfg =>
        config s' = Some cfg /\ logger s' = true /\
        notificationService s' = true /\
        exists new_c,
          new = EvLoadConfig (Returned cfg) :: new_c /\
          new_c = map (fun c => EvNewService (fst c) (snd c))
                      (constructor_calls new_c) /\
          stops_at_first_throw (expected_constructors cfg)
            (constructor_calls new_c) /\
          match first_thrown (constructor_calls new_c) with
          | Some m =>
              o = Thrown ("服務初始化失敗: " +:+ m) /\
              written_log s' = written_log s
          | None =>
              o = Returned true /\
              figma (services s') = true /\
              dropbox (services s') =
                (if dropbox_enabled cfg then true else dropbox (services s)) /\
              notion (services s') =
                (if notion_enabled cfg then true else notion (services s)) /\
              obsidian (services s') =
                (if obsidian_enabled cfg then true else obsidian (services s))
          end
    end.
Proof.
  unfold initialize, try_catch, bind at 1, call. cbv zeta.
  destruct (loadConfig W (trace s)) as [cfg|m].
  2: { do 3 eexists. split; [reflexivity|]. by cbn. }
  unfold bind at 1, modify at 1. cbv beta iota.
  unfold bind at 1, modify at 1. cbv beta iota.
  unfold bind at 1, modify at 1. cbv beta iota.
  unfold bind at 1.
  match goal with
  | |- context [initializeServices W ?s0] =>
      destruct (initializeServices_full s0 cfg eq_refl)
        as (s1 & o1 & new_c & E & T & Hn & Hp & Hw & Hr & H)
  end.
  rewrite E. cbn in T, Hw, Hr. injection Hw as Hc Hl Hns.
  destruct (first_thrown (constructor_calls new_c)) as [m|] eqn:Hf.
  - destruct H as (-> & Hlog). unfold throw.
    exists s1, (Thrown ("服務初始化失敗: " +:+ m)), (EvLoadConfig (Returned cfg) :: new_c).
    split; [done|]. split; [by rewrite T, <- app_assoc|]. split; [done|].
    do 3 (split; [done|]). exists new_c. by rewrite Hf.
  - destruct H as (-> & Hfig & Hd & Hno & Hob & _).
    eexists _, _, (EvLoadConfig (Returned cfg) :: new_c).
    split; [reflexivity|]. cbn.
    split; [by rewrite T, <- app_assoc|]. split; [done|].
    do 3 (split; [done|]). exists new_c. by rewrite Hf.
Qed.

End Initializing.

Section Gate.

Variable W : Env.

Lemma first_thrown_none {A B} (calls : list (A * outcome B)) :
  first_thrown calls = None ->
  Forall (fun c => returned (snd c) = true) calls.
Proof.
  induction calls as [|[a [b|m]] l IH]; cbn; [constructor| |discriminate].
  intros H. constructor; [done|]. by apply IH.
Qed.

Lemma first_thrown_some {A B} (calls : list (A * outcome B)) m :
  first_thrown calls = Some m -> exists a, In (a, Thrown m) calls.
Proof.
  induction calls as [|[a [b|m']] l IH]; cbn; [discriminate| |].
  - intros H. destruct (IH H) as [a' Ha]. exists a'. by right.
  - intros [= ->]. exists a. by left.
Qed.

Lemma none_thrown {A B} (calls : list (A * outcome B)) a m :
  first_thrown calls = None -> In (a, Thrown m) calls -> False.
Proof.
  intros Hn Hin. apply first_thrown_none in Hn.
  by apply (proj1 (List.Forall_forall _ _) Hn) in Hin.
Qed.

(** Among calls that stop at the first throw, a call that threw is the
    last one, and the first one that threw. *)
Lemma thrown_is_last {B} expected (calls : list (string * outcome B)) a m :
  stops_at_first_throw expected calls ->
  In (a, Thrown m) calls ->
  first_thrown calls = Some m /\
  last calls = Some (a, Thrown m) /\
  Forall (fun c => returned (snd c) = true) (take (length calls - 1) calls).
Proof.
  intros [_ H] Hin.
  destruct (first_thrown calls) as [m'|] eqn:Hf.
  2: { destruct (none_thrown _ _ _ Hf Hin). }
  destruct H as ([n Hl] & Hp).
  pose proof Hl as Hl'. apply last_Some in Hl' as [l' ->].
  rewrite length_app in Hp |- *. cbn [length] in Hp |- *.
  replace (length l' + 1 - 1) with (length l') in Hp |- * by lia.
  rewrite take_app_length in Hp |- *.
  apply in_app_or in Hin as [Hin|[Heq|[]]].
  { destruct (none_thrown _ _ _ Hp Hin). }
  injection Heq as <- <-. split; [done|]. split; [done|].
  by apply first_thrown_none.
Qed.

(** The validation gate of a fresh system, from the answers of the
    loader, the constructors and the probes. *)
Lemma validation_gate_full :
  exists s1 o,
    validation_gate W (new_FigmaBackupSystem W) = (s1, o) /\
    results s1 = results (new_FigmaBackupSystem W) /\
    match loadConfig W (trace (new_FigmaBackupSystem W)) with
    | Thrown m =>
        o = Thrown m /\
        trace s1 = trace (new_FigmaBackupSystem W) ++ [EvLoadConfig (Thrown m)] /\
        logger s1 = false /\ notificationService s1 = false /\
        written_log s1 = []
    | Returned cfg =>
        config s1 = Some cfg /\ logger s1 = true /\
        notificationService s1 = true /\
        exists new_c,
          new_c = map (fun c => EvNewService (fst c) (snd c))
                      (constructor_calls new_c) /\
          stops_at_first_throw (expected_constructors cfg)
            (constructor_calls new_c) /\
          match first_thrown (constructor_calls new_c) with
          | Some m =>
              o = Thrown ("服務初始化失敗: " +:+ m) /\
              trace s1 =
                trace (new_FigmaBackupSystem W) ++
                  EvLoadConfig (Returned cfg) :: new_c /\
              written_log s1 = []
          | None =>
              services s1 =
                mkServices true (dropbox_enabled cfg) (notion_enabled cfg)
                           (obsidian_enabled cfg) /\
              exists new_p,
                trace s1 =
                  trace (new_FigmaBackupSystem W) ++
                    EvLoadConfig (Returned cfg) :: new_c ++
                    EvNotifyStart (backup_targets cfg) :: new_p /\
                new_p = map (fun c => EvValidate (fst c) (snd c))
                            (probe_calls new_p) /\
                stops_at_first_throw (expected_probes (services s1))
                  (probe_calls new_p) /\
                match first_thrown (probe_calls new_p) with
                | Some m =>
                    o = Thrown gate_message /\
                    last (written_log s1) =
                      Some (mkLogEntry LError "服務驗證過程中發生錯誤"
                              [("error", m)])
                | None =>
                    o = (if forallb v_valid (validations_of (probe_calls new_p))
                         then Returned tt else Thrown gate_message) /\
                    last (written_log s1) =
                      Some (if forallb v_valid (validations_of (probe_calls new_p))
                            then mkLogEntry LSuccess "所有服務驗證通過" []
                            else mkLogEntry LWarn
                                   ("部分服務驗證失敗: " +:+
                                      String.concat ", "
                                        (failed_probes (probe_calls new_p))) [])
                end
          end
    end.
Proof.
  set (s0 := new_FigmaBackupSystem W).
  destruct (validation_gate W s0) as [s1 o] eqn:E. exists s1, o.
  split; [done|].
  split; [exact (preserves_run results _ _ _ _ (validation_gate_results W) E)|].
  revert E.
  destruct (initialize_full W s0) as (si & oi & ni & Ei & Ti & Ri & Hi).
  unfold validation_gate.
  destruct (loadConfig W (trace s0)) as [cfg|m].
  2: { destruct Hi as (-> & -> & Hw & Hl).
       rewrite (bind_thrown _ _ _ _ _ Ei). intros [= <- <-].
       unfold wiring in Hw. injection Hw as _ Hlg Hns _. by repeat split. }
  destruct Hi as (Hc & Hl & Hns & new_c & -> & Hn & Hp & Hi).
  destruct (first_thrown (constructor_calls new_c)) as [m|] eqn:Hf.
  { destruct Hi as (-> & Hlog).
    rewrite (bind_thrown _ _ _ _ _ Ei). intros [= <- <-].
    do 3 (split; [done|]). exists new_c. by rewrite Hf. }
  destruct Hi as (-> & Hfig & Hd & Hno & Hob).
  rewrite (bind_returned _ _ _ _ _ Ei).
  unfold bind at 1, the_config. rewrite Hc.
  unfold bind at 1, notification, modify. cbv beta iota.
  set (s2 := add_event (EvNotifyStart (backup_targets cfg)) si).
  destruct (validateServices_full W s2)
    as (s3 & v & new_p & Ev & Tv & Hnp & Hpp & Hw & Hr & Hv).
  rewrite (bind_returned _ _ _ _ _ Ev).
  unfold wiring in Hw. injection Hw as Hc3 Hl3 Hn3 Hs3. cbn in Hc3, Hl3, Hn3, Hs3.
  assert (Hsv : services s3 =
                mkServices true (dropbox_enabled cfg) (notion_enabled cfg)
                           (obsidian_enabled cfg)).
  { rewrite Hs3. destruct (services si) as [f d n ob]. cbn in *.
    rewrite Hfig, Hd, Hno, Hob.
    by destruct (dropbox_enabled cfg), (notion_enabled cfg), (obsidian_enabled cfg). }
  assert (HT : trace s3 =
               trace s0 ++ EvLoadConfig (Returned cfg) :: new_c ++
                 EvNotifyStart (backup_targets cfg) :: new_p).
  { rewrite Tv. subst s2. cbn [trace add_event]. rewrite Ti.
    by rewrite <- !app_assoc. }
  assert (Hs2 : services s2 = services s3) by (by rewrite Hs3).
  rewrite Hs2 in Hpp.
  intros E.
  assert (Hs1 : s1 = s3).
  { revert E. destruct (vr_success v); unfold ret, throw; by intros [= <- _]. }
  subst s1.
  split; [congruence|]. split; [congruence|]. split; [congruence|].
  exists new_c. split; [done|]. split; [done|]. rewrite Hf.
  split; [done|]. exists new_p. do 3 (split; [done|]).
  destruct (first_thrown (probe_calls new_p)) as [m|] eqn:Hfp.
  - destruct Hv as (-> & Hlog). cbn [vr_success] in E. injection E as <-.
    split; [done|]. rewrite Hlog. by rewrite last_snoc.
  - destruct Hv as (-> & Hlog). cbn [vr_success] in E.
    split; [|rewrite Hlog; by rewrite last_snoc].
    revert E. destruct (forallb v_valid (validations_of (probe_calls new_p)));
      unfold ret, throw; by intros [= <-].
Qed.

End Gate.

Section Segments.

Variable W : Env.

Lemma saveExecutionReport_persists : emits during_persist (saveExecutionReport W).
Proof. unfold saveExecutionReport. emit. Qed.

Lemma download_stage_wiring : preserves wiring (download_stage W).
Proof.
  unfold download_stage, downloadFigmaFiles. frame. by apply download_loop_frame.
Qed.

Lemma sync_stage_wiring : preserves wiring (sync_stage W).
Proof.
  unfold sync_stage, dropbox_step, notion_step, obsidian_step. frame.
  by apply upload_loop_frame.
Qed.

Lemma aggregate_wiring : preserves wiring (aggregate W).
Proof. unfold aggregate. frame. Qed.

(** A run, block by block, with the events each block added. *)
Lemma execute_segments :
  exists s1 o1,
    validation_gate W (new_FigmaBackupSystem W) = (s1, o1) /\
    match o1 with
    | Thrown m => execute W = run_catch m s1
    | Returned _ =>
        exists s2 s3 s4 s5 o5 n2 n3 n4 n5,
          download_stage W s1 = (s2, Returned tt) /\
          trace s2 = trace s1 ++ n2 /\
          Forall (fun e => during_download (origin e) = true) n2 /\
          sync_stage W s2 = (s3, Returned tt) /\
          trace s3 = trace s2 ++ n3 /\
          Forall (fun e => during_sync (origin e) = true) n3 /\
          aggregate W s3 = (s4, Returned tt) /\
          trace s4 = trace s3 ++ n4 /\
          Forall (fun e => during_aggregation (origin e) = true) n4 /\
          saveExecutionReport W s4 = (s5, o5) /\
          trace s5 = trace s4 ++ n5 /\
          Forall (fun e => during_persist (origin e) = true) n5 /\
          wiring s2 = wiring s1 /\ wiring s3 = wiring s1 /\
          wiring s4 = wiring s1 /\ wiring s5 = wiring s1 /\
          logger s1 = true /\ notificationService s1 = true /\
          execute W =
            match o5 with
            | Returned _ =>
                (add_event (EvNotifyComplete (downloads (results s5))) s5,
                 Returned (results s5))
            | Thrown m =>
                (add_event (EvNotifyError m)
                   (add_log (mkLogEntry LError "備份執行失敗" [("error", m)])
                      (with_results (fun r => push_error m (set_success false r)) s5)),
                 Thrown m)
            end
    end.
Proof.
  destruct (execute_cases W)
    as [(s1 & m & E1 & E)
       |(s1 & s2 & s3 & s4 & s5 & o & E1 & E2 & E3 & E4 & E5 & Hl & Hn & E)].
  { exists s1, (Thrown m). by split. }
  exists s1, (Returned tt). split; [done|].
  destruct (emits_run _ _ _ _ _ (download_stage_emits W) E2) as (n2 & T2 & F2).
  destruct (emits_run _ _ _ _ _ (sync_stage_emits W) E3) as (n3 & T3 & F3).
  destruct (emits_run _ _ _ _ _ (aggregate_emits W) E4) as (n4 & T4 & F4).
  destruct (emits_run _ _ _ _ _ saveExecutionReport_persists E5) as (n5 & T5 & F5).
  pose proof (preserves_run _ _ _ _ _ download_stage_wiring E2) as W2.
  pose proof (preserves_run _ _ _ _ _ sync_stage_wiring E3) as W3.
  pose proof (preserves_run _ _ _ _ _ aggregate_wiring E4) as W4.
  pose proof (preserves_run _ _ _ _ _
                (saveExecutionReport_frame W wiring (fun _ _ => eq_refl)
                   (fun _ _ => eq_refl)) E5) as W5.
  assert (Hw5 : wiring s5 = wiring s1) by congruence.
  assert (Hl1 : logger s1 = true /\ notificationService s1 = true).
  { unfold wiring in Hw5. injection Hw5 as _ <- <- _. by split. }
  exists s2, s3, s4, s5, o, n2, n3, n4, n5.
  do 12 (split; [done|]).
  split; [done|]. split; [congruence|]. split; [congruence|].
  split; [done|]. split; [tauto|]. split; [tauto|].
  rewrite E. destruct o; [done|]. by apply run_catch_ready.
Qed.

End Segments.


(** * Properties of the validation of the services *)

Section Validation.

Variable W : Env.

Lemma probe_threw_first (calls : list (string * outcome Validation)) :
  probe_threw calls = false -> first_thrown calls = None.
Proof.
  induction calls as [|[n [v|m]] l IH]; cbn; [done| |discriminate].
  exact IH.
Qed.

Lemma validations_of_returned (calls : list (string * outcome Validation)) :
  first_thrown calls = None ->
  map service (validations_of calls) = map fst calls /\
  map (fun v => Returned (mkValidation (v_valid v))) (validations_of calls) =
    map snd calls /\
  (forallb v_valid (validations_of calls) = true <-> failed_probes calls = []).
Proof.
  unfold validations_of, failed_probes.
  induction calls as [|[n [[b]|m]] l IH]; cbn; [done| |discriminate].
  intros H. destruct (IH H) as (-> & -> & Hiff). do 2 (split; [done|]).
  destruct b; cbn; [exact Hiff|]. split; discriminate.
Qed.

(** X1 — a readiness probe that throws does not make [validateServices]
    throw: the method returns the report [{success: false, error}] with the
    probe's message and without a list of validations, whatever the
    earlier probes answered.  The throwing probe is the last one made (the
    services after it are not probed), the probes before it all returned,
    the message is written to the error log, and the run context is left
    as it was. *)
Theorem validateServices_throwing_probe_ends_probing s s' o new n m :
  validateServices W s = (s', o) ->
  trace s' = trace s ++ new ->
  In (n, Thrown m) (probe_calls new) ->
  o = Returned (mkValidationReport false None (Some m)) /\
  last (probe_calls new) = Some (n, Thrown m) /\
  Forall (fun c => returned (snd c) = true)
         (take (length (probe_calls new) - 1) (probe_calls new)) /\
  map fst (probe_calls new) =
    take (length (probe_calls new)) (expected_probes (services s)) /\
  written_log s' =
    written_log s ++
      [mkLogEntry LError "服務驗證過程中發生錯誤" [("error", m)]] /\
  results s' = results s.
Proof.
  intros E T Hin.
  destruct (validateServices_full W s)
    as (s1 & v & new1 & E1 & T1 & _ & Hstop & _ & Hr & Hv).
  rewrite E in E1. injection E1 as <- ->.
  rewrite T in T1. apply app_inv_head in T1 as <-.
  destruct (thrown_is_last _ _ _ _ Hstop Hin) as (Hf & Hl & Hp).
  rewrite Hf in Hv. destruct Hv as (-> & Hlog).
  destruct Hstop as [Hnames _]. done.
Qed.

(** X2 — when no probe throws, [validateServices] probes Figma and then
    exactly the destinations that were constructed, once each, in the
    order Dropbox, Notion, Obsidian; a destination that was not
    constructed is not probed.  The report lists one validation per probe
    under the service's name with the answer of its probe, [success] is
    the conjunction of the answers (true exactly when no probe answered
    [valid = false]), and one line is logged: a success line, or a warning
    naming the services that failed. *)
Theorem validateServices_probes_constructed_services s s' o new :
  validateServices W s = (s', o) ->
  trace s' = trace s ++ new ->
  probe_threw (probe_calls new) = false ->
  map fst (probe_calls new) = expected_probes (services s) /\
  exists vs,
    o = Returned (mkValidationReport (forallb v_valid vs) (Some vs) None) /\
    map service vs = expected_probes (services s) /\
    map (fun v => Returned (mkValidation (v_valid v))) vs =
      map snd (probe_calls new) /\
    (forallb v_valid vs = true <-> failed_probes (probe_calls new) = []) /\
    written_log s' =
      written_log s ++
        [if forallb v_valid vs
         then mkLogEntry LSuccess "所有服務驗證通過" []
         else mkLogEntry LWarn
                ("部分服務驗證失敗: " +:+
                   String.concat ", " (failed_probes (probe_calls new))) []].
Proof.
  intros E T Hno. apply probe_threw_first in Hno.
  destruct (validateServices_full W s)
    as (s1 & v & new1 & E1 & T1 & _ & Hstop & _ & Hr & Hv).
  rewrite E in E1. injection E1 as <- ->.
  rewrite T in T1. apply app_inv_head in T1 as <-.
  destruct Hstop as [_ Hstop]. rewrite Hno in Hstop, Hv.
  destruct Hv as (-> & Hlog).
  destruct (validations_of_returned _ Hno) as (Hs & Ha & Hiff).
  split; [done|]. exists (validations_of (probe_calls new)).
  split; [done|]. split; [congruence|]. done.
Qed.

End Validation.


(** * Properties of whole runs *)

Section Whole.

Variable W : Env.

Lemma run_catch_unready m s :
  logger s = false ->
  run_catch m s =
    (with_results (fun r => push_error m (set_success false r)) s,
     Thrown (null_deref "error")).
Proof.
  intros Hl. unfold run_catch, bind, modify_results, modify, gets, log,
    notification, throw.
  cbn. rewrite Hl. reflexivity.
Qed.

Lemma run_catch_half_ready m s :
  logger s = true -> notificationService s = false ->
  run_catch m s =
    (add_log (mkLogEntry LError "備份執行失敗" [("error", m)])
       (with_results (fun r => push_error m (set_success false r)) s),
     Thrown (null_deref "notifyBackupError")).
Proof.
  intros Hl Hn. unfold run_catch, bind, modify_results, modify, gets, log,
    notification, throw.
  cbn. rewrite Hl. cbn. rewrite Hn. reflexivity.
Qed.

Lemma aggregate_lists : preserves (fun s => lists_of (results s)) (aggregate W).
Proof. unfold aggregate. frame. Qed.

(** The trace of a run: what the gate left, then the calls of the work
    blocks, then the closing notification. *)
Lemma execute_trace :
  exists s1 o1 work,
    validation_gate W (new_FigmaBackupSystem W) = (s1, o1) /\
    Forall (fun e => during_work (origin e) = true) work /\
    (returned o1 = false -> work = [] /\ reports_written work = []) /\
    trace (fst (execute W)) =
      trace s1 ++ work ++
        closing_notice (logger s1 && notificationService s1) (snd (execute W)) /\
    match o1 with
    | Thrown m =>
        results (fst (execute W)) =
          push_error m (set_success false (results s1)) /\
        (logger s1 = true -> notificationService s1 = true ->
         snd (execute W) = Thrown m /\
         written_log (fst (execute W)) =
           written_log s1 ++ [mkLogEntry LError "備份執行失敗" [("error", m)]])
    | Returned _ =>
        logger s1 = true /\ notificationService s1 = true /\
        exists s2 s3 n2 n3 n45,
          work = n2 ++ n3 ++ n45 /\
          download_stage W s1 = (s2, Returned tt) /\
          trace s2 = trace s1 ++ n2 /\
          Forall (fun e => during_download (origin e) = true) n2 /\
          sync_stage W s2 = (s3, Returned tt) /\
          trace s3 = trace s2 ++ n3 /\
          Forall (fun e => during_sync (origin e) = true) n3 /\
          Forall (fun e => during_persist (origin e) = true) n45 /\
          wiring s2 = wiring s1 /\
          lists_of (results (fst (execute W))) = lists_of (results s3)
    end.
Proof.
  destruct (execute_segments W) as (s1 & o1 & G & S).
  destruct o1 as [[]|m].
  - destruct S as (s2 & s3 & s4 & s5 & o5 & n2 & n3 & n4 & n5
                   & E2 & T2 & F2 & E3 & T3 & F3 & E4 & T4 & F4 & E5 & T5 & F5
                   & W2 & _ & _ & _ & Hl & Hn & E).
    exists s1, (Returned tt), (n2 ++ n3 ++ n4 ++ n5).
    split; [done|].
    split.
    { repeat apply Forall_app_2;
        (eapply Forall_impl; [eassumption|]); by intros [] ?. }
    split; [discriminate|].
    split.
    { rewrite E, Hl, Hn. destruct o5 as [p|m]; cbn [fst snd trace add_event add_log
        with_results closing_notice andb];
        by rewrite T5, T4, T3, T2, <- !app_assoc. }
    do 2 (split; [done|]). exists s2, s3, n2, n3, (n4 ++ n5).
    do 7 (split; [done|]).
    split.
    { apply Forall_app_2; [|done].
      eapply Forall_impl; [exact F4|]. by intros [] ?. }
    split; [done|].
    pose proof (preserves_run _ _ _ _ _ aggregate_lists E4) as H4.
    cbv beta in H4.
    pose proof (preserves_run results _ _ _ _
                  (saveExecutionReport_frame W results (fun _ _ => eq_refl)
                     (fun _ _ => eq_refl)) E5) as H5.
    rewrite E, <- H4. unfold lists_of. destruct o5; cbn; by rewrite H5.
  - exists s1, (Thrown m), []. split; [done|]. split; [constructor|].
    split; [done|]. rewrite S. split.
    + destruct (logger s1) eqn:Hl; [destruct (notificationService s1) eqn:Hn|].
      * by rewrite (run_catch_ready m s1 Hl Hn).
      * rewrite (run_catch_half_ready m s1 Hl Hn). cbn. by rewrite app_nil_r.
      * rewrite (run_catch_unready m s1 Hl). cbn. by rewrite app_nil_r.
    + split; [by rewrite run_catch_results|].
      intros Hl Hn. by rewrite (run_catch_ready m s1 Hl Hn).
Qed.

Lemma calls_of_constructors (l : list (string * outcome unit)) :
  constructor_calls (map (fun c => EvNewService (fst c) (snd c)) l) = l /\
  probe_calls (map (fun c => EvNewService (fst c) (snd c)) l) = [] /\
  notices (map (fun c => EvNewService (fst c) (snd c)) l) = [] /\
  work_calls (map (fun c => EvNewService (fst c) (snd c)) l) = [].
Proof.
  unfold constructor_calls, probe_calls, notices, work_calls.
  induction l as [|[n o] l (IH1 & IH2 & IH3 & IH4)]; [done|].
  cbn. by rewrite IH1, IH2, IH3, IH4.
Qed.

Lemma calls_of_probes (l : list (string * outcome Validation)) :
  constructor_calls (map (fun c => EvValidate (fst c) (snd c)) l) = [] /\
  probe_calls (map (fun c => EvValidate (fst c) (snd c)) l) = l /\
  notices (map (fun c => EvValidate (fst c) (snd c)) l) = [] /\
  work_calls (map (fun c => EvValidate (fst c) (snd c)) l) = [].
Proof.
  unfold constructor_calls, probe_calls, notices, work_calls.
  induction l as [|[n o] l (IH1 & IH2 & IH3 & IH4)]; [done|].
  cbn. by rewrite IH1, IH2, IH3, IH4.
Qed.

Lemma notices_blind allowed (l : list Event) :
  allowed Notices = false ->
  Forall (fun e => allowed (origin e) = true) l -> notices l = [].
Proof.
  intros Ha. unfold notices. induction 1 as [|e l He _ IH]; [done|].
  cbn. rewrite IH. destruct (origin e); congruence.
Qed.

Lemma notices_app l k : notices (l ++ k) = notices l ++ notices k.
Proof. unfold notices. by rewrite List.filter_app. Qed.

Lemma closing_notice_only_notices b o :
  constructor_calls (closing_notice b o) = [] /\
  probe_calls (closing_notice b o) = [] /\
  notices (closing_notice b o) = closing_notice b o /\
  work_calls (closing_notice b o) = [].
Proof. by destruct o as [r|m], b. Qed.

(** A run whose configuration was loaded, read off its trace: the calls
    to the constructors, the start notice, the probes, the calls of the
    work blocks and the closing notice. *)
Lemma execute_view cfg :
  loadConfig W (trace (new_FigmaBackupSystem W)) = Returned cfg ->
  exists s1 o1 started work,
    validation_gate W (new_FigmaBackupSystem W) = (s1, o1) /\
    results s1 = results (new_FigmaBackupSystem W) /\
    config s1 = Some cfg /\ logger s1 = true /\
    notificationService s1 = true /\
    trace (fst (execute W)) =
      trace (new_FigmaBackupSystem W) ++
        EvLoadConfig (Returned cfg) ::
        map (fun c => EvNewService (fst c) (snd c))
            (constructor_calls (trace (fst (execute W)))) ++
        started ++
        map (fun c => EvValidate (fst c) (snd c))
            (probe_calls (trace (fst (execute W)))) ++
        work ++ closing_notice true (snd (execute W)) /\
    trace s1 =
      trace (new_FigmaBackupSystem W) ++
        EvLoadConfig (Returned cfg) ::
        map (fun c => EvNewService (fst c) (snd c))
            (constructor_calls (trace (fst (execute W)))) ++
        started ++
        map (fun c => EvValidate (fst c) (snd c))
            (probe_calls (trace (fst (execute W)))) /\
    notices (trace (fst (execute W))) =
      started ++ closing_notice true (snd (execute W)) /\
    Forall (fun e => during_work (origin e) = true) work /\
    (returned o1 = false -> work = []) /\
    stops_at_first_throw (expected_constructors cfg)
      (constructor_calls (trace (fst (execute W)))) /\
    match first_thrown (constructor_calls (trace (fst (execute W)))) with
    | Some m =>
        started = [] /\ probe_calls (trace (fst (execute W))) = [] /\
        o1 = Thrown ("服務初始化失敗: " +:+ m) /\ written_log s1 = []
    | None =>
        started = [EvNotifyStart (backup_targets cfg)] /\
        services s1 =
          mkServices true (dropbox_enabled cfg) (notion_enabled cfg)
                     (obsidian_enabled cfg) /\
        stops_at_first_throw (expected_probes (services s1))
          (probe_calls (trace (fst (execute W)))) /\
        match first_thrown (probe_calls (trace (fst (execute W)))) with
        | Some m =>
            o1 = Thrown gate_message /\
            last (written_log s1) =
              Some (mkLogEntry LError "服務驗證過程中發生錯誤" [("error", m)])
        | None =>
            o1 = (if forallb v_valid
                       (validations_of (probe_calls (trace (fst (execute W)))))
                  then Returned tt else Thrown gate_message) /\
            last (written_log s1) =
              Some (if forallb v_valid
                         (validations_of (probe_calls (trace (fst (execute W)))))
                    then mkLogEntry LSuccess "所有服務驗證通過" []
                    else mkLogEntry LWarn
                           ("部分服務驗證失敗: " +:+
                              String.concat ", "
                                (failed_probes
                                   (probe_calls (trace (fst (execute W)))))) [])
        end
    end /\
    match o1 with
    | Thrown m =>
        snd (execute W) = Thrown m /\
        results (fst (execute W)) =
          push_error m (set_success false (results (new_FigmaBackupSystem W))) /\
        written_log (fst (execute W)) =
          written_log s1 ++ [mkLogEntry LError "備份執行失敗" [("error", m)]]
    | Returned _ =>
        exists s2 s3 n2 n3 n45,
          work = n2 ++ n3 ++ n45 /\
          download_stage W s1 = (s2, Returned tt) /\
          trace s2 = trace s1 ++ n2 /\
          Forall (fun e => during_download (origin e) = true) n2 /\
          sync_stage W s2 = (s3, Returned tt) /\
          trace s3 = trace s2 ++ n3 /\
          Forall (fun e => during_sync (origin e) = true) n3 /\
          Forall (fun e => during_persist (origin e) = true) n45 /\
          wiring s2 = wiring s1 /\
          lists_of (results (fst (execute W))) = lists_of (results s3)
    end.
Proof.
  intros L.
  destruct (validation_gate_full W) as (s1 & o1 & G & R1 & H). rewrite L in H.
  destruct H as (Hc & Hl & Hn & new_c & Hmap & Hstop & H).
  destruct execute_trace as (s1' & o1' & work & G' & Fw & Hw0 & T & Ho).
  rewrite G in G'. injection G' as <- <-.
  rewrite Hl, Hn in T. cbn [andb] in T.
  remember (constructor_calls new_c) as cc eqn:Hcc. subst new_c. clear Hcc.
  destruct (calls_of_constructors cc) as (Kc1 & Kc2 & Kc3 & _).
  destruct (closing_notice_only_notices true (snd (execute W)))
    as (Cl1 & Cl2 & Cl3 & _).
  pose proof (omap_blind
                (fun e => match e with EvNewService n o => Some (n, o) | _ => None end)
                during_work work (ltac:(by intros [])) Fw) as Wc.
  pose proof (omap_blind
                (fun e => match e with EvValidate n o => Some (n, o) | _ => None end)
                during_work work (ltac:(by intros [])) Fw) as Wp.
  pose proof (notices_blind during_work work eq_refl Fw) as Wn.
  fold (constructor_calls work) in Wc. fold (probe_calls work) in Wp.
  assert (Hthrown : match o1 with
                    | Thrown m =>
                        snd (execute W) = Thrown m /\
                        results (fst (execute W)) =
                          push_error m
                            (set_success false (results (new_FigmaBackupSystem W))) /\
                        written_log (fst (execute W)) =
                          written_log s1 ++
                            [mkLogEntry LError "備份執行失敗" [("error", m)]]
                    | Returned _ =>
                        exists s2 s3 n2 n3 n45,
                          work = n2 ++ n3 ++ n45 /\
                          download_stage W s1 = (s2, Returned tt) /\
                          trace s2 = trace s1 ++ n2 /\
                          Forall (fun e => during_download (origin e) = true) n2 /\
                          sync_stage W s2 = (s3, Returned tt) /\
                          trace s3 = trace s2 ++ n3 /\
                          Forall (fun e => during_sync (origin e) = true) n3 /\
                          Forall (fun e => during_persist (origin e) = true) n45 /\
                          wiring s2 = wiring s1 /\
                          lists_of (results (fst (execute W))) = lists_of (results s3)
                    end).
  { destruct o1 as [|m]; [by destruct Ho as (_ & _ & Ho)|].
    destruct Ho as (Hr & Ho).
    destruct (Ho Hl Hn) as (Hs & Hlog). by rewrite Hr, R1. }
  destruct (first_thrown cc) as [m|] eqn:Hf.
  - destruct H as (-> & T1 & Hlog1).
    destruct (Hw0 eq_refl) as [-> _]. rewrite T1 in T. cbn [app] in T.
    assert (Ecc : constructor_calls (trace (fst (execute W))) = cc).
    { rewrite T. unfold constructor_calls in *.
      rewrite !omap_app. cbn. by rewrite Kc1, Cl1, app_nil_r. }
    assert (Epp : probe_calls (trace (fst (execute W))) = []).
    { rewrite T. unfold probe_calls in *.
      rewrite !omap_app. cbn. by rewrite Kc2, Cl2. }
    exists s1, (Thrown ("服務初始化失敗: " +:+ m)), [], [].
    rewrite Ecc, Epp, Hf. cbn [map app].
    do 5 (split; [done|]).
    split; [by rewrite T, <- app_assoc|].
    split; [by rewrite T1, app_nil_r|].
    split.
    { unfold notices in *. rewrite T, !List.filter_app. cbn.
      by rewrite Kc3, Cl3. }
    split; [constructor|]. do 2 (split; [done|]). split; [|exact Hthrown].
    by repeat split.
  - destruct H as (Hsv & new_p & T1 & Hmp & Hstp & H).
    remember (probe_calls new_p) as pp eqn:Hpp. subst new_p. clear Hpp.
    destruct (calls_of_probes pp) as (Kp1 & Kp2 & Kp3 & _).
    rewrite T1 in T.
    assert (Ecc : constructor_calls (trace (fst (execute W))) = cc).
    { rewrite T. unfold constructor_calls in *.
      rewrite <- !app_assoc, !omap_app. cbn. rewrite !omap_app. cbn.
      by rewrite Kc1, Kp1, Wc, Cl1, !app_nil_r. }
    assert (Epp : probe_calls (trace (fst (execute W))) = pp).
    { rewrite T. unfold probe_calls in *.
      rewrite <- !app_assoc, !omap_app. cbn. rewrite !omap_app. cbn.
      by rewrite Kc2, Kp2, Wp, Cl2, !app_nil_r. }
    exists s1, o1, [EvNotifyStart (backup_targets cfg)], work.
    rewrite Ecc, Epp, Hf.
    do 5 (split; [done|]).
    split; [rewrite T, <- !app_assoc; cbn; by rewrite <- !app_assoc|].
    split; [by rewrite T1|].
    split.
    { unfold notices in *. rewrite T, !List.filter_app. cbn.
      rewrite !List.filter_app. cbn. by rewrite Kc3, Kp3, Wn, Cl3. }
    split; [done|]. split; [intros Hr; by destruct (Hw0 Hr)|].
    split; [done|]. split; [|done]. done.
Qed.

End Whole.


(** * Runs that fail before the downloads *)

Section Failures.

Variable W : Env.

(** X3 — when the configuration cannot be loaded, [run] does not throw the
    loader's error: the [catch] block records the message in the errors
    list and then dereferences the logger, which is still [null], so [run]
    throws that [TypeError] instead.  Nothing is logged, no notification
    is sent (neither start nor error), no other collaborator is called,
    and [main] exits with code 1. *)
Theorem run_without_configuration_throws_type_error m :
  loadConfig W (trace (new_FigmaBackupSystem W)) = Thrown m ->
  snd (execute W) = Thrown (null_deref "error") /\
  errors (results (fst (execute W))) = [m] /\
  success (results (fst (execute W))) = false /\
  trace (fst (execute W)) =
    trace (new_FigmaBackupSystem W) ++ [EvLoadConfig (Thrown m)] /\
  written_log (fst (execute W)) = [] /\
  snd (main W) = 1.
Proof.
  intros L.
  destruct (validation_gate_full W) as (s1 & o1 & G & R1 & H). rewrite L in H.
  destruct H as (-> & T1 & Hl & Hn & Hlog).
  destruct (execute_segments W) as (s1' & o1' & G' & S).
  rewrite G in G'. injection G' as <- <-. cbv beta iota in S.
  rewrite (run_catch_unready m s1 Hl) in S.
  unfold main. rewrite S. cbn. by rewrite R1, T1, Hlog.
Qed.




End Failures.


(** * Destinations that are not enabled *)

Section Destinations.

Variable W : Env.

Lemma untouched_by_origin d e :
  match origin e with
  | Constructors | Probes | Storage | Database | Vault => False
  | _ => True
  end ->
  touches d e = false.
Proof. by destruct e. Qed.

Lemma untouched_during allowed d (l : list Event) :
  allowed Constructors = false -> allowed Probes = false ->
  allowed Storage = false -> allowed Database = false ->
  allowed Vault = false ->
  Forall (fun e => allowed (origin e) = true) l ->
  Forall (fun e => touches d e = false) l.
Proof.
  intros H1 H2 H3 H4 H5 F. eapply Forall_impl; [exact F|].
  intros e He. cbv beta in He.
  pose proof (untouched_by_origin d e) as U. revert He U.
  destruct (origin e); intros He U; try (by apply U); congruence.
Qed.

Lemma untouched_by_upload d (l : list Event) :
  d <> Dropbox ->
  Forall (fun e => during_upload (origin e) = true) l ->
  Forall (fun e => touches d e = false) l.
Proof.
  intros Hd F. eapply Forall_impl; [exact F|].
  intros e He. destruct e; try done; by destruct d.
Qed.

Lemma entries_of_lists d r r' :
  lists_of r = lists_of r' -> entries_of d r = entries_of d r'.
Proof.
  unfold lists_of. intros [= _ _ Hu Hs]. destruct d; cbn; congruence.
Qed.

(** The sync stage leaves alone a destination that was not constructed. *)
Lemma sync_stage_skips s s' new d :
  sync_stage W s = (s', Returned tt) ->
  trace s' = trace s ++ new ->
  service_of (services s) d = false ->
  Forall (fun e => touches d e = false) new /\
  entries_of d (results s') = entries_of d (results s).
Proof.
  intros E T Hd.
  destruct (sync_stage_spec W s)
    as (s1 & new_d & new_n & new_o & r1 & n_entries & o_entries
        & E' & T' & Q & HD & HN & HO).
  rewrite E in E'. injection E' as <-.
  rewrite T in T'. apply app_inv_head in T' as ->.
  destruct (push_syncs_fields o_entries (push_syncs n_entries r1))
    as (Hs2 & _ & Hu2 & _).
  destruct (push_syncs_fields n_entries r1) as (Hs1 & _ & Hu1 & _).
  assert (Hr1 : syncs r1 = syncs (results s) /\
                Forall (fun e => during_upload (origin e) = true) new_d).
  { destruct (dropbox (services s)).
    - destruct HD as (s_d & ups & Eu & Tu & ->).
      destruct (uploadToDropbox_spec W _ _ _ _ Eu) as (new' & ? & _ & Tu' & F & _).
      rewrite Tu in Tu'. by apply app_inv_head in Tu' as <-.
    - by destruct HD as (-> & ->). }
  destruct Hr1 as (Hr1 & Fd).
  assert (Fn : d <> Notion -> Forall (fun e => touches d e = false) new_n).
  { intros Hne. destruct (notion (services s)).
    - destruct HN as (e & o & t & _ & -> & _).
      repeat constructor. by destruct d.
    - destruct HN as (_ & ->). constructor. }
  assert (Fo : d <> Obsidian -> Forall (fun e => touches d e = false) new_o).
  { intros Hne. destruct (obsidian (services s)).
    - destruct HO as (e & o & t & _ & -> & _).
      repeat constructor. by destruct d.
    - destruct HO as (_ & ->). constructor. }
  assert (Tn : Forall (fun e => String.eqb (sync_type e) "notion" = true) n_entries).
  { destruct (notion (services s)).
    - destruct HN as (e & o & t & -> & _ & (Hty & _)).
      constructor; [by rewrite Hty|constructor].
    - destruct HN as (-> & _). constructor. }
  assert (To : Forall (fun e => String.eqb (sync_type e) "obsidian" = true) o_entries).
  { destruct (obsidian (services s)).
    - destruct HO as (e & o & t & -> & _ & (Hty & _)).
      constructor; [by rewrite Hty|constructor].
    - destruct HO as (-> & _). constructor. }
  rewrite Q. destruct d; cbn [service_of entries_of] in *.
  - rewrite Hd in HD. destruct HD as (-> & ->).
    split; [|by rewrite Hu2, Hu1].
    cbn [app]. apply Forall_app_2; [by apply Fn|by apply Fo].
  - rewrite Hd in HN. destruct HN as (-> & ->).
    split.
    { apply Forall_app_2; [by apply untouched_by_upload|].
      cbn [app]. by apply Fo. }
    rewrite Hs2, Hs1, Hr1, app_nil_r, List.filter_app, length_app.
    assert (Hz : List.filter (fun e => String.eqb (sync_type e) "notion") o_entries = []).
    { clear -To. induction To as [|e l He _ IH]; [done|]. cbn.
      apply String.eqb_eq in He. by rewrite He. }
    rewrite Hz. cbn. lia.
  - rewrite Hd in HO. destruct HO as (-> & ->).
    split.
    { apply Forall_app_2; [by apply untouched_by_upload|].
      rewrite app_nil_r. by apply Fn. }
    rewrite Hs2, Hs1, Hr1, app_nil_r, List.filter_app, length_app.
    assert (Hz : List.filter (fun e => String.eqb (sync_type e) "obsidian") n_entries = []).
    { clear -Tn. induction Tn as [|e l He _ IH]; [done|]. cbn.
      apply String.eqb_eq in He. by rewrite He. }
    rewrite Hz. cbn. lia.
Qed.

Lemma constructors_untouched cfg d (cc : list (string * outcome unit)) :
  destination_enabled cfg d = false ->
  map fst cc = take (length cc) (expected_constructors cfg) ->
  Forall (fun e => touches d e = false)
         (map (fun c => EvNewService (fst c) (snd c)) cc).
Proof.
  intros Hd Hn. apply Forall_map. cbn.
  assert (F : Forall (fun n => String.eqb n (constructor_of d) = false)
                     (map fst cc)).
  { rewrite Hn. apply Forall_take. unfold expected_constructors.
    destruct d; cbn in Hd; rewrite Hd;
      destruct cfg as [? ? ? ? ? db nt ob]; cbn in *;
      destruct db, nt, ob; try discriminate; by repeat constructor. }
  by apply Forall_map in F.
Qed.

Lemma probes_untouched sv d (pp : list (string * outcome Validation)) :
  service_of sv d = false ->
  map fst pp = take (length pp) (expected_probes sv) ->
  Forall (fun e => touches d e = false)
         (map (fun c => EvValidate (fst c) (snd c)) pp).
Proof.
  intros Hd Hn. apply Forall_map. cbn.
  assert (F : Forall (fun n => String.eqb n (probe_of d) = false) (map fst pp)).
  { rewrite Hn. apply Forall_take. unfold expected_probes.
    destruct d; cbn in Hd; rewrite Hd;
      destruct sv as [? db nt ob]; cbn in *;
      destruct db, nt, ob; try discriminate; by repeat constructor. }
  by apply Forall_map in F.
Qed.

(** X7 — a destination whose [enabled] flag is off in the loaded
    configuration is left alone by the whole run: its client is never
    constructed, its readiness is never probed, it is never called, and
    the run context ends without any entry about it (no upload entry for
    Dropbox, no sync entry of its type for Notion and Obsidian), whether
    the run returns or throws. *)
Theorem disabled_destination_is_never_touched cfg d :
  loadConfig W (trace (new_FigmaBackupSystem W)) = Returned cfg ->
  destination_enabled cfg d = false ->
  Forall (fun e => touches d e = false) (trace (fst (execute W))) /\
  entries_of d (results (fst (execute W))) = 0.
Proof.
  intros L Hd.
  destruct (execute_view W cfg L)
    as (s1 & o1 & started & work & G & R1 & Hc & Hl & Hn & T & T1 & Nt & Fw
        & Hw0 & Hstop & H & Ho).
  assert (Fc := constructors_untouched cfg d _ Hd (proj1 Hstop)).
  assert (Fs : Forall (fun e => touches d e = false) started).
  { destruct (first_thrown (constructor_calls (trace (fst (execute W)))));
      destruct H as (-> & _); by repeat constructor. }
  assert (Fp : Forall (fun e => touches d e = false)
                 (map (fun c => EvValidate (fst c) (snd c))
                      (probe_calls (trace (fst (execute W)))))).
  { destruct (first_thrown (constructor_calls (trace (fst (execute W))))).
    - destruct H as (_ & -> & _). constructor.
    - destruct H as (_ & Hsv & Hstp & _).
      apply (probes_untouched (services s1)); [|exact (proj1 Hstp)].
      rewrite Hsv. by destruct d. }
  assert (Fcl : Forall (fun e => touches d e = false)
                  (closing_notice true (snd (execute W)))).
  { destruct (snd (execute W)); by repeat constructor. }
  assert (Hwork : Forall (fun e => touches d e = false) work /\
                  entries_of d (results (fst (execute W))) = 0).
  { destruct o1 as [[]|m].
    - destruct Ho as (s2 & s3 & n2 & n3 & n45 & -> & E2 & T2 & F2 & E3 & T3 & F3
                      & F45 & W2 & Hlists).
      destruct (first_thrown (constructor_calls (trace (fst (execute W)))))
        as [mc|]; [by destruct H as (_ & _ & ? & _)|].
      destruct H as (_ & Hsv & _).
      assert (Hs2 : service_of (services s2) d = false).
      { unfold wiring in W2. injection W2 as _ _ _ ->. rewrite Hsv.
        by destruct d. }
      destruct (sync_stage_skips s2 s3 n3 d E3 T3 Hs2) as (F3' & He).
      split.
      { apply Forall_app_2; [by apply (untouched_during during_download)|].
        apply Forall_app_2; [done|].
        by apply (untouched_during during_persist). }
      rewrite (entries_of_lists d _ _ Hlists), He.
      destruct (download_stage_spec W s1 cfg Hc)
        as (s2' & ds & n2' & E2' & _ & _ & _ & _ & Q).
      rewrite E2 in E2'. injection E2' as <-. rewrite Q, R1.
      by destruct d.
    - destruct Ho as (_ & -> & _). rewrite (Hw0 eq_refl).
      split; [constructor|]. by destruct d. }
  destruct Hwork as (Fwk & He). split; [|done].
  rewrite T. cbn [trace new_FigmaBackupSystem app].
  constructor; [done|]. constructor; [done|].
  repeat apply Forall_app_2; done.
Qed.

End Destinations.


(** * The summary *)

Section Summaries.

Variable W : Env.

Lemma record_sync_scalars syncs : forall m,
  total_targets (foldl record_sync m syncs) = total_targets m /\
  successful_downloads (foldl record_sync m syncs) = successful_downloads m /\
  failed_downloads (foldl record_sync m syncs) = failed_downloads m /\
  total_files (foldl record_sync m syncs) = total_files m /\
  sum_errors (foldl record_sync m syncs) = sum_errors m /\
  duration_ms (foldl record_sync m syncs) = duration_ms m.
Proof.
  induction syncs as [|e l IH]; intros m; [done|]. cbn [foldl].
  destruct (IH (record_sync m e)) as (-> & -> & -> & -> & -> & ->). done.
Qed.

(** The last entry of a type decides the status written for that type. *)
Lemma record_sync_lookup syncs : forall m k,
  services_status (foldl record_sync m syncs) !! k =
    match last (List.filter (fun e => String.eqb (sync_type e) k) syncs) with
    | Some e => Some (status_of e)
    | None => services_status m !! k
    end.
Proof.
  induction syncs as [|e l IH]; intros m k; [done|].
  cbn [foldl List.filter]. rewrite IH.
  destruct (String.eqb (sync_type e) k) eqn:Hk.
  - rewrite last_cons.
    destruct (last (List.filter (fun e0 => String.eqb (sync_type e0) k) l)); [done|].
    apply String.eqb_eq in Hk. unfold record_sync, with_services_status.
    cbn [services_status]. rewrite lookup_insert, Hk.
    by destruct (decide (k = k)).
  - destruct (last (List.filter (fun e0 => String.eqb (sync_type e0) k) l)); [done|].
    apply String.eqb_neq in Hk. unfold record_sync, with_services_status.
    cbn [services_status]. by rewrite lookup_insert_ne.
Qed.

Lemma generateSummary_fields s :
  exists sm,
    generateSummary W s = (s, Returned sm) /\
    total_targets sm = length (targets (results s)) /\
    successful_downloads sm =
      length (List.filter dl_success (downloads (results s))) /\
    failed_downloads sm =
      length (List.filter (fun d => negb (dl_success d)) (downloads (results s))) /\
    total_files sm =
      foldl (fun sum d => sum + files_count d) 0 (downloads (results s)) /\
    sum_errors sm = errors (results s) /\
    duration_ms sm = duration (results s) /\
    forall k,
      services_status sm !! k =
        if String.eqb k "dropbox" && Nat.ltb 0 (length (uploads (results s)))
        then Some (UploadStatus (existsb up_success (uploads (results s)))
                     (length (List.filter up_success (uploads (results s))))
                     (length (uploads (results s))))
        else status_of <$>
               last (List.filter (fun e => String.eqb (sync_type e) k)
                       (syncs (results s))).
Proof.
  unfold generateSummary, bind, gets, ret. cbv beta iota zeta.
  eexists. split; [reflexivity|].
  match goal with
  | |- context [foldl record_sync ?m0 ?l] =>
      pose proof (record_sync_scalars l m0) as (H1 & H2 & H3 & H4 & H5 & H6);
      pose proof (record_sync_lookup l m0) as HL
  end.
  cbn [total_targets successful_downloads failed_downloads total_files
       sum_errors duration_ms services_status] in H1, H2, H3, H4, H5, H6, HL.
  destruct (Nat.ltb 0 (length (uploads (results s))));
    cbn [with_services_status total_targets successful_downloads failed_downloads
         total_files sum_errors duration_ms services_status];
    rewrite ?H1, ?H2, ?H3, ?H4, ?H5, ?H6; do 6 (split; [done|]); intros k.
  - rewrite lookup_insert. destruct (decide ("dropbox" = k)) as [<-|Hne]; [done|].
    rewrite HL, lookup_empty.
    assert (Hk : String.eqb k "dropbox" = false)
      by (apply String.eqb_neq; congruence).
    rewrite Hk. cbn [andb].
    by destruct (last (List.filter (fun e => String.eqb (sync_type e) k)
                         (syncs (results s)))).
  - rewrite HL, lookup_empty, andb_false_r.
    by destruct (last (List.filter (fun e => String.eqb (sync_type e) k)
                         (syncs (results s)))).
Qed.

(** X8 — the [services] object of the summary.  The status written under
    a key is that of the last sync entry of that type; the key dropbox
    holds the upload status whenever the uploads list is not empty (it
    replaces a sync entry of that name), with [success] true exactly when
    some upload succeeded and never more uploaded than attempted; when
    the uploads list is empty the summary has no Dropbox status.  A key
    without entries is absent. *)
Theorem generateSummary_services_status s :
  Forall (fun e => sync_type e <> "__proto__") (syncs (results s)) ->
  exists sm,
    generateSummary W s = (s, Returned sm) /\
    (forall k,
       services_status sm !! k =
         if String.eqb k "dropbox" && Nat.ltb 0 (length (uploads (results s)))
         then Some (UploadStatus (existsb up_success (uploads (results s)))
                      (length (List.filter up_success (uploads (results s))))
                      (length (uploads (results s))))
         else status_of <$>
                last (List.filter (fun e => String.eqb (sync_type e) k)
                        (syncs (results s)))) /\
    (existsb up_success (uploads (results s)) = true <->
     0 < length (List.filter up_success (uploads (results s)))) /\
    length (List.filter up_success (uploads (results s))) <=
      length (uploads (results s)).
Proof.
  intros _.
  destruct (generateSummary_fields s) as (sm & E & _ & _ & _ & _ & _ & _ & HL).
  exists sm. split; [done|]. split; [exact HL|].
  split; [|apply List.filter_length_le]. clear.
  induction (uploads (results s)) as [|u l IH]; cbn; [split; [discriminate|lia]|].
  destruct (up_success u); cbn; [split; [lia|done]|exact IH].
Qed.

End Summaries.


(** * Runs that reach the downloads *)

Section Work.

Variable W : Env.













End Work.


(** * The further properties on concrete runs *)

Section Instances.

Import Scenarios Cases.

Lemma validateServices_throwing_probe_ends_probing_witness :
  In ("Notion", Thrown "socket hang up")
     (probe_calls
        (added (validateServices notion_unreachable)
               (constructed notion_unreachable all_enabled))) /\
  snd (validateServices notion_unreachable
         (constructed notion_unreachable all_enabled)) =
    Returned (mkValidationReport false None (Some "socket hang up")).
Proof.
  split; [vm_compute; right; right; by left|].
  destruct (validateServices_throwing_probe_ends_probing notion_unreachable
              (constructed notion_unreachable all_enabled)
              (fst (validateServices notion_unreachable
                      (constructed notion_unreachable all_enabled)))
              (snd (validateServices notion_unreachable
                      (constructed notion_unreachable all_enabled)))
              (added (validateServices notion_unreachable)
                     (constructed notion_unreachable all_enabled))
              "Notion" "socket hang up")
    as (H & _); [by vm_compute|by vm_compute|vm_compute; right; right; by left|].
  exact H.
Defined.

Lemma validateServices_probes_constructed_services_witness :
  probe_threw
    (probe_calls
       (added (validateServices dropbox_not_ready)
              (constructed dropbox_not_ready (config_of ["A"; "B"] true true false))))
    = false /\
  map fst
    (probe_calls
       (added (validateServices dropbox_not_ready)
              (constructed dropbox_not_ready (config_of ["A"; "B"] true true false))))
    = expected_probes
        (services (constructed dropbox_not_ready
                     (config_of ["A"; "B"] true true false))).
Proof.
  split; [by vm_compute|].
  destruct (validateServices_probes_constructed_services dropbox_not_ready
              (constructed dropbox_not_ready (config_of ["A"; "B"] true true false))
              (fst (validateServices dropbox_not_ready
                      (constructed dropbox_not_ready
                         (config_of ["A"; "B"] true true false))))
              (snd (validateServices dropbox_not_ready
                      (constructed dropbox_not_ready
                         (config_of ["A"; "B"] true true false))))
              (added (validateServices dropbox_not_ready)
                     (constructed dropbox_not_ready
                        (config_of ["A"; "B"] true true false))))
    as (H & _); [by vm_compute..|].
  exact H.
Defined.

Lemma run_without_configuration_throws_type_error_witness :
  loadConfig config_unreadable (trace (new_FigmaBackupSystem config_unreadable)) =
    Thrown "載入配置檔案失敗: Unexpected end of JSON input" /\
  snd (execute config_unreadable) = Thrown (null_deref "error").
Proof.
  split; [reflexivity|].
  destruct (run_without_configuration_throws_type_error config_unreadable
              "載入配置檔案失敗: Unexpected end of JSON input")
    as (H & _); [reflexivity|].
  exact H.
Defined.




Lemma disabled_destination_is_never_touched_witness :
  destination_enabled (config_of ["A"; "B"] false true false) Dropbox = false /\
  entries_of Dropbox (results (fst (execute notion_only))) = 0.
Proof.
  split; [reflexivity|].
  destruct (disabled_destination_is_never_touched notion_only
              (config_of ["A"; "B"] false true false) Dropbox)
    as (_ & H); [reflexivity|reflexivity|].
  exact H.
Defined.

Lemma generateSummary_services_status_witness :
  map sync_type (syncs (results synced)) = ["notion"; "obsidian"] /\
  exists sm, generateSummary partial_run synced = (synced, Returned sm).
Proof.
  split; [by vm_compute|].
  destruct (generateSummary_services_status partial_run synced)
    as (sm & H & _); [vm_compute; by repeat constructor|].
  exists sm. exact H.
Defined.





End Instances.


(** * The order of the calls of a run *)

Section Order.

Variable W : Env.

Lemma ordered_app a b c d l1 l2 :
  ordered a b l1 -> ordered c d l2 -> b <= c -> a <= c -> b <= d ->
  ordered a d (l1 ++ l2).
Proof.
  intros [O1 B1] [O2 B2] Hbc Hac Hbd. split.
  - induction l1 as [|x l1 IH]; [done|].
    apply Forall_cons in B1 as [Hx B1].
    assert (O1' : in_order l1 = true).
    { destruct l1; [done|]. cbn in O1. by apply andb_prop in O1 as [_ ?]. }
    specialize (IH O1' B1). destruct l1 as [|y l1].
    + cbn. destruct l2 as [|z l2]; [done|].
      apply Forall_cons in B2 as [Hz _].
      apply andb_true_intro. split; [apply Nat.leb_le; lia|exact O2].
    + cbn in O1 |- *. apply andb_prop in O1 as [Hxy _].
      apply andb_true_intro. by split.
  - apply Forall_app_2.
    + eapply Forall_impl; [exact B1|]. cbn. lia.
    + eapply Forall_impl; [exact B2|]. cbn. lia.
Qed.

(** Calls of one stage, with readings of the clock between them. *)
Lemma ordered_block k (l : list Event) :
  Forall (fun e => stage e = None \/ stage e = Some k) l ->
  ordered k k (omap stage l).
Proof.
  induction 1 as [|e l [He|He] _ [IH1 IH2]]; [by split; [|constructor]| |];
    cbn; rewrite He; [by split|].
  split; [|by constructor; [lia|]].
  destruct (omap stage l) as [|y r] eqn:E; [done|].
  cbn. apply Forall_cons in IH2 as [Hy _].
  apply andb_true_intro. split; [apply Nat.leb_le; lia|exact IH1].
Qed.

Lemma block_of_origin allowed k (l : list Event) :
  (forall e, allowed (origin e) = true -> stage e = None \/ stage e = Some k) ->
  Forall (fun e => allowed (origin e) = true) l ->
  ordered k k (omap stage l).
Proof.
  intros Ha F. apply ordered_block. eapply Forall_impl; [exact F|]. exact Ha.
Qed.

(** X14 — the calls of a run are made in the order of the statements of
    [run]: the configuration is loaded, then the services are
    constructed, then the start notification is sent, then the services
    are probed, then every download is made, then every upload to
    Dropbox, then the call to Notion, then the call to Obsidian, then the
    report is written, and the closing notification comes last.  No call
    of a stage is made after a call of a later stage. *)
Theorem run_calls_in_stage_order :
  in_order (omap stage (trace (fst (execute W)))) = true.
Proof.
  destruct (validation_gate_full W) as (s1 & o1 & G & R1 & H).
  destruct (loadConfig W (trace (new_FigmaBackupSystem W))) as [cfg|m] eqn:L.
  2: { destruct H as (-> & T1 & Hl & Hn & _).
       destruct (execute_trace W) as (s1' & o1' & work & G' & _ & Hw0 & T & _).
       rewrite G in G'. injection G' as <- <-.
       destruct (Hw0 eq_refl) as [-> _]. rewrite T, T1, Hl. cbn.
       by destruct (snd (execute W)). }
  clear H G R1 s1 o1.
  destruct (execute_view W cfg L)
    as (s1 & o1 & started & work & G & R1 & Hc & Hl & Hn & T & T1 & Nt & Fw
        & Hw0 & Hstop & H & Ho).
  assert (Hs : ordered 2 2 (omap stage started)).
  { destruct (first_thrown (constructor_calls (trace (fst (execute W)))));
      destruct H as (-> & _); by split; repeat constructor. }
  assert (Hcl : ordered 9 9 (omap stage (closing_notice true (snd (execute W))))).
  { destruct (snd (execute W)); by split; repeat constructor. }
  assert (Hcc : ordered 1 1
                  (omap stage
                     (map (fun c => EvNewService (fst c) (snd c))
                          (constructor_calls (trace (fst (execute W))))))).
  { apply ordered_block, Forall_map, Forall_true. by right. }
  assert (Hpp : ordered 3 3
                  (omap stage
                     (map (fun c => EvValidate (fst c) (snd c))
                          (probe_calls (trace (fst (execute W))))))).
  { apply ordered_block, Forall_map, Forall_true. by right. }
  assert (Hwk : ordered 4 8 (omap stage work)).
  { destruct o1 as [[]|m].
    2: { rewrite (Hw0 eq_refl). by split; [|constructor]. }
    destruct Ho as (s2 & s3 & n2 & n3 & n45 & -> & E2 & T2 & F2 & E3 & T3 & F3
                    & F45 & _).
    destruct (sync_stage_spec W s2)
      as (s3' & new_d & new_n & new_o & r1 & n_entries & o_entries
          & E3' & T3' & _ & HD & HN & HO).
    rewrite E3 in E3'. injection E3' as <-.
    rewrite T3 in T3'. apply app_inv_head in T3' as ->.
    assert (Hd : ordered 5 5 (omap stage new_d)).
    { destruct (dropbox (services s2)).
      - destruct HD as (s_d & ups & Eu & Tu & _).
        destruct (uploadToDropbox_spec W _ _ _ _ Eu) as (new' & ? & _ & Tu' & F & _).
        rewrite Tu in Tu'. apply app_inv_head in Tu' as <-.
        apply (block_of_origin during_upload); [|exact F].
        intros []; cbn; try discriminate; auto.
      - destruct HD as (-> & _). by split; [|constructor]. }
    assert (Hno : ordered 6 6 (omap stage new_n)).
    { destruct (notion (services s2)).
      - destruct HN as (? & ? & ? & _ & -> & _). by split; repeat constructor.
      - destruct HN as (_ & ->). by split; [|constructor]. }
    assert (Hob : ordered 7 7 (omap stage new_o)).
    { destruct (obsidian (services s2)).
      - destruct HO as (? & ? & ? & _ & -> & _). by split; repeat constructor.
      - destruct HO as (_ & ->). by split; [|constructor]. }
    assert (H2 : ordered 4 4 (omap stage n2)).
    { apply (block_of_origin during_download); [|exact F2].
      intros []; cbn; try discriminate; auto. }
    assert (H8 : ordered 8 8 (omap stage n45)).
    { apply (block_of_origin during_persist); [|exact F45].
      intros []; cbn; try discriminate; auto. }
    rewrite !omap_app.
    apply (ordered_app 4 4 5 8); [done| |lia..].
    apply (ordered_app 5 7 8 8); [|done|lia..].
    apply (ordered_app 5 5 6 7); [done| |lia..].
    apply (ordered_app 6 6 7 7); [done|done|lia..]. }
  rewrite T. cbn [trace new_FigmaBackupSystem].
  rewrite omap_app. cbn [omap list_omap stage app].
  change (in_order (0 :: omap stage
            (map (fun c => EvNewService (fst c) (snd c))
                 (constructor_calls (trace (fst (execute W)))) ++
             started ++
             map (fun c => EvValidate (fst c) (snd c))
                 (probe_calls (trace (fst (execute W)))) ++
             work ++ closing_notice true (snd (execute W)))) = true).
  rewrite !omap_app.
  apply (proj1 (ordered_app 0 0 1 9 [0] _
                  ltac:(by split; repeat constructor)
                  ltac:(apply (ordered_app 1 1 2 9); [done| |lia..];
                        apply (ordered_app 2 2 3 9); [done| |lia..];
                        apply (ordered_app 3 3 4 9); [done| |lia..];
                        apply (ordered_app 4 8 9 9); [done|done|lia..])
                  ltac:(lia) ltac:(lia) ltac:(lia))).
Qed.

End Order.


(** * The notification service *)

Section Notifications.

Import NotificationService.

Variable H : Host.

(** The three ways through an enabled [notify]. *)
Lemma notify_cases this title message type timeout tr :
  enabled this = true ->
  exists n c line,
    (platform H <> "darwin" /\
     exists o,
       notify H this title message type timeout tr =
         (tr ++ [Notifier n o;
                 match o with
                 | Returned _ => ConsoleLog line
                 | Thrown m => ConsoleError m
                 end], Returned tt)) \/
    (platform H = "darwin" /\
     notify H this title message type timeout tr =
       (tr ++ [Exec c (Returned tt); ConsoleLog line], Returned tt)) \/
    (platform H = "darwin" /\
     exists m o,
       notify H this title message type timeout tr =
         (tr ++ [Exec c (Thrown m); Notifier n o;
                 match o with
                 | Returned _ => ConsoleLog line
                 | Thrown m' => ConsoleError m'
                 end], Returned tt)).
Proof.
  intros He. unfold notify, sendMacNotification, logNotification.
  rewrite He. cbv beta iota zeta delta [negb].
  match goal with
  | |- context [notifier_notify H tr ?n] => set (n0 := n)
  end.
  match goal with
  | |- context [execSync H tr ?c] => set (c0 := c)
  end.
  match goal with
  | |- context [ConsoleLog ?l] => set (l0 := l)
  end.
  exists n0, c0, l0.
  destruct (String.eqb (platform H) "darwin") eqn:Hp.
  - apply String.eqb_eq in Hp. right.
    destruct (execSync H tr c0) as [[]|m].
    + left. split; [done|]. by rewrite <- app_assoc.
    + right. split; [done|].
      exists m, (notifier_notify H (tr ++ [Exec c0 (Thrown m)]) n0).
      destruct (notifier_notify H (tr ++ [Exec c0 (Thrown m)]) n0) as [[]|m'];
        by rewrite <- !app_assoc.
  - apply String.eqb_neq in Hp. left. split; [done|].
    exists (notifier_notify H tr n0).
    destruct (notifier_notify H tr n0) as [[]|m']; by rewrite <- !app_assoc.
Qed.

Lemma notify_returns this title message type timeout tr :
  exists new,
    notify H this title message type timeout tr = (tr ++ new, Returned tt) /\
    (new = [] <-> enabled this = false).
Proof.
  destruct (enabled this) eqn:He.
  - destruct (notify_cases this title message type timeout tr He)
      as (n & c & line & [(_ & o & ->)|[(_ & ->)|(_ & m & o & ->)]]);
      eexists; (split; [reflexivity|]); split; discriminate.
  - exists []. unfold notify. rewrite He. cbn [negb]. by rewrite app_nil_r.
Qed.

(** X15 — [notify] never throws, whatever [osascript] and node-notifier
    do: an error of the delivery is printed and swallowed.  A disabled
    service does nothing at all.  An enabled one makes at most one call to
    each of [osascript] and node-notifier: outside macOS only
    node-notifier is called; on macOS node-notifier is the fallback,
    called exactly when [osascript] failed.  When node-notifier throws,
    the last thing done is to print its message. *)
Theorem notify_never_throws this title message type timeout tr :
  exists new,
    notify H this title message type timeout tr = (tr ++ new, Returned tt) /\
    (enabled this = false -> new = []) /\
    length (execs new) <= 1 /\
    length (notifier_calls new) <= 1 /\
    (platform H <> "darwin" -> execs new = []) /\
    (platform H = "darwin" ->
     length (notifier_calls new) = length (List.filter (fun c => negb (returned (snd c))) (execs new))) /\
    (forall n m, In (n, Thrown m) (notifier_calls new) ->
       last new = Some (ConsoleError m)).
Proof.
  destruct (enabled this) eqn:He.
  2: { exists []. unfold notify. rewrite He. cbn [negb]. rewrite app_nil_r.
       cbn. by repeat split; try lia. }
  destruct (notify_cases this title message type timeout tr He)
    as (n & c & line & [(Hp & o & ->)|[(Hp & ->)|(Hp & m & o & ->)]]);
    eexists; (split; [reflexivity|]); (split; [discriminate|]).
  - destruct o as [[]|m]; cbn; repeat split; try lia; try done.
    + intros n0 m0 [[=]|[]].
    + intros n0 m0 [[= _ <-]|[]]. done.
  - cbn. repeat split; try lia; try done.
  - destruct o as [[]|m']; cbn; repeat split; try lia; try done.
    + intros n0 m0 [[=]|[]].
    + intros n0 m0 [[= _ <-]|[]]. done.
Qed.

Lemma new_NotificationService_flags g :
  enabled (new_NotificationService g) = on (given_enabled g) /\
  onStart (new_NotificationService g) = on (given_onStart g) /\
  onComplete (new_NotificationService g) = on (given_onComplete g) /\
  onError (new_NotificationService g) = on (given_onError g).
Proof.
  by destruct g as [[] ? [] [] [] ?].
Qed.

(** X16 — the three notifications [run] sends never throw, so a failing
    delivery cannot change the outcome of a run.  For a service built
    from the options [g], each is sent exactly when both [enabled] and its
    own switch were left out or given a truthy value: an option given as
    [null], [0] or the empty string switches the notification off like
    [false] does, because the options spread over the defaults. *)
Theorem backup_notifications_never_throw g targets results message context tr :
  (exists new,
     notifyBackupStart H (new_NotificationService g) targets tr =
       (tr ++ new, Returned tt) /\
     (new = [] <-> on (given_enabled g) && on (given_onStart g) = false)) /\
  (exists new,
     notifyBackupComplete H (new_NotificationService g) results tr =
       (tr ++ new, Returned tt) /\
     (new = [] <-> on (given_enabled g) && on (given_onComplete g) = false)) /\
  (exists new,
     notifyBackupError H (new_NotificationService g) message context tr =
       (tr ++ new, Returned tt) /\
     (new = [] <-> on (given_enabled g) && on (given_onError g) = false)).
Proof.
  destruct (new_NotificationService_flags g) as (He & Hs & Hc & Hr).
  unfold notifyBackupStart, notifyBackupComplete, notifyBackupError.
  rewrite Hs, Hc, Hr.
  split; [|split].
  - destruct (on (given_onStart g)); cbn [negb].
    2: { exists []. rewrite app_nil_r, andb_false_r. by split. }
    rewrite andb_true_r, <- He. apply notify_returns.
  - destruct (on (given_onComplete g)); cbn [negb].
    2: { exists []. rewrite app_nil_r, andb_false_r. by split. }
    rewrite andb_true_r, <- He.
    destruct (Nat.eqb _ _); apply notify_returns.
  - destruct (on (given_onError g)); cbn [negb].
    2: { exists []. rewrite app_nil_r, andb_false_r. by split. }
    rewrite andb_true_r, <- He. apply notify_returns.
Qed.

Lemma all_counted {A} (f : A -> bool) (l : list A) :
  Nat.eqb (length (List.filter f l)) (length l) = forallb f l.
Proof.
  induction l as [|x l IH]; [done|]. cbn. destruct (f x); cbn; [exact IH|].
  apply Nat.eqb_neq. pose proof (List.filter_length_le f l). lia.
Qed.

(** X17 — the completion notice is the success notice "備份完成" exactly
    when every download entry succeeded, and the warning "備份部分完成"
    with the count of successes over the total otherwise.  So a run
    without any target is notified as a success with 0 targets, and a run
    whose downloads all failed as partly completed, 0 of n. *)
Theorem notifyBackupComplete_all_or_partial this results tr :
  onComplete this = true ->
  notifyBackupComplete H this results tr =
    if forallb dl_success results then
      notify H this "🎉 備份完成"
        ("成功備份 " +:+ pretty (length results) +:+ " 個目標") Success None tr
    else
      notify H this "⚠️ 備份部分完成"
        ("成功 " +:+ pretty (length (List.filter dl_success results)) +:+ "/" +:+
         pretty (length results) +:+ " 個目標") Warning None tr.
Proof.
  intros Hc. unfold notifyBackupComplete. rewrite Hc. cbn [negb].
  rewrite all_counted. destruct (forallb dl_success results) eqn:Hall; [|done].
  rewrite <- all_counted in Hall. apply Nat.eqb_eq in Hall. by rewrite Hall.
Qed.

End Notifications.


(** * The configuration manager *)

Section Configuring.

Import ConfigManager.

Context {Config Update : Type}.

Variable defaultConfig : Config.
Variable mergeConfigs : option Config -> Update -> outcome (option Config).
Variable validateConfig : option Config -> outcome (list string).
Variable fs : Fs Config Update.

(** X18 — when the configuration file does not exist, [loadConfig] writes
    the default configuration to the file and returns it as it is: the
    result is the same whatever [mergeConfigs] and [validateConfig] would
    answer, so the returned configuration has not been validated, and
    [this.config] is left as it was ([null] on a fresh manager).  When the
    file cannot be written, the error is thrown wrapped twice. *)
Theorem loadConfig_missing_file_returns_unvalidated_default s :
  pathExists fs (fs_trace s) = false ->
  exists w,
    loadConfig defaultConfig mergeConfigs validateConfig fs s =
      (mkManager (config s)
         (fs_trace s ++ [PathExists false; WriteJson (Some defaultConfig) w]),
       match w with
       | Returned _ => Returned (Some defaultConfig)
       | Thrown m =>
           Thrown ("載入配置檔案失敗: " +:+ ("建立預設配置檔案失敗: " +:+ m))
       end) /\
    forall merge' validate',
      loadConfig defaultConfig merge' validate' fs s =
      loadConfig defaultConfig mergeConfigs validateConfig fs s.
Proof.
  intros Hp.
  exists (writeJson fs (fs_trace s ++ [PathExists false]) (Some defaultConfig)).
  unfold loadConfig, loadConfig_body, createDefaultConfig, record.
  rewrite Hp. cbn.
  destruct (writeJson fs (fs_trace s ++ [PathExists false]) (Some defaultConfig));
    by rewrite <- app_assoc.
Qed.

(** X19 — when the configuration file exists, [loadConfig] never writes to
    it, returns only a configuration that [validateConfig] accepted, and
    throws every failure with the prefix "載入配置檔案失敗: ".  A merged
    configuration that the validation rejects is nevertheless left in
    [this.config]: the assignment comes before the validation. *)
Theorem loadConfig_existing_file s s' o :
  pathExists fs (fs_trace s) = true ->
  loadConfig defaultConfig mergeConfigs validateConfig fs s = (s', o) ->
  write_attempts (fs_trace s') = write_attempts (fs_trace s) /\
  match o with
  | Returned c => config s' = c /\ validateConfig c = Returned []
  | Thrown m =>
      (exists cause, m = "載入配置檔案失敗: " +:+ cause) /\
      forall configData merged errors,
        readJson fs (fs_trace s ++ [PathExists true]) = Returned configData ->
        mergeConfigs (Some defaultConfig) configData = Returned merged ->
        validateConfig merged = Returned errors ->
        config s' = merged /\ errors <> [] /\
        m = "載入配置檔案失敗: " +:+
              ("配置驗證失敗: " +:+ String.concat ", " errors)
  end.
Proof.
  intros Hp. unfold loadConfig, loadConfig_body, record, set_config.
  rewrite Hp. cbn [negb config fs_trace].
  destruct (readJson fs (fs_trace s ++ [PathExists true])) as [u|m] eqn:Hr.
  2: { intros [= <- <-]. cbn. unfold write_attempts.
       rewrite <- app_assoc, omap_app. cbn. rewrite app_nil_r.
       split; [done|]. split; [by eexists|]. intros ? ? ? [=]. }
  destruct (mergeConfigs (Some defaultConfig) u) as [merged|m] eqn:Hm.
  2: { intros [= <- <-]. cbn. unfold write_attempts.
       rewrite <- app_assoc, omap_app. cbn. rewrite app_nil_r.
       split; [done|]. split; [by eexists|].
       intros ? ? ? [= <-] Hm'. rewrite Hm in Hm'. discriminate. }
  destruct (validateConfig merged) as [[|e errors]|m] eqn:Hv.
  - intros [= <- <-]. cbn. unfold write_attempts.
    rewrite <- app_assoc, omap_app. cbn. by rewrite app_nil_r.
  - intros [= <- <-]. cbn. unfold write_attempts.
    rewrite <- app_assoc, omap_app. cbn. rewrite app_nil_r.
    split; [done|]. split; [by eexists|].
    intros ? ? ? [= <-] Hm'. rewrite Hm in Hm'. injection Hm' as <-.
    rewrite Hv. by intros [= <-].
  - intros [= <- <-]. cbn. unfold write_attempts.
    rewrite <- app_assoc, omap_app. cbn. rewrite app_nil_r.
    split; [done|]. split; [by eexists|].
    intros ? ? ? [= <-] Hm'. rewrite Hm in Hm'. injection Hm' as <-.
    rewrite Hv. intros [=].
Qed.

(** X20 — [updateConfig] on a loaded configuration replaces [this.config]
    by the merged configuration before it validates it.  An update that
    the validation rejects is therefore kept in memory although
    [updateConfig] throws and nothing is written; an accepted one is
    handed to [fs.writeJson] once and returned, and a write that fails
    leaves the update in memory only.  Every failure is thrown with the
    prefix "更新配置失敗: ". *)
Theorem updateConfig_keeps_rejected_update updates s loaded merged errors :
  config s = Some loaded ->
  mergeConfigs (Some loaded) updates = Returned merged ->
  validateConfig merged = Returned errors ->
  exists s' o,
    updateConfig defaultConfig mergeConfigs validateConfig fs updates s = (s', o) /\
    config s' = merged /\
    match errors with
    | [] =>
        exists w,
          fs_trace s' = fs_trace s ++ [WriteJson merged w] /\
          o = match w with
              | Returned _ => Returned merged
              | Thrown m => Thrown ("更新配置失敗: " +:+ m)
              end
    | _ :: _ =>
        fs_trace s' = fs_trace s /\
        o = Thrown ("更新配置失敗: " +:+
                      ("配置驗證失敗: " +:+ String.concat ", " errors))
    end.
Proof.
  intros Hc Hm Hv. unfold updateConfig, updateConfig_body, record, set_config.
  rewrite Hc. cbv beta iota zeta. rewrite Hc, Hm. cbn [config fs_trace].
  rewrite Hv.
  destruct errors as [|e errors].
  - destruct (writeJson fs (fs_trace s) merged) as [[]|m] eqn:Hw.
    + eexists _, _. split; [reflexivity|]. cbn. split; [done|].
      by exists (Returned tt).
    + eexists _, _. split; [reflexivity|]. cbn. split; [done|].
      by exists (Thrown m).
  - eexists _, _. split; [reflexivity|]. by cbn.
Qed.

End Configuring.

Section Validating.

Import ConfigManager.

(** The five checks of [validateConfig], one after the other. *)
Lemma validateConfig_parts config :
  validateConfig config =
    (if negb (truthy (figma_token (figma config)))
     then ["Figma token 為必填項目"] else []) ++
    (if match targets (backup config) with
        | None => true
        | Some l => Nat.eqb (length l) 0
        end
     then ["至少需要一個備份目標"] else []) ++
    (if negb (truthy (outputDir (backup config))) &&
        negb (truthy (output_dir (backup config)))
     then ["輸出目錄為必填項目"] else []) ++
    match advanced config with
    | Some a =>
        (match concurrency a with
         | Some z =>
             if negb (Z.eqb z 0) && (Z.ltb z 1 || Z.ltb 10 z)
             then ["並發數量必須在 1-10 之間"] else []
         | None => []
         end) ++
        (match timeout a with
         | Some z =>
             if negb (Z.eqb z 0) && Z.ltb z 5000
             then ["超時時間不能少於 5 秒"] else []
         | None => []
         end)
    | None => []
    end.
Proof.
  unfold validateConfig, truthy_number.
  destruct (negb (truthy (figma_token (figma config)))),
    (match targets (backup config) with
     | None => true
     | Some l => Nat.eqb (length l) 0
     end),
    (negb (truthy (outputDir (backup config))) &&
     negb (truthy (output_dir (backup config))));
    (destruct (advanced config) as [a|]; [|reflexivity]);
    destruct (concurrency a) as [zc|], (timeout a) as [zt|];
    try destruct (negb (Z.eqb zc 0)); try destruct (Z.ltb zc 1 || Z.ltb 10 zc);
    try destruct (negb (Z.eqb zt 0)); try destruct (Z.ltb zt 5000);
    reflexivity.
Qed.

Lemma check_passes (failed : bool) (message : string) :
  (if failed then [message] else []) = [] <-> failed = false.
Proof. destruct failed; split; done. Qed.

(** X21 — [validateConfig] accepts a configuration exactly when the Figma
    token is a non-empty string, there is at least one target, one of the
    two output directories is a non-empty string, the concurrency, when
    given, is 0 or lies between 1 and 10, and the timeout, when given, is
    0 or at least 5000: the value 0 passes both range checks, which are
    skipped for a falsy value.  The default configuration is rejected,
    for its empty token and its empty list of targets. *)
Theorem validateConfig_accepts config :
  (validateConfig config = [] <->
   truthy (figma_token (figma config)) = true /\
   (exists l, targets (backup config) = Some l /\ l <> []) /\
   (truthy (outputDir (backup config)) = true \/
    truthy (output_dir (backup config)) = true) /\
   (forall a z, advanced config = Some a -> concurrency a = Some z ->
      z = 0 \/ 1 <= z <= 10)%Z /\
   (forall a z, advanced config = Some a -> timeout a = Some z ->
      z = 0 \/ 5000 <= z)%Z) /\
  validateConfig getDefaultConfig =
    ["Figma token 為必填項目"; "至少需要一個備份目標"].
Proof.
  split; [|reflexivity].
  rewrite validateConfig_parts, !app_nil, !check_passes.
  assert (H2 : match targets (backup config) with
               | None => true
               | Some l => Nat.eqb (length l) 0
               end = false <->
               exists l, targets (backup config) = Some l /\ l <> []).
  { destruct (targets (backup config)) as [[|t l]|]; split; try done.
    - by intros (? & [= <-] & ?).
    - intros _. by exists (t :: l).
    - by intros (? & [=] & _). }
  assert (H3 : negb (truthy (outputDir (backup config))) &&
               negb (truthy (output_dir (backup config))) = false <->
               truthy (outputDir (backup config)) = true \/
               truthy (output_dir (backup config)) = true).
  { destruct (truthy (outputDir (backup config))),
      (truthy (output_dir (backup config))); cbn; split; auto.
    by intros [|]. }
  assert (H45 : match advanced config with
                | Some a =>
                    (match concurrency a with
                     | Some z =>
                         if negb (Z.eqb z 0) && (Z.ltb z 1 || Z.ltb 10 z)
                         then ["並發數量必須在 1-10 之間"] else []
                     | None => []
                     end) ++
                    (match timeout a with
                     | Some z =>
                         if negb (Z.eqb z 0) && Z.ltb z 5000
                         then ["超時時間不能少於 5 秒"] else []
                     | None => []
                     end)
                | None => []
                end = [] <->
                (forall a z, advanced config = Some a -> concurrency a = Some z ->
                   z = 0 \/ 1 <= z <= 10)%Z /\
                (forall a z, advanced config = Some a -> timeout a = Some z ->
                   z = 0 \/ 5000 <= z)%Z).
  { destruct (advanced config) as [a|]; [|by split; [split; intros ? ? [=]|]].
    rewrite app_nil. f_equiv.
    - destruct (concurrency a) as [z|] eqn:Hca.
      + rewrite check_passes. split.
        * intros Hz a' z' [= <-] Hc'. rewrite Hca in Hc'. injection Hc' as <-.
          destruct (Z.eqb_spec z 0); [by left|right]. cbn in Hz.
          apply orb_false_elim in Hz as [Hlo Hhi].
          apply Z.ltb_ge in Hlo, Hhi. lia.
        * intros Hz. destruct (Hz a z eq_refl Hca) as [->|Hr]; [done|].
          apply andb_false_intro2, orb_false_intro; apply Z.ltb_ge; lia.
      + split; [|done]. intros _ ? ? [= <-] Hc'. rewrite Hca in Hc'. discriminate.
    - destruct (timeout a) as [z|] eqn:Hta.
      + rewrite check_passes. split.
        * intros Hz a' z' [= <-] Hc'. rewrite Hta in Hc'. injection Hc' as <-.
          destruct (Z.eqb_spec z 0); [by left|right]. cbn in Hz.
          apply Z.ltb_ge in Hz. lia.
        * intros Hz. destruct (Hz a z eq_refl Hta) as [->|Hr]; [done|].
          apply andb_false_intro2. apply Z.ltb_ge. lia.
      + split; [|done]. intros _ ? ? [= <-] Hc'. rewrite Hta in Hc'. discriminate. }
  rewrite negb_false_iff, H2, H3, H45. tauto.
Qed.

End Validating.

Section Merging.

Import ConfigManager.

Context {V : Type}.

Variable own_properties : V -> gmap string V.

(** The loop of [mergeConfigs], key by key: each key of the user's object
    is assigned once, from the section the configuration had. *)
Lemma mergeConfigs_lookup defaultConfig userConfig key :
  mergeConfigs own_properties defaultConfig userConfig !! key =
  merged_value own_properties (defaultConfig !! key) (userConfig !! key).
Proof.
  unfold mergeConfigs. revert key.
  apply (map_fold_weak_ind
    (fun merged (user : gmap string (UserValue V)) =>
       forall key, merged !! key =
         merged_value own_properties (defaultConfig !! key) (user !! key))).
  - intros key. by rewrite lookup_empty.
  - intros i x m r Hi IH key.
    pose proof (IH i) as Hr. rewrite Hi in Hr. cbn in Hr.
    destruct (decide (i = key)) as [->|Hne].
    + rewrite lookup_insert_eq.
      destruct x; cbn; rewrite ?lookup_insert_eq; cbn; by rewrite ?Hr.
    + rewrite lookup_insert_ne by done.
      destruct x; cbn; rewrite lookup_insert_ne by done; apply IH.
Qed.

Lemma merged_value_again section value :
  merged_value own_properties (merged_value own_properties section value)
    value =
  merged_value own_properties section value.
Proof.
  destruct value as [[props| |v]|]; cbn; [|done..].
  by rewrite (assoc_L (∪)), (idemp_L (∪)).
Qed.

(** X24. [mergeConfigs] merges one level deep. For a user's object without
    the key ["__proto__"]: a section the user's object does not name is
    the configuration's; a section given as an object has the user's
    value under every key the user gives (whatever the configuration had
    there, nested objects included) and the configuration's under every
    other key, so no key of the configuration's section is lost; a section
    given as [null] is not removed, it keeps the configuration's keys; a
    section given as an array, a string, a number or a boolean replaces
    the configuration's section; and merging the same object once more
    changes nothing. *)
Theorem mergeConfigs_sections defaultConfig userConfig :
  userConfig !! "__proto__" = None ->
  let merged := mergeConfigs own_properties defaultConfig userConfig in
  (forall key, userConfig !! key = None ->
     merged !! key = defaultConfig !! key) /\
  (forall key props, userConfig !! key = Some (UObject props) ->
     exists section,
       merged !! key = Some (SObject section) /\
       (forall k v, props !! k = Some v -> section !! k = Some v) /\
       (forall k, props !! k = None ->
          section !! k =
          properties own_properties (defaultConfig !! key) !! k)) /\
  (forall key, userConfig !! key = Some UNull ->
     merged !! key =
     Some (SObject (properties own_properties (defaultConfig !! key)))) /\
  (forall key v, userConfig !! key = Some (UOther v) ->
     merged !! key = Some (SOther v)) /\
  mergeConfigs own_properties merged userConfig = merged.
Proof.
  intros _ merged. subst merged. repeat split.
  - intros key H. by rewrite mergeConfigs_lookup, H.
  - intros key props H. eexists. split.
    + by rewrite mergeConfigs_lookup, H.
    + split.
      * intros k v Hk. by apply lookup_union_Some_l.
      * intros k Hk. by apply lookup_union_r.
  - intros key H. by rewrite mergeConfigs_lookup, H.
  - intros key v H. by rewrite mergeConfigs_lookup, H.
  - apply map_eq. intros key.
    rewrite !mergeConfigs_lookup. apply merged_value_again.
Qed.

End Merging.


(** * The logger *)

Section Logging.

Import Logger.

Variable path_join : string -> string -> string.

Lemma to_console_keeps label message this :
  winston (to_console label message this) = winston this /\
  awaiting_dir (to_console label message this) = awaiting_dir this /\
  options (to_console label message this) = options this.
Proof. unfold to_console. by destruct (enableConsole (options this)). Qed.

Lemma to_winston_undefined method message meta this :
  winston this = None ->
  to_winston method message meta this = (this, Thrown (undefined_deref method)).
Proof. intros Hw. unfold to_winston. by rewrite Hw. Qed.

Lemma to_winston_defined method message meta this w :
  winston this = Some w ->
  exists this' w',
    to_winston method message meta this = (this', Returned tt) /\
    winston this' = Some w' /\ awaiting_dir this' = awaiting_dir this.
Proof. intros Hw. unfold to_winston. rewrite Hw. by eexists _, _. Qed.

(** A call on a logger without winston throws and leaves it so ... *)
Lemma invoke_undefined c this :
  winston this = None ->
  exists this' method,
    invoke c this = (this', Thrown (undefined_deref method)) /\
    winston this' = None /\ awaiting_dir this' = awaiting_dir this /\
    options this' = options this.
Proof.
  intros Hw.
  destruct c; cbn [invoke];
    unfold error, warn, info, debug, verbose, success, start, complete,
      fileOperation; cbv zeta;
    first
      [ match goal with
        | |- context [to_console ?l ?m this] =>
            destruct (to_console_keeps l m this) as (Hk & Ha & Ho);
            rewrite (to_winston_undefined _ _ _ (to_console l m this));
            [|by rewrite Hk];
            eexists _, _; (split; [reflexivity|]); by rewrite Hk, Ha, Ho
        end
      | rewrite (to_winston_undefined _ _ _ _ Hw);
        eexists _, _; (split; [reflexivity|]); by repeat split ].
Qed.

(** ... and a call on a logger with winston returns. *)
Lemma invoke_defined c this w :
  winston this = Some w ->
  exists this' w',
    invoke c this = (this', Returned tt) /\ winston this' = Some w'.
Proof.
  intros Hw.
  destruct c; cbn [invoke];
    unfold error, warn, info, debug, verbose, success, start, complete,
      fileOperation; cbv zeta;
    first
      [ match goal with
        | |- context [to_console ?l ?m this] =>
            destruct (to_console_keeps l m this) as (Hk & _);
            rewrite <- Hk in Hw
        end
      | idtac ];
    match goal with
    | |- context [to_winston ?a ?b ?c ?t] =>
        destruct (to_winston_defined a b c t w Hw) as (t' & w' & E & Hw' & _)
    end;
    rewrite E; by eexists _, _.
Qed.

Lemma invoke_all_undefined calls : forall this,
  winston this = None ->
  Forall (fun o => returned o = false) (snd (invoke_all calls this)) /\
  winston (fst (invoke_all calls this)) = None /\
  awaiting_dir (fst (invoke_all calls this)) = awaiting_dir this /\
  options (fst (invoke_all calls this)) = options this.
Proof.
  induction calls as [|c rest IH]; intros this Hw; [by split; [constructor|]|].
  cbn [invoke_all].
  destruct (invoke_undefined c this Hw) as (t1 & method & -> & Hw1 & Ha1 & Ho1).
  destruct (IH t1 Hw1) as (F & Hw2 & Ha2 & Ho2).
  destruct (invoke_all rest t1) as [t2 os]. cbn in *.
  split; [by constructor|]. split; [done|]. split; congruence.
Qed.

Lemma invoke_all_defined calls : forall this w,
  winston this = Some w ->
  Forall (fun o => returned o = true) (snd (invoke_all calls this)).
Proof.
  induction calls as [|c rest IH]; intros this w Hw; [constructor|].
  cbn [invoke_all].
  destruct (invoke_defined c this w Hw) as (t1 & w1 & -> & Hw1).
  specialize (IH t1 w1 Hw1).
  destruct (invoke_all rest t1) as [t2 os]. cbn in *. by constructor.
Qed.

(** X22 — a logger constructed with file logging on, which is the
    default, cannot be used at once: the constructor returns while
    [setupLogger] still waits for the log directory, [this.winston] is
    undefined, and every logging method throws a [TypeError], as does the
    first [info] of [initializeServices].  The logger becomes usable when
    the directory has been created; when its creation fails the logger
    stays unusable for good. *)
Theorem logger_unusable_until_directory_is_created given calls later message meta :
  on (given_enableFile given) = true ->
  winston (new_Logger path_join given) = None /\
  snd (info message meta (new_Logger path_join given)) =
    Thrown (undefined_deref "info") /\
  Forall (fun o => returned o = false)
         (snd (invoke_all calls (new_Logger path_join given))) /\
  Forall (fun o => returned o = true)
         (snd (invoke_all later
                 (ensureDir_settled path_join (Returned tt)
                    (fst (invoke_all calls (new_Logger path_join given)))))) /\
  forall m,
    Forall (fun o => returned o = false)
           (snd (invoke_all later
                   (ensureDir_settled path_join (Thrown m)
                      (fst (invoke_all calls (new_Logger path_join given)))))).
Proof.
  intros Hon.
  assert (Hnew : winston (new_Logger path_join given) = None /\
                 awaiting_dir (new_Logger path_join given) = true).
  { unfold new_Logger, setupLogger. cbn [options enableFile].
    by destruct (given_enableFile given). }
  destruct Hnew as (Hw & Ha).
  destruct (invoke_all_undefined calls _ Hw) as (F & Hw' & Ha' & Ho').
  split; [done|].
  split; [unfold info; by rewrite (to_winston_undefined _ _ _ _ Hw)|].
  split; [done|].
  rewrite Ha in Ha'.
  split.
  - eapply invoke_all_defined. unfold ensureDir_settled. rewrite Ha'.
    unfold setupLogger_rest. cbn [winston]. reflexivity.
  - intros m. apply invoke_all_undefined.
    unfold ensureDir_settled. by rewrite Ha'.
Qed.

(** X23 — a logger constructed without file logging is ready when the
    constructor returns: every method returns, and winston has the
    console as its only transport, or none at all when the console is
    switched off too. *)
Theorem logger_without_files_is_ready given calls :
  on (given_enableFile given) = false ->
  Forall (fun o => returned o = true)
         (snd (invoke_all calls (new_Logger path_join given))) /\
  exists w,
    winston (new_Logger path_join given) = Some w /\
    transports w =
      (if on (given_enableConsole given)
       then [Console (spread_string "info" (given_level given))] else []).
Proof.
  intros Hoff.
  assert (Hnew : exists w,
             winston (new_Logger path_join given) = Some w /\
             transports w =
               (if on (given_enableConsole given)
                then [Console (spread_string "info" (given_level given))] else [])).
  { unfold new_Logger, setupLogger, setupLogger_rest. cbn [options enableFile].
    destruct (given_enableFile given); try discriminate;
      cbn [spread not_false options enableConsole enableFile winston level];
      eexists; (split; [reflexivity|]); cbn [transports];
      by destruct (given_enableConsole given). }
  destruct Hnew as (w & Hw & Ht). split; [|by exists w].
  by eapply invoke_all_defined.
Qed.

End Logging.


(** * The collaborators on concrete inputs *)

Section NotificationInstances.

Import NotificationService.

Lemma notifyBackupComplete_all_or_partial_witness :
  onComplete (new_NotificationService defaults) = true /\
  notifyBackupComplete linux_broken (new_NotificationService defaults)
    Scenarios.one_of_two [] =
  notify linux_broken (new_NotificationService defaults) "⚠️ 備份部分完成"
    "成功 1/2 個目標" Warning None [].
Proof.
  split; [reflexivity|].
  rewrite (notifyBackupComplete_all_or_partial linux_broken
             (new_NotificationService defaults) Scenarios.one_of_two [] eq_refl).
  reflexivity.
Defined.

End NotificationInstances.

Section ConfigInstances.

Import ConfigManager.

Lemma loadConfig_missing_file_returns_unvalidated_default_witness :
  pathExists (@empty_disk string) (fs_trace fresh) = false /\
  loadConfig getDefaultConfig
    (fun _ _ => Thrown "never called") (fun _ => Thrown "never called")
    empty_disk fresh =
  loadConfig getDefaultConfig merge_token validate empty_disk fresh.
Proof.
  split; [reflexivity|].
  destruct (loadConfig_missing_file_returns_unvalidated_default
              getDefaultConfig merge_token validate empty_disk fresh eq_refl)
    as (w & _ & H).
  apply H.
Defined.

Lemma loadConfig_existing_file_witness :
  pathExists (disk_with "figd_4xK") (fs_trace fresh) = true /\
  write_attempts
    (fs_trace (fst (loadConfig getDefaultConfig merge_token validate
                      (disk_with "figd_4xK") fresh))) =
  write_attempts (fs_trace (@fresh string)).
Proof.
  split; [reflexivity|].
  destruct (loadConfig_existing_file getDefaultConfig merge_token validate
              (disk_with "figd_4xK") fresh
              (fst (loadConfig getDefaultConfig merge_token validate
                      (disk_with "figd_4xK") fresh))
              (snd (loadConfig getDefaultConfig merge_token validate
                      (disk_with "figd_4xK") fresh)))
    as (H & _); [reflexivity|reflexivity|].
  exact H.
Defined.

Lemma updateConfig_keeps_rejected_update_witness :
  validate (Some (with_token "figd_4xK" getDefaultConfig)) =
    Returned ["至少需要一個備份目標"] /\
  exists s' o,
    updateConfig getDefaultConfig merge_token validate (disk_with "")
      "figd_4xK" (mkManager (Some getDefaultConfig) []) = (s', o) /\
    config s' = Some (with_token "figd_4xK" getDefaultConfig).
Proof.
  split; [reflexivity|].
  destruct (updateConfig_keeps_rejected_update getDefaultConfig merge_token
              validate (disk_with "") "figd_4xK"
              (mkManager (Some getDefaultConfig) []) getDefaultConfig
              (Some (with_token "figd_4xK" getDefaultConfig))
              ["至少需要一個備份目標"])
    as (s' & o & E & Hc & _); [reflexivity..|].
  exists s', o. split; [exact E|exact Hc].
Defined.

Lemma mergeConfigs_sections_witness :
  file_object !! "__proto__" = None /\
  mergeConfigs (fun _ => ∅) one_section file_object !! "backup" =
  Some (SObject ∅).
Proof.
  split; [reflexivity|].
  destruct (mergeConfigs_sections (fun _ => ∅) one_section file_object
              eq_refl)
    as (_ & _ & H & _).
  exact (H "backup" eq_refl).
Defined.

End ConfigInstances.

Section LoggerInstances.

Import Logger.

Lemma logger_unusable_until_directory_is_created_witness :
  on (given_enableFile as_initialized) = true /\
  snd (info "🔧 所有服務已初始化" [] (new_Logger join_with_slash as_initialized)) =
    Thrown (undefined_deref "info").
Proof.
  split; [reflexivity|].
  destruct (logger_unusable_until_directory_is_created join_with_slash
              as_initialized [] [] "🔧 所有服務已初始化" [])
    as (_ & H & _); [reflexivity|].
  exact H.
Defined.

Lemma logger_without_files_is_ready_witness :
  on (given_enableFile console_only) = false /\
  Forall (fun o => returned o = true)
         (snd (invoke_all [CallInfo "ready" []; CallSuccess "done" []]
                 (new_Logger join_with_slash console_only))).
Proof.
  split; [reflexivity|].
  destruct (logger_without_files_is_ready join_with_slash console_only
              [CallInfo "ready" []; CallSuccess "done" []])
    as (H & _); [reflexivity|].
  exact H.
Defined.

End LoggerInstances.
